(** * DeepRacer reward functions: a shallow embedding of carthing.py and
    carthing2.py

    Both source files compute a scalar reward from a telemetry dictionary.
    The embedding follows the source function by function.

    Numbers.  Python floats are idealised as real numbers ([R]): there is no
    rounding, no NaN and no infinity except the explicit [float("inf")] that
    [get_distance_list] starts from, which is modelled by [Py.PosInf].
    Python ints are [Z].

    Effects.  Python code can raise ([KeyError] on a missing dictionary key,
    [ZeroDivisionError] on [/] and [%], [IndexError] on list indexing) and
    reads and writes module-level variables.  Both are modelled by one state
    and exception monad [Py.M S], where [S] is the record of the module's
    global variables. *)

From Stdlib Require Import Reals Lra Lia ZArith List.
From stdpp Require Import gmap strings list.

Open Scope R_scope.

(* ===================================================================== *)
(** * The Python fragment used by the two modules                          *)
(* ===================================================================== *)

Module Py.

(** The exceptions the code can raise. *)
Inductive exn : Type :=
  | KeyError (k : string)
  | ZeroDivisionError
  | IndexError.

Inductive result (A : Type) : Type :=
  | Ok (a : A)
  | Raise (e : exn).
Arguments Ok {A} a.
Arguments Raise {A} e.

(** A computation takes the module globals and gives a result together with
    the globals it leaves behind (a write made before an exception stays). *)
Definition M (S A : Type) : Type := S -> result A * S.

Definition ret {S A} (a : A) : M S A := fun s => (Ok a, s).

Definition bind {S A B} (c : M S A) (k : A -> M S B) : M S B :=
  fun s =>
    match c s with
    | (Ok a, s') => k a s'
    | (Raise e, s') => (Raise e, s')
    end.

Definition raise {S A} (e : exn) : M S A := fun s => (Raise e, s).

(** Read a module-level variable. *)
Definition gets {S A} (f : S -> A) : M S A := fun s => (Ok (f s), s).

(** Assign to a module-level variable declared [global]. *)
Definition modify {S} (f : S -> S) : M S unit := fun s => (Ok tt, f s).

Declare Scope py_scope.
Delimit Scope py_scope with py.
Notation "x <- c ;; k" := (bind c (fun x => k))
  (at level 100, c at next level, right associativity) : py_scope.

(** ** Values and dictionaries *)

(** The telemetry values are floats and booleans.  A Python bool is an int:
    it counts as 1 or 0 in arithmetic, and a number is true when non-zero. *)
Inductive value : Type :=
  | VFloat (r : R)
  | VBool (b : bool).

Definition num (v : value) : R :=
  match v with
  | VFloat r => r
  | VBool true => 1
  | VBool false => 0
  end.

Definition truthy (v : value) : bool :=
  match v with
  | VFloat r => if Req_dec_T r 0 then false else true
  | VBool b => b
  end.

(** [d[k]]: raises [KeyError] when the key is absent. *)
Definition py_item {S} (d : gmap string value) (k : string) : M S value :=
  match d !! k with
  | Some v => ret v
  | None => raise (KeyError k)
  end.

(** [d[k]] used as a number. *)
Definition py_num {S} (d : gmap string value) (k : string) : M S R :=
  bind (py_item d k) (fun v => ret (num v)).

(** ** Arithmetic *)

(** [a / b] on floats. *)
Definition py_div {S} (a b : R) : M S R :=
  if Req_dec_T b 0 then raise ZeroDivisionError else ret (a / b).

(** [a % b] on floats: [a - floor(a / b) * b], the sign of the divisor. *)
Definition py_fmod {S} (a b : R) : M S R :=
  if Req_dec_T b 0 then raise ZeroDivisionError
  else ret (a - IZR (Int_part (a / b)) * b).

(** [a % b] on ints. *)
Definition py_imod {S} (a b : Z) : M S Z :=
  if Z.eq_dec b 0%Z then raise ZeroDivisionError else ret (a mod b)%Z.

(** [max(a, b)] keeps its first argument unless the second is larger;
    [min(a, b)] keeps its first argument unless the second is smaller. *)
Definition py_max (a b : R) : R := if Rlt_dec a b then b else a.
Definition py_min (a b : R) : R := if Rlt_dec b a then b else a.

(** [int(r)]: truncation towards zero. *)
Definition py_int (r : R) : Z :=
  if Rlt_dec r 0 then (- Int_part (- r))%Z else Int_part r.

(** [range(a, b)]. *)
Definition py_range (a b : Z) : list Z :=
  map (fun k => (a + Z.of_nat k)%Z) (seq 0 (Z.to_nat (b - a))).

(** [enumerate(l)]. *)
Fixpoint enumerate_from {A} (i : Z) (l : list A) : list (Z * A) :=
  match l with
  | [] => []
  | a :: l' => (i, a) :: enumerate_from (i + 1) l'
  end.
Definition py_enumerate {A} (l : list A) : list (Z * A) := enumerate_from 0 l.

(** [l[i]]: a negative index counts from the end; out of range raises. *)
Definition py_index {S A} (l : list A) (i : Z) : M S A :=
  let n := Z.of_nat (length l) in
  let j := if Z_lt_dec i 0%Z then (n + i)%Z else i in
  if Z_lt_dec j 0%Z then raise IndexError
  else match l !! Z.to_nat j with
       | Some a => ret a
       | None => raise IndexError
       end.

(** ** The [math] module *)

Definition math_pi : R := PI.
Definition math_sqrt (x : R) : R := sqrt x.
Definition math_degrees (x : R) : R := x * (180 / math_pi).
Definition math_radians (x : R) : R := x * (math_pi / 180).

(** [math.atan2(y, x)]: the angle of the point [(x, y)], in [-pi, pi]. *)
Definition math_atan2 (y x : R) : R :=
  if Rlt_dec 0 x then atan (y / x)
  else if Rlt_dec x 0 then
    if Rle_dec 0 y then atan (y / x) + PI else atan (y / x) - PI
  else if Rlt_dec 0 y then PI / 2
  else if Rlt_dec y 0 then - PI / 2
  else 0.

(** ** [float("inf")] *)

Inductive ext : Type :=
  | Fin (r : R)
  | PosInf.

(** [d < m] for a float [d] and a possibly infinite [m]. *)
Definition lt_ext (d : R) (m : ext) : bool :=
  match m with
  | PosInf => true
  | Fin r => if Rlt_dec d r then true else false
  end.

(** A point [[x, y]]. *)
Definition point : Type := R * R.

(** ** Outcomes of a run *)

(** [returns c s Q]: from globals [s] the computation returns normally with
    a value and final globals satisfying [Q]. *)
Definition returns {S A} (c : M S A) (s : S) (Q : A -> S -> Prop) : Prop :=
  match c s with
  | (Ok a, s') => Q a s'
  | (Raise _, _) => False
  end.

(** [raises c s e]: from globals [s] the computation raises [e]. *)
Definition raises {S A} (c : M S A) (s : S) (e : exn) : Prop :=
  fst (c s) = Raise e.

(** [fails c s]: the computation raises some exception. *)
Definition fails {S A} (c : M S A) (s : S) : Prop :=
  exists e, raises c s e.

End Py.

Import Py.
Open Scope py_scope.

(* ===================================================================== *)
(** * carthing.py: the additive variant                                    *)
(* ===================================================================== *)

Module Carthing.

(** The module-level variables. *)
Record globals : Type := Globals {
  reward_max : R;
  reward_min : R;
  last_progress : R
}.

(** The module as loaded: [reward_max = 5.0], [reward_min = 0.001],
    [last_progress = 0]. *)
Definition loaded : globals :=
  {| reward_max := 5.0; reward_min := 0.001; last_progress := 0 |}.

Definition set_last_progress (v : R) (g : globals) : globals :=
  {| reward_max := reward_max g; reward_min := reward_min g;
     last_progress := v |}.

Abbreviation M := (Py.M globals).

(** A waypoint [[x, y, speed]]. *)
Record waypoint : Type := WP { wp_x : R; wp_y : R; wp_speed : R }.

Definition xy (w : waypoint) : point := (wp_x w, wp_y w).

Definition get_distance (coor1 coor2 : point) : R :=
  math_sqrt
    ((fst coor1 - fst coor2) * (fst coor1 - fst coor2)
     + (snd coor1 - snd coor2) * (snd coor1 - snd coor2)).

Definition get_difference_degrees (angle1 angle2 : R) : M R :=
  diff <- py_fmod (angle1 - angle2) (2.0 * math_pi);;
  let diff := if Rge_dec diff math_pi then diff - 2.0 * math_pi else diff in
  ret (math_degrees diff).

(** One iteration of the loop of [get_distance_list]; the loop variables
    are [(dist_list, min_dist, min_idx)]. *)
Definition scan_step (car : point) (st : list R * ext * Z)
    (iw : Z * waypoint) : list R * ext * Z :=
  let '(dist_list, min_dist, min_idx) := st in
  let '(i, waypoint) := iw in
  let dist := get_distance car (xy waypoint) in
  let '(min_dist, min_idx) :=
    if lt_ext dist min_dist then (Fin dist, i) else (min_dist, min_idx) in
  (dist_list ++ [dist], min_dist, min_idx).

Definition get_distance_list (car : point) (waypoints : list waypoint)
    : list R * ext * Z * Z :=
  let '(dist_list, min_dist, min_idx) :=
    fold_left (scan_step car) (py_enumerate waypoints) ([], PosInf, (-1)%Z) in
  (dist_list, min_dist, min_idx, Z.of_nat (length waypoints)).

(** The [for i in range(...)] loop of [draw_ray] over the remaining
    offsets; returning early is the [break]. *)
Fixpoint ray_loop (dist_list : list R) (min_idx length : Z) (target_dist : R)
    (offsets : list Z) (target_idx : Z) : M Z :=
  match offsets with
  | [] => ret target_idx
  | i :: rest =>
      index <- py_imod (min_idx + i) length;;
      let target_idx := index in
      d <- py_index dist_list index;;
      if Rge_dec d target_dist then ret target_idx
      else ray_loop dist_list min_idx length target_dist rest target_idx
  end.

Definition draw_ray (params : gmap string value) (waypoints : list waypoint)
    (sight : R) : M (Z * Z) :=
  x <- py_num params "x";;
  y <- py_num params "y";;
  let car := (x, y) in
  track_width <- py_num params "track_width";;
  let target_dist := track_width * sight in
  let '(dist_list, _, min_idx, length) := get_distance_list car waypoints in
  let target_idx := min_idx in
  target_idx <-
    ray_loop dist_list min_idx length target_dist
      (py_range 5 (py_int (IZR length * 0.1))) target_idx;;
  ret (target_idx, min_idx).

Definition score_steering (params : gmap string value) (target : waypoint)
    : M R :=
  x <- py_num params "x";;
  y <- py_num params "y";;
  let car := (x, y) in
  let target_angle :=
    math_atan2 (wp_y target - snd car) (wp_x target - fst car) in
  heading <- py_num params "heading";;
  steering <- py_num params "steering_angle";;
  target_steering <-
    get_difference_degrees target_angle (math_radians heading);;
  let target_steering := py_max (-30) (py_min 30 target_steering) in
  let diff := Rabs (steering - target_steering) in
  score <-
    (if Rgt_dec diff 30 then ret 0.001
     else q <- py_div diff 30;; ret (1.001 - q));;
  rmax <- gets reward_max;;
  rmin <- gets reward_min;;
  ret (py_max (py_min score rmax) rmin).

Definition score_speed (params : gmap string value) (target : waypoint)
    : M R :=
  speed <- py_num params "speed";;
  let diff := Rabs (speed - wp_speed target) in
  q <- py_div diff 3;;
  let score := 1.001 - q in
  rmax <- gets reward_max;;
  rmin <- gets reward_min;;
  ret (py_max (py_min score rmax) rmin).

Definition score_speed_steering (params : gmap string value) : M R :=
  speed <- py_num params "speed";;
  steering <- py_num params "steering_angle";;
  let steering_angle := Rabs steering in
  let max_speed := 4.0 in
  let max_steering := 30.0 in
  normalized_speed <- py_div speed max_speed;;
  normalized_steering <- py_div steering_angle max_steering;;
  reward <-
    (if Rge_dec speed 2.5 then
       ret (1.0 - normalized_steering * normalized_speed)
     else if Rle_dec speed 1.5 then
       ret (1.0 + normalized_steering * (1.0 - normalized_speed))
     else
       q <- py_div normalized_steering 2.0;; ret (1.0 - q));;
  rmin <- gets reward_min;;
  rmax <- gets reward_max;;
  ret (py_max rmin (py_min reward rmax)).

Definition score_center (params : gmap string value) (target : waypoint)
    : M R :=
  track_width <- py_num params "track_width";;
  x <- py_num params "x";;
  y <- py_num params "y";;
  let car := (x, y) in
  let center := (wp_x target, wp_y target) in
  let dist := get_distance car center in
  q <- py_div (Rabs (track_width - dist)) track_width;;
  let score := 1.001 - q in
  rmax <- gets reward_max;;
  rmin <- gets reward_min;;
  ret (py_max (py_min score rmax) rmin).

Definition score_progress (params : gmap string value) : M R :=
  progress <- py_num params "progress";;
  last <- gets last_progress;;
  rmax <- gets reward_max;;
  let score := (progress - last) * rmax in
  _ <- modify (set_last_progress progress);;
  rmin <- gets reward_min;;
  ret (py_max score rmin).

Definition get_racing_track : list waypoint :=
  [ WP 1.17885 (-0.02819) 4;
    WP 0.97428 0.19281 4;
    WP 0.77039 0.41465 4;
    WP 0.56694 0.63702 4;
    WP 0.36371 0.85965 3.5;
    WP 0.16067 1.08251 3.5;
    WP (-0.04223) 1.30555 3.5;
    WP (-0.24496) 1.5288 3;
    WP (-0.4475) 1.75228 3;
    WP (-0.64984) 1.97599 3;
    WP (-0.85192) 2.20003 2.5;
    WP (-1.05344) 2.42472 2.5;
    WP (-1.25411) 2.6504 2.22318;
    WP (-1.45594) 2.87373 1.987;
    WP (-1.66165) 3.09018 1.80388;
    WP (-1.87335) 3.29467 1.5668;
    WP (-2.09255) 3.48153 1.3907;
    WP (-2.31965) 3.64525 1.23406;
    WP (-2.55394) 3.78055 1.09776;
    WP (-2.79366) 3.8824 1.09776;
    WP (-3.03592) 3.94668 1.09776;
    WP (-3.27641) 3.96537 1.09776;
    WP (-3.50797) 3.93144 1.0977;
    WP (-3.71896) 3.83638 1.0977;
    WP (-3.88698) 3.67145 1.21977;
    WP (-4.0029) 3.46131 1.35655;
    WP (-4.06619) 3.23045 1.47171;
    WP (-4.08237) 2.99662 1.61364;
    WP (-4.06132) 2.76898 1.74679;
    WP (-4.01102) 2.55088 1.89145;
    WP (-3.93766) 2.34296 1.55965;
    WP (-3.84538) 2.14508 1.26288;
    WP (-3.73745) 1.95666 1.26288;
    WP (-3.61589) 1.77732 1.26288;
    WP (-3.46559) 1.58986 1.26288;
    WP (-3.3348) 1.39364 1.26288;
    WP (-3.24176) 1.18168 1.2628;
    WP (-3.20714) 0.94929 1.45877;
    WP (-3.22122) 0.70365 1.73181;
    WP (-3.27557) 0.44914 2.10352;
    WP (-3.36195) 0.1884 2.5;
    WP (-3.47031) (-0.07663) 2.5;
    WP (-3.59276) (-0.35194) 2.5;
    WP (-3.70757) (-0.6305) 2.45447;
    WP (-3.81255) (-0.91281) 2.26315;
    WP (-3.90467) (-1.19896) 2.10558;
    WP (-3.98055) (-1.48823) 1.95433;
    WP (-4.03675) (-1.77896) 1.8058;
    WP (-4.07006) (-2.06871) 1.61297;
    WP (-4.07796) (-2.35438) 1.42626;
    WP (-4.05785) (-2.63218) 1.27572;
    WP (-4.00829) (-2.89786) 1.1279;
    WP (-3.92841) (-3.14667) 1.0;
    WP (-3.81797) (-3.37333) 1.0;
    WP (-3.67586) (-3.56992) 1.0;
    WP (-3.50254) (-3.72585) 1.0;
    WP (-3.30246) (-3.82919) 1.0;
    WP (-3.0846) (-3.8639) 1.0;
    WP (-2.86921) (-3.80985) 1.1893;
    WP (-2.67215) (-3.69283) 1.31765;
    WP (-2.50144) (-3.5234) 1.47389;
    WP (-2.36194) (-3.31176) 1.65465;
    WP (-2.25566) (-3.0676) 1.76875;
    WP (-2.18244) (-2.79938) 1.61197;
    WP (-2.14008) (-2.51429) 1.4814;
    WP (-2.127) (-2.22076) 1.30142;
    WP (-2.08005) (-1.94006) 1.17403;
    WP (-1.99865) (-1.67826) 1.0412;
    WP (-1.88265) (-1.44243) 1.0412;
    WP (-1.73341) (-1.24052) 1.04125;
    WP (-1.55471) (-1.08023) 1.04125;
    WP (-1.35065) (-0.97424) 1.04125;
    WP (-1.13142) (-0.93427) 1.04125;
    WP (-0.91566) (-0.97615) 1.16222;
    WP (-0.71978) (-1.08038) 1.27537;
    WP (-0.55152) (-1.2341) 1.38928;
    WP (-0.41548) (-1.42792) 1.52292;
    WP (-0.31396) (-1.65377) 1.69263;
    WP (-0.2468) (-1.90419) 1.5618;
    WP (-0.21119) (-2.17228) 1.2590;
    WP (-0.2013) (-2.45172) 1.05429;
    WP (-0.21099) (-2.73807) 1.05429;
    WP (-0.23212) (-3.0039) 1.05429;
    WP (-0.22807) (-3.25729) 1.05429;
    WP (-0.18217) (-3.48688) 1.05429;
    WP (-0.08656) (-3.68183) 1.05429;
    WP 0.06315 (-3.82604) 1.07185;
    WP 0.25374 (-3.91471) 1.19;
    WP 0.47108 (-3.94962) 1.3079;
    WP 0.70518 (-3.9303) 1.44545;
    WP 0.9466 (-3.85721) 1.5091;
    WP 1.18401 (-3.72675) 1.5792;
    WP 1.43537 (-3.64681) 1.54486;
    WP 1.6916 (-3.61315) 1.47565;
    WP 1.9489 (-3.62299) 1.37028;
    WP 2.20403 (-3.67601) 1.2804;
    WP 2.45328 (-3.77354) 1.202;
    WP 2.69005 (-3.92338) 1.02595;
    WP 2.94411 (-4.01746) 1.02595;
    WP 3.19298 (-4.05176) 1.02595;
    WP 3.42603 (-4.0289) 1.02595;
    WP 3.63458 (-3.95263) 1.02595;
    WP 3.81 (-3.82567) 1.02595;
    WP 3.92786 (-3.64044) 1.13441;
    WP 3.98445 (-3.41809) 1.27721;
    WP 3.98138 (-3.17723) 1.41599;
    WP 3.92288 (-2.9333) 1.576;
    WP 3.81718 (-2.69741) 1.76607;
    WP 3.67368 (-2.47517) 2.00827;
    WP 3.50131 (-2.26778) 2.37831;
    WP 3.30856 (-2.07314) 3;
    WP 3.10167 (-1.88845) 3;
    WP 2.88408 (-1.71115) 3.5;
    WP 2.65936 (-1.51577) 3.5;
    WP 2.43924 (-1.31391) 4;
    WP 2.22303 (-1.10716) 4;
    WP 2.01001 (-0.89649) 4;
    WP 1.79956 (-0.68266) 4;
    WP 1.59116 (-0.46633) 4;
    WP 1.38438 (-0.24802) 4 ].

Definition reward_function (params : gmap string value) : M R :=
  let reward := 0.0 in
  let line_x : R * R := (7, -6) in
  let line_y : R * R := (-7, 6) in
  m <- py_div (snd line_y - fst line_y) (snd line_x - fst line_x);;
  x <- py_num params "x";;
  let line_y_at_car_x := m * x + fst line_y - m * fst line_x in
  y <- py_num params "y";;
  let sight := if Rlt_dec y line_y_at_car_x then 0.25 else 0.5 in
  let racing_track := get_racing_track in
  ti <- draw_ray params racing_track sight;;
  let '(target_idx, min_idx) := ti in
  target <- py_index racing_track target_idx;;
  s <- score_steering params target;;
  let reward := reward + s in
  nearest <- py_index racing_track min_idx;;
  s <- score_speed params nearest;;
  let reward := reward + s in
  nearest <- py_index racing_track min_idx;;
  s <- score_center params nearest;;
  let reward := reward + s in
  s <- score_progress params;;
  let reward := reward + s in
  s <- score_speed_steering params;;
  let reward := reward + s in
  ret reward.

End Carthing.

(* ===================================================================== *)
(** * carthing2.py: the weighted variant                                   *)
(* ===================================================================== *)

Module Carthing2.

(** The module-level variables: the clamping boundaries. *)
Record globals : Type := Globals {
  reward_max : R;
  reward_min : R
}.

(** The module as loaded: [reward_max = 10.0], [reward_min = 0.001]. *)
Definition loaded : globals := {| reward_max := 10.0; reward_min := 0.001 |}.

Abbreviation M := (Py.M globals).

(** A waypoint [[x, y]]. *)
Record waypoint : Type := WP { wp_x : R; wp_y : R }.

Definition xy (w : waypoint) : point := (wp_x w, wp_y w).

Definition get_distance (coor1 coor2 : point) : R :=
  math_sqrt ((fst coor1 - fst coor2) ^ 2 + (snd coor1 - snd coor2) ^ 2).

Definition get_difference_degrees (angle1_radians angle2_radians : R) : M R :=
  diff <- py_fmod (angle1_radians - angle2_radians) (2.0 * math_pi);;
  let diff := if Rge_dec diff math_pi then diff - 2.0 * math_pi else diff in
  ret (math_degrees diff).

(** One iteration of the loop of [get_distance_list]; here the distance is
    appended before the comparison. *)
Definition scan_step (car : point) (st : list R * ext * Z)
    (iw : Z * waypoint) : list R * ext * Z :=
  let '(dist_list, min_dist, min_idx) := st in
  let '(i, waypoint) := iw in
  let dist := get_distance car (xy waypoint) in
  let dist_list := dist_list ++ [dist] in
  let '(min_dist, min_idx) :=
    if lt_ext dist min_dist then (Fin dist, i) else (min_dist, min_idx) in
  (dist_list, min_dist, min_idx).

Definition get_distance_list (car : point) (waypoints : list waypoint)
    : list R * ext * Z * Z :=
  let '(dist_list, min_dist, min_idx) :=
    fold_left (scan_step car) (py_enumerate waypoints) ([], PosInf, (-1)%Z) in
  (dist_list, min_dist, min_idx, Z.of_nat (length waypoints)).

Fixpoint ray_loop (dist_list : list R) (min_idx length : Z) (target_dist : R)
    (offsets : list Z) (target_idx : Z) : M Z :=
  match offsets with
  | [] => ret target_idx
  | i :: rest =>
      index <- py_imod (min_idx + i) length;;
      let target_idx := index in
      d <- py_index dist_list index;;
      if Rge_dec d target_dist then ret target_idx
      else ray_loop dist_list min_idx length target_dist rest target_idx
  end.

Definition draw_ray (params : gmap string value) (waypoints : list waypoint)
    (sight : R) : M (Z * Z) :=
  x <- py_num params "x";;
  y <- py_num params "y";;
  let car := (x, y) in
  track_width <- py_num params "track_width";;
  let target_dist := track_width * sight in
  let '(dist_list, _, min_idx, length) := get_distance_list car waypoints in
  let target_idx := min_idx in
  target_idx <-
    ray_loop dist_list min_idx length target_dist
      (py_range 5 (py_int (IZR length * 0.1))) target_idx;;
  ret (target_idx, min_idx).

Definition score_steering (params : gmap string value) (target_wp : waypoint)
    : M R :=
  x <- py_num params "x";;
  y <- py_num params "y";;
  let car := (x, y) in
  let target_angle :=
    math_atan2 (wp_y target_wp - snd car) (wp_x target_wp - fst car) in
  heading_deg <- py_num params "heading";;
  steering_deg <- py_num params "steering_angle";;
  target_steering_deg <-
    get_difference_degrees target_angle (math_radians heading_deg);;
  let target_steering_deg := py_max (-30) (py_min 30 target_steering_deg) in
  let diff := Rabs (steering_deg - target_steering_deg) in
  q <- py_div diff 30.0;;
  let score := 1.1 - q in
  rmax <- gets reward_max;;
  let score := score * rmax in
  rmax <- gets reward_max;;
  rmin <- gets reward_min;;
  ret (py_max (py_min score rmax) rmin).

Definition score_speed (params : gmap string value) : M R :=
  speed <- py_num params "speed";;
  q <- py_div (speed - 1.0) 3.0;;
  let score := 0.1 + q in
  rmax <- gets reward_max;;
  let score := score * rmax in
  rmax <- gets reward_max;;
  rmin <- gets reward_min;;
  ret (py_max (py_min score rmax) rmin).

Definition score_center (params : gmap string value) (closest_wp : waypoint)
    : M R :=
  x <- py_num params "x";;
  y <- py_num params "y";;
  let car := (x, y) in
  let line_point := (wp_x closest_wp, wp_y closest_wp) in
  let dist_to_line := get_distance car line_point in
  rmax <- gets reward_max;;
  let score := rmax - dist_to_line in
  rmax <- gets reward_max;;
  rmin <- gets reward_min;;
  ret (py_max (py_min score rmax) rmin).

Definition score_progress (params : gmap string value) : M R :=
  progress_percent <- py_num params "progress";;
  q <- py_div progress_percent 100.0;;
  rmax <- gets reward_max;;
  let score := q * rmax in
  rmax <- gets reward_max;;
  rmin <- gets reward_min;;
  ret (py_max (py_min score rmax) rmin).

Definition get_racing_track : list waypoint :=
  [ WP 1.17885 (-0.02819);
    WP 0.97428 0.19281;
    WP 0.77039 0.41465;
    WP 0.56694 0.63702;
    WP 0.36371 0.85965;
    WP 0.16067 1.08251;
    WP (-0.04223) 1.30555;
    WP (-0.24496) 1.5288;
    WP (-0.4475) 1.75228;
    WP (-0.64984) 1.97599;
    WP (-0.85192) 2.20003;
    WP (-1.05344) 2.42472;
    WP (-1.25411) 2.6504;
    WP (-1.45594) 2.87373;
    WP (-1.66165) 3.09018;
    WP (-1.87335) 3.29467;
    WP (-2.09255) 3.48153;
    WP (-2.31965) 3.64525;
    WP (-2.55394) 3.78055;
    WP (-2.79366) 3.8824;
    WP (-3.03592) 3.94668;
    WP (-3.27641) 3.96537;
    WP (-3.50797) 3.93144;
    WP (-3.71896) 3.83638;
    WP (-3.88698) 3.67145;
    WP (-4.0029) 3.46131;
    WP (-4.06619) 3.23045;
    WP (-4.08237) 2.99662;
    WP (-4.06132) 2.76898;
    WP (-4.01102) 2.55088;
    WP (-3.93766) 2.34296;
    WP (-3.84538) 2.14508;
    WP (-3.73745) 1.95666;
    WP (-3.61589) 1.77732;
    WP (-3.46559) 1.58986;
    WP (-3.3348) 1.39364;
    WP (-3.24176) 1.18168;
    WP (-3.20714) 0.94929;
    WP (-3.22122) 0.70365;
    WP (-3.27557) 0.44914;
    WP (-3.36195) 0.1884;
    WP (-3.47031) (-0.07663);
    WP (-3.59276) (-0.35194);
    WP (-3.70757) (-0.6305);
    WP (-3.81255) (-0.91281);
    WP (-3.90467) (-1.19896);
    WP (-3.98055) (-1.48823);
    WP (-4.03675) (-1.77896);
    WP (-4.07006) (-2.06871);
    WP (-4.07796) (-2.35438);
    WP (-4.05785) (-2.63218);
    WP (-4.00829) (-2.89786);
    WP (-3.92841) (-3.14667);
    WP (-3.81797) (-3.37333);
    WP (-3.67586) (-3.56992);
    WP (-3.50254) (-3.72585);
    WP (-3.30246) (-3.82919);
    WP (-3.0846) (-3.8639);
    WP (-2.86921) (-3.80985);
    WP (-2.67215) (-3.69283);
    WP (-2.50144) (-3.5234);
    WP (-2.36194) (-3.31176);
    WP (-2.25566) (-3.0676);
    WP (-2.18244) (-2.79938);
    WP (-2.14008) (-2.51429);
    WP (-2.127) (-2.22076);
    WP (-2.08005) (-1.94006);
    WP (-1.99865) (-1.67826);
    WP (-1.88265) (-1.44243);
    WP (-1.73341) (-1.24052);
    WP (-1.55471) (-1.08023);
    WP (-1.35065) (-0.97424);
    WP (-1.13142) (-0.93427);
    WP (-0.91566) (-0.97615);
    WP (-0.71978) (-1.08038);
    WP (-0.55152) (-1.2341);
    WP (-0.41548) (-1.42792);
    WP (-0.31396) (-1.65377);
    WP (-0.2468) (-1.90419);
    WP (-0.21119) (-2.17228);
    WP (-0.2013) (-2.45172);
    WP (-0.21099) (-2.73807);
    WP (-0.23212) (-3.0039);
    WP (-0.22807) (-3.25729);
    WP (-0.18217) (-3.48688);
    WP (-0.08656) (-3.68183);
    WP 0.06315 (-3.82604);
    WP 0.25374 (-3.91471);
    WP 0.47108 (-3.94962);
    WP 0.70518 (-3.9303);
    WP 0.9466 (-3.85721);
    WP 1.18401 (-3.72675);
    WP 1.43537 (-3.64681);
    WP 1.6916 (-3.61315);
    WP 1.9489 (-3.62299);
    WP 2.20403 (-3.67601);
    WP 2.45328 (-3.77354);
    WP 2.69005 (-3.92338);
    WP 2.94411 (-4.01746);
    WP 3.19298 (-4.05176);
    WP 3.42603 (-4.0289);
    WP 3.63458 (-3.95263);
    WP 3.81 (-3.82567);
    WP 3.92786 (-3.64044);
    WP 3.98445 (-3.41809);
    WP 3.98138 (-3.17723);
    WP 3.92288 (-2.9333);
    WP 3.81718 (-2.69741);
    WP 3.67368 (-2.47517);
    WP 3.50131 (-2.26778);
    WP 3.30856 (-2.07314);
    WP 3.10167 (-1.88845);
    WP 2.88408 (-1.71115);
    WP 2.65936 (-1.51577);
    WP 2.43924 (-1.31391);
    WP 2.22303 (-1.10716);
    WP 2.01001 (-0.89649);
    WP 1.79956 (-0.68266);
    WP 1.59116 (-0.46633);
    WP 1.38438 (-0.24802);
    WP 1.17885 (-0.02819) ].

Definition reward_function (params : gmap string value) : M R :=
  offtrack <- py_item params "is_offtrack";;
  if truthy offtrack then ret 1e-3
  else
    let line_x : R * R := (7, -6) in
    let line_y : R * R := (-7, 6) in
    m <- py_div (snd line_y - fst line_y) (snd line_x - fst line_x);;
    x <- py_num params "x";;
    let line_y_at_car_x := m * x + fst line_y - m * fst line_x in
    y <- py_num params "y";;
    let sight := if Rlt_dec y line_y_at_car_x then 0.5 else 1 in
    let racing_track := get_racing_track in
    ti <- draw_ray params racing_track sight;;
    let '(target_idx, min_idx) := ti in
    target <- py_index racing_track target_idx;;
    steering_score <- score_steering params target;;
    speed_score <- score_speed params;;
    closest <- py_index racing_track min_idx;;
    center_score <- score_center params closest;;
    progress_score <- score_progress params;;
    let steering_weight := 0.1 in
    let speed_weight := 0.5 in
    let center_weight := 0.3 in
    let progress_weight := 0.1 in
    let reward :=
      steering_weight * steering_score
      + speed_weight * speed_score
      + center_weight * center_score
      + progress_weight * progress_score in
    rmax <- gets reward_max;;
    rmin <- gets reward_min;;
    let reward := py_max (py_min reward rmax) rmin in
    ret reward.

End Carthing2.

(* ===================================================================== *)
(** * Specification-level definitions                                      *)
(* ===================================================================== *)

(** The training harness calls the reward function once per simulation
    step; [run f calls s] is the list of outcomes of that sequence of calls,
    the module globals being carried from one call to the next. *)
Fixpoint run {S} (f : gmap string value -> Py.M S R)
    (calls : list (gmap string value)) (s : S) : list (result R) :=
  match calls with
  | [] => []
  | p :: rest => let '(r, s') := f p s in r :: run f rest s'
  end.

(** The signed difference [a1 - a2] of two angles in radians, in degrees:
    the value [get_difference_degrees] computes. *)
Definition angle_difference (a1 a2 : R) : R :=
  let diff := a1 - a2 - IZR (Int_part ((a1 - a2) / (2.0 * PI))) * (2.0 * PI) in
  math_degrees (if Rge_dec diff PI then diff - 2.0 * PI else diff).

(** The ideal steering towards a target seen from the car: the bearing of
    the target relative to the heading, clipped to [[-30, 30]] degrees. *)
Definition ideal_steering (x y heading tx ty : R) : R :=
  py_max (-30)
    (py_min 30
       (angle_difference (math_atan2 (ty - y) (tx - x)) (math_radians heading))).

(** The keys both variants read. *)
Definition required_keys : list string :=
  ["x"; "y"; "heading"; "steering_angle"; "speed"; "track_width"; "progress"].

(** A telemetry record with every required key. *)
Definition has_required (p : gmap string value) : Prop :=
  forall k, In k required_keys -> is_Some (p !! k).

(** The globals of carthing.py hold the configured bounds. *)
Definition configured (g : Carthing.globals) : Prop :=
  Carthing.reward_max g = 5.0 /\ Carthing.reward_min g = 0.001.

(** The numeric field [k] of a telemetry record (0 when absent). *)
Definition tele (p : gmap string value) (k : string) : R :=
  match p !! k with
  | Some v => num v
  | None => 0
  end.

(** What the loop of [get_distance_list] maintains: before any waypoint is
    seen the minimum is infinite and the index is -1; afterwards [min_idx]
    holds the first position of the least distance seen so far. *)
Definition first_minimum (dist_list : list R) (min_dist : ext) (min_idx : Z)
    : Prop :=
  match min_dist with
  | PosInf => dist_list = [] /\ min_idx = (-1)%Z
  | Fin d =>
      (0 <= min_idx < Z.of_nat (length dist_list))%Z
      /\ dist_list !! Z.to_nat min_idx = Some d
      /\ (forall j dj, dist_list !! j = Some dj -> d <= dj)
      /\ (forall j dj, (j < Z.to_nat min_idx)%nat ->
                       dist_list !! j = Some dj -> d < dj)
  end.

(** Where the look-ahead stops: [t] is the index visited at some offset [k]
    of the window, every earlier offset of the window saw a waypoint nearer
    than [target_dist], and either [k] is the last offset or the waypoint
    at [t] is at least [target_dist] away. *)
Definition stops_at (dist_list : list R) (min_idx len : Z) (target_dist : R)
    (offsets : list Z) (t : Z) : Prop :=
  exists (n : nat) (k : Z),
    offsets !! n = Some k
    /\ t = ((min_idx + k) mod len)%Z
    /\ (forall n' k', (n' < n)%nat -> offsets !! n' = Some k' ->
          exists d, dist_list !! Z.to_nat ((min_idx + k') mod len) = Some d
                    /\ d < target_dist)
    /\ (S n = length offsets
        \/ exists d, dist_list !! Z.to_nat ((min_idx + k) mod len) = Some d
                     /\ d >= target_dist).

(** The outcome of the look-ahead over the window of offsets [5 .. hi - 1]:
    an empty window leaves the start index [t0]; otherwise the scan stops at
    the first offset whose waypoint is at least [target_dist] away, or at
    the last offset of the window. *)
Definition look_ahead (dist_list : list R) (min_idx len : Z) (target_dist : R)
    (hi t0 t : Z) : Prop :=
  ((hi <= 5)%Z -> t = t0)
  /\ ((5 < hi)%Z ->
      exists k : Z,
        (5 <= k < hi)%Z
        /\ t = ((min_idx + k) mod len)%Z
        /\ (forall j : Z, (5 <= j < k)%Z ->
              exists d,
                dist_list !! Z.to_nat ((min_idx + j) mod len) = Some d
                /\ d < target_dist)
        /\ (k = (hi - 1)%Z
            \/ exists d,
                 dist_list !! Z.to_nat ((min_idx + k) mod len) = Some d
                 /\ d >= target_dist)).

(** The distances from the car to the waypoints, in table order. *)
Definition distances (car : point) (waypoints : list Carthing.waypoint)
    : list R :=
  map (fun w => Carthing.get_distance car (Carthing.xy w)) waypoints.

Definition distances2 (car : point) (waypoints : list Carthing2.waypoint)
    : list R :=
  map (fun w => Carthing2.get_distance car (Carthing2.xy w)) waypoints.

(** The absolute difference between the actual steering angle and the
    ideal steering towards the target [(tx, ty)]. *)
Definition steering_error (p : gmap string value) (tx ty : R) : R :=
  Rabs (tele p "steering_angle"
        - ideal_steering (tele p "x") (tele p "y") (tele p "heading") tx ty).

(** The raw value of the speed-versus-steering interaction term. *)
Definition interaction (speed steering : R) : R :=
  if Rge_dec speed 2.5 then 1.0 - Rabs steering / 30.0 * (speed / 4.0)
  else if Rle_dec speed 1.5 then
    1.0 + Rabs steering / 30.0 * (1.0 - speed / 4.0)
  else 1.0 - Rabs steering / 30.0 / 2.0.

(** The example telemetry of the specification: the car sits on waypoint 0,
    heading 0, steering 0, speed 4.0, track width 0.8. *)
Definition on_waypoint_0 (progress : R) : gmap string value :=
  {[ "x" := VFloat 1.17885; "y" := VFloat (-0.02819);
     "heading" := VFloat 0; "steering_angle" := VFloat 0;
     "speed" := VFloat 4.0; "track_width" := VFloat 0.8;
     "progress" := VFloat progress ]}.

(** The same telemetry with the off-track flag, as carthing2.py reads it. *)
Definition on_waypoint_0_flagged (offtrack : bool) (progress : R)
    : gmap string value :=
  <[ "is_offtrack" := VBool offtrack ]> (on_waypoint_0 progress).

(** What [get_distance_list] promises about its result
    [(dist_list, min_dist, min_idx, length)] given the distances [dl] from
    the car to the waypoints in table order. *)
Definition nearest_of (dl : list R) (res : list R * ext * Z * Z) : Prop :=
  exists d idx,
    res = (dl, Fin d, idx, Z.of_nat (length dl))
    /\ (0 <= idx < Z.of_nat (length dl))%Z
    /\ dl !! Z.to_nat idx = Some d
    /\ (forall j dj, dl !! j = Some dj -> d <= dj)
    /\ (forall j, dl !! j = Some d -> (Z.to_nat idx <= j)%nat).

(** The telemetry [score_steering] reads. *)
Definition has_steering_inputs (p : gmap string value) : Prop :=
  is_Some (p !! "x") /\ is_Some (p !! "y")
  /\ is_Some (p !! "heading") /\ is_Some (p !! "steering_angle").

(** A car at the origin heading along the x axis, steering [a] degrees. *)
Definition steering_at (a : R) : gmap string value :=
  {[ "x" := VFloat 0; "y" := VFloat 0; "heading" := VFloat 0;
     "steering_angle" := VFloat a ]}.

(** The first key of [keys], in reading order, that the telemetry lacks. *)
Fixpoint first_missing (p : gmap string value) (keys : list string)
    : option string :=
  match keys with
  | [] => None
  | k :: ks =>
      match p !! k with
      | None => Some k
      | Some _ => first_missing p ks
      end
  end.

(** The example telemetry with a zero track width (and the off-track flag
    that carthing2.py reads). *)
Definition zero_width (offtrack : bool) : gmap string value :=
  <[ "track_width" := VFloat 0 ]> (on_waypoint_0_flagged offtrack 0).

(* ===================================================================== *)
(** * Facts about the Python fragment                                      *)
(* ===================================================================== *)

Section MonadFacts.
Context {S : Type}.
Implicit Types s : S.

Lemma bind_Ok {A B} (c : Py.M S A) (k : A -> Py.M S B) s a s' :
  c s = (Ok a, s') -> bind c k s = k a s'.
Proof. intros H. unfold bind. now rewrite H. Qed.

Lemma bind_Raise {A B} (c : Py.M S A) (k : A -> Py.M S B) s e s' :
  c s = (Raise e, s') -> bind c k s = (Raise e, s').
Proof. intros H. unfold bind. now rewrite H. Qed.

Lemma returns_ret {A} (a : A) s (Q : A -> S -> Prop) :
  Q a s -> returns (ret a) s Q.
Proof. trivial. Qed.

Lemma returns_bind {A B} (c : Py.M S A) (k : A -> Py.M S B) s
    (Q : B -> S -> Prop) :
  returns c s (fun a s' => returns (k a) s' Q) -> returns (bind c k) s Q.
Proof. unfold returns, bind. now destruct (c s) as [[a|e] s']. Qed.

Lemma returns_mono {A} (c : Py.M S A) s (Q Q' : A -> S -> Prop) :
  returns c s Q -> (forall a s', Q a s' -> Q' a s') -> returns c s Q'.
Proof. unfold returns. destruct (c s) as [[a|e] s']; auto. Qed.

Lemma returns_gets {A} (f : S -> A) s (Q : A -> S -> Prop) :
  Q (f s) s -> returns (gets f) s Q.
Proof. trivial. Qed.

Lemma returns_modify (f : S -> S) s (Q : unit -> S -> Prop) :
  Q tt (f s) -> returns (modify f) s Q.
Proof. trivial. Qed.

Lemma returns_run {A} (c : Py.M S A) s a s' (Q : A -> S -> Prop) :
  c s = (Ok a, s') -> Q a s' -> returns c s Q.
Proof. intros E H. unfold returns. now rewrite E. Qed.

Lemma returns_value {A} (c : Py.M S A) s v s0 :
  returns c s (fun a s' => a = v /\ s' = s0) -> c s = (Ok v, s0).
Proof.
  unfold returns. destruct (c s) as [[a|e] s']; [|contradiction].
  now intros [-> ->].
Qed.

Lemma returns_eq {A} (c : Py.M S A) s (Q : A -> S -> Prop) :
  returns c s Q <-> exists a s', c s = (Ok a, s') /\ Q a s'.
Proof.
  unfold returns. destruct (c s) as [[a|e] s']; split.
  - intros H. now exists a, s'.
  - intros (a0 & s0 & E & H). now inversion E; subst.
  - contradiction.
  - intros (a0 & s0 & E & _). discriminate.
Qed.

(** ** Dictionary access *)

Lemma py_item_Some d k v s : d !! k = Some v -> py_item d k s = (Ok v, s).
Proof. intros H. unfold py_item. now rewrite H. Qed.

Lemma py_item_None d k s :
  d !! k = None -> py_item (S:=S) d k s = (Raise (KeyError k), s).
Proof. intros H. unfold py_item. now rewrite H. Qed.

Lemma py_num_Some d k v s : d !! k = Some v -> py_num d k s = (Ok (num v), s).
Proof.
  intros H. unfold py_num. now rewrite (bind_Ok _ _ _ _ _ (py_item_Some _ _ _ _ H)).
Qed.

Lemma py_num_None d k s :
  d !! k = None -> py_num (S:=S) d k s = (Raise (KeyError k), s).
Proof.
  intros H. unfold py_num.
  now rewrite (bind_Raise _ _ _ _ _ (py_item_None _ _ _ H)).
Qed.

Lemma py_num_tele d k s :
  is_Some (d !! k) -> py_num d k s = (Ok (tele d k), s).
Proof.
  intros [v H]. unfold tele. rewrite H. now apply py_num_Some.
Qed.

Lemma returns_py_num d k s (Q : R -> S -> Prop) :
  is_Some (d !! k) -> Q (tele d k) s -> returns (py_num d k) s Q.
Proof. intros H HQ. unfold returns. now rewrite py_num_tele. Qed.

(** ** Division *)

Lemma py_div_nonzero a b s : b <> 0 -> py_div a b s = (Ok (a / b), s).
Proof. intros H. unfold py_div. now destruct (Req_dec_T b 0). Qed.

Lemma py_div_zero a s : py_div (S:=S) a 0 s = (Raise ZeroDivisionError, s).
Proof. unfold py_div. now destruct (Req_dec_T 0 0). Qed.

Lemma returns_py_div a b s (Q : R -> S -> Prop) :
  b <> 0 -> Q (a / b) s -> returns (py_div a b) s Q.
Proof. intros H HQ. unfold returns. now rewrite py_div_nonzero. Qed.

Lemma py_imod_nonzero a b s :
  b <> 0%Z -> py_imod a b s = (Ok (a mod b)%Z, s).
Proof. intros H. unfold py_imod. now destruct (Z.eq_dec b 0%Z). Qed.

(** ** List indexing *)

Lemma py_index_nat {A} (l : list A) (i : nat) a s :
  l !! i = Some a -> py_index l (Z.of_nat i) s = (Ok a, s).
Proof.
  intros H. unfold py_index.
  destruct (Z_lt_dec (Z.of_nat i) 0%Z) as [?|_]; [lia|].
  destruct (Z_lt_dec (Z.of_nat i) 0%Z) as [?|_]; [lia|].
  now rewrite Nat2Z.id, H.
Qed.

Lemma py_index_in_range {A} (l : list A) (i : Z) s :
  (0 <= i < Z.of_nat (length l))%Z ->
  exists a, l !! Z.to_nat i = Some a /\ py_index l i s = (Ok a, s).
Proof.
  intros Hi.
  destruct (lookup_lt_is_Some_2 l (Z.to_nat i)) as [a Ha]; [lia|].
  exists a. split; [exact Ha|].
  rewrite <- (Z2Nat.id i) by lia. now apply py_index_nat.
Qed.

End MonadFacts.

Section ArithFacts.

Lemma py_max_Rmax a b : py_max a b = Rmax a b.
Proof.
  unfold py_max, Rmax. destruct (Rlt_dec a b), (Rle_dec a b); lra.
Qed.

(** The clamp [max(min(x, hi), lo)] lands in [[lo, hi]]. *)
Lemma clamp_bounds x lo hi :
  lo <= hi -> lo <= py_max (py_min x hi) lo <= hi.
Proof.
  intros H. unfold py_max, py_min.
  destruct (Rlt_dec hi x), (Rlt_dec _ lo); lra.
Qed.

(** The same clamp written [max(lo, min(x, hi))]. *)
Lemma clamp_bounds' x lo hi :
  lo <= hi -> lo <= py_max lo (py_min x hi) <= hi.
Proof.
  intros H. unfold py_max, py_min.
  destruct (Rlt_dec hi x), (Rlt_dec lo _); lra.
Qed.

Lemma clamp_inside x lo hi :
  lo <= x <= hi -> py_max (py_min x hi) lo = x.
Proof.
  intros H. unfold py_max, py_min.
  destruct (Rlt_dec hi x), (Rlt_dec _ lo); lra.
Qed.

Lemma clamp_above x lo hi :
  lo <= hi -> hi <= x -> py_max (py_min x hi) lo = hi.
Proof.
  intros H1 H2. unfold py_max, py_min.
  destruct (Rlt_dec hi x), (Rlt_dec _ lo); lra.
Qed.

Lemma clamp_monotone x y lo hi :
  x <= y -> py_max (py_min x hi) lo <= py_max (py_min y hi) lo.
Proof.
  intros H. unfold py_max, py_min.
  destruct (Rlt_dec hi x), (Rlt_dec hi y);
    repeat match goal with
           | |- context [Rlt_dec ?a ?b] => destruct (Rlt_dec a b)
           end; lra.
Qed.

(** The floor of a real, characterised. *)
Lemma Int_part_unique (r : R) (z : Z) :
  IZR z <= r < IZR z + 1 -> Int_part r = z.
Proof. intros H. symmetry. apply Int_part_spec. lra. Qed.

(** [int(n * 0.1)] is the integer quotient by ten. *)
Lemma py_int_tenth (n : nat) :
  py_int (IZR (Z.of_nat n) * 0.1) = Z.of_nat (n / 10).
Proof.
  unfold py_int.
  assert (0 <= IZR (Z.of_nat n)) by (apply IZR_le; lia).
  destruct (Rlt_dec _ 0) as [?|_]; [lra|].
  apply Int_part_unique.
  pose proof (Nat.div_mod_eq n 10) as E.
  pose proof (Nat.mod_upper_bound n 10 ltac:(lia)) as U.
  assert (En : Z.of_nat n = (10 * Z.of_nat (n / 10) + Z.of_nat (n mod 10))%Z)
    by lia.
  rewrite En, plus_IZR, mult_IZR.
  assert (0 <= IZR (Z.of_nat (n mod 10)) <= 9) as B.
  { split; apply IZR_le; lia. }
  lra.
Qed.

(** The remainder [a % b] for a positive divisor lies in [[0, b)]. *)
Lemma fmod_range a b :
  0 < b -> 0 <= a - IZR (Int_part (a / b)) * b < b.
Proof.
  intros Hb. destruct (base_Int_part (a / b)) as [L U].
  set (q := IZR (Int_part (a / b))) in *.
  assert (E : a = a / b * b) by (field; lra).
  set (r := a / b) in *. clearbody r q.
  rewrite E. split; nra.
Qed.

Lemma py_fmod_pos {S} a b (s : S) :
  0 < b -> py_fmod a b s = (Ok (a - IZR (Int_part (a / b)) * b), s).
Proof.
  intros H. unfold py_fmod. destruct (Req_dec_T b 0); [lra|reflexivity].
Qed.

Lemma py_range_empty a b : (b <= a)%Z -> py_range a b = [].
Proof.
  intros H. unfold py_range. now replace (Z.to_nat (b - a)) with 0%nat by lia.
Qed.

Lemma py_range_length a b : length (py_range a b) = Z.to_nat (b - a).
Proof. unfold py_range. now rewrite length_map, length_seq. Qed.

Lemma py_range_lookup a b (n : nat) k :
  py_range a b !! n = Some k <->
  k = (a + Z.of_nat n)%Z /\ (Z.of_nat n < b - a)%Z.
Proof.
  unfold py_range. rewrite list_lookup_fmap. split.
  - intros H. destruct (seq 0 (Z.to_nat (b - a)) !! n) as [m|] eqn:E;
      simpl in H; [|discriminate].
    apply lookup_seq in E as [-> Hn]. inversion H. lia.
  - intros [-> Hn].
    rewrite (proj2 (lookup_seq 0 (Z.to_nat (b - a)) n n)); [reflexivity|].
    lia.
Qed.

Lemma math_sqrt_nonneg x : 0 <= math_sqrt x.
Proof. apply sqrt_pos. Qed.

(** The window of [draw_ray] on tables of 120 and 121 waypoints. *)
Example py_range_5_12 : py_range 5 12 = [5; 6; 7; 8; 9; 10; 11]%Z.
Proof. reflexivity. Qed.

Example py_int_tenth_120 : py_int (IZR (Z.of_nat 120) * 0.1) = 12%Z.
Proof. now rewrite py_int_tenth. Qed.

Example py_int_tenth_121 : py_int (IZR (Z.of_nat 121) * 0.1) = 12%Z.
Proof. now rewrite py_int_tenth. Qed.

Example py_range_small_table : py_range 5 (Z.of_nat (59 / 10)) = [].
Proof. reflexivity. Qed.

Example py_enumerate_three :
  py_enumerate ["a"; "b"; "c"] = [(0, "a"); (1, "b"); (2, "c")]%Z.
Proof. reflexivity. Qed.

End ArithFacts.

(* ===================================================================== *)
(** * Angles                                                               *)
(* ===================================================================== *)

Section AngleFacts.

Lemma two_pi_pos : 0 < 2.0 * math_pi.
Proof. unfold math_pi. pose proof PI_RGT_0. lra. Qed.

Lemma degrees_scale d : math_degrees d = 180 * (d * / PI).
Proof. unfold math_degrees, math_pi. field. apply PI_neq0. Qed.

Lemma degrees_bounds d lo hi :
  lo * PI <= d < hi * PI -> 180 * lo <= math_degrees d < 180 * hi.
Proof.
  intros [L U]. rewrite degrees_scale.
  pose proof PI_RGT_0 as HP.
  assert (HI : 0 < / PI) by now apply Rinv_0_lt_compat.
  assert (L' : lo * PI * / PI <= d * / PI)
    by (apply Rmult_le_compat_r; lra).
  assert (U' : d * / PI < hi * PI * / PI)
    by (apply Rmult_lt_compat_r; lra).
  replace (lo * PI * / PI) with lo in L' by (field; lra).
  replace (hi * PI * / PI) with hi in U' by (field; lra).
  lra.
Qed.

(** [angle_difference] lands in [[-180, 180)]: the lower end is reached,
    the upper end is not. *)
Lemma angle_difference_range a1 a2 :
  -180 <= angle_difference a1 a2 < 180.
Proof.
  unfold angle_difference.
  pose proof (fmod_range (a1 - a2) (2.0 * PI) two_pi_pos) as [L U].
  set (diff := a1 - a2 - _) in *. clearbody diff.
  pose proof PI_RGT_0 as HP.
  destruct (Rge_dec diff PI) as [G|G].
  - pose proof (degrees_bounds (diff - 2.0 * PI) (-1) 1). lra.
  - pose proof (degrees_bounds diff (-1) 1). lra.
Qed.

(** [angle_difference] differs from [a1 - a2] (in degrees) by a whole
    number of turns. *)
Lemma angle_difference_turns a1 a2 :
  exists k : Z,
    angle_difference a1 a2 = math_degrees (a1 - a2) - 360 * IZR k.
Proof.
  unfold angle_difference.
  set (q := Int_part ((a1 - a2) / (2.0 * PI))).
  destruct (Rge_dec _ PI) as [G|G].
  - exists (q + 1)%Z. rewrite plus_IZR, !degrees_scale.
    replace 2.0 with 2 by lra. field. apply PI_neq0.
  - exists q. rewrite !degrees_scale.
    replace 2.0 with 2 by lra. field. apply PI_neq0.
Qed.

(** Half a turn comes out as -180, not as 180. *)
Lemma angle_difference_half_turn : angle_difference PI 0 = -180.
Proof.
  unfold angle_difference.
  pose proof PI_RGT_0 as HP.
  assert (Q : Int_part ((PI - 0) / (2.0 * PI)) = 0%Z).
  { apply Int_part_unique.
    replace ((PI - 0) / (2.0 * PI)) with (1 / 2)
      by (replace 2.0 with 2 by lra; field; lra).
    lra. }
  rewrite Q.
  destruct (Rge_dec _ PI) as [G|G]; [|lra].
  rewrite degrees_scale. replace 2.0 with 2 by lra. field. lra.
Qed.

Lemma get_difference_degrees_eq a1 a2 (g : Carthing.globals) :
  Carthing.get_difference_degrees a1 a2 g = (Ok (angle_difference a1 a2), g).
Proof.
  unfold Carthing.get_difference_degrees.
  rewrite (bind_Ok _ _ _ _ _ (py_fmod_pos _ _ g two_pi_pos)).
  reflexivity.
Qed.

Lemma get_difference_degrees2_eq a1 a2 (g : Carthing2.globals) :
  Carthing2.get_difference_degrees a1 a2 g = (Ok (angle_difference a1 a2), g).
Proof.
  unfold Carthing2.get_difference_degrees.
  rewrite (bind_Ok _ _ _ _ _ (py_fmod_pos _ _ g two_pi_pos)).
  reflexivity.
Qed.

Lemma ideal_steering_range x y h tx ty :
  -30 <= ideal_steering x y h tx ty <= 30.
Proof.
  unfold ideal_steering, py_max, py_min.
  destruct (Rlt_dec _ 30), (Rlt_dec (-30) _); lra.
Qed.

End AngleFacts.

(* ===================================================================== *)
(** * The nearest-waypoint scan                                            *)
(* ===================================================================== *)

Section Scan.
(** The two modules have the same loop up to the order of two independent
    statements; the facts are proved once for any step function that
    satisfies the loop body's equation. *)
Context {W : Type} (dist : W -> R).
Variable step : list R * ext * Z -> Z * W -> list R * ext * Z.
Hypothesis step_eq : forall dl m idx i w,
  step (dl, m, idx) (i, w) =
    (dl ++ [dist w],
     if lt_ext (dist w) m then Fin (dist w) else m,
     if lt_ext (dist w) m then i else idx).

Lemma first_minimum_step dl m idx w :
  first_minimum dl m idx ->
  first_minimum (dl ++ [dist w])
    (if lt_ext (dist w) m then Fin (dist w) else m)
    (if lt_ext (dist w) m then Z.of_nat (length dl) else idx).
Proof.
  intros Inv. destruct m as [d|]; simpl in *.
  - destruct Inv as (Hr & Hd & Hle & Hlt).
    destruct (Rlt_dec (dist w) d) as [L|L]; simpl.
    + rewrite length_app, Nat2Z.id; simpl. repeat split; try lia.
      * now rewrite lookup_app_r, Nat.sub_diag by lia.
      * intros j dj Hj. apply lookup_app_Some in Hj as [Hj|[_ Hj]].
        -- specialize (Hle _ _ Hj). lra.
        -- destruct (j - length dl)%nat; simpl in Hj; [|discriminate].
           inversion Hj; lra.
      * intros j dj Hlj Hj. rewrite lookup_app_l in Hj by lia.
        specialize (Hle _ _ Hj). lra.
    + rewrite length_app; simpl. repeat split; try lia.
      * rewrite lookup_app_l by lia. exact Hd.
      * intros j dj Hj. apply lookup_app_Some in Hj as [Hj|[_ Hj]].
        -- eauto.
        -- destruct (j - length dl)%nat; simpl in Hj; [|discriminate].
           inversion Hj; lra.
      * intros j dj Hlj Hj. rewrite lookup_app_l in Hj by lia. eauto.
  - destruct Inv as [-> ->]. simpl.
    split; [lia|]. split; [reflexivity|]. split.
    + intros [|j] dj Hj; simpl in Hj; [inversion Hj; lra|discriminate].
    + intros j dj Hlj. simpl in Hlj. lia.
Qed.

Lemma scan_fold (l : list W) : forall dl m idx,
  first_minimum dl m idx ->
  exists m' idx',
    fold_left step (enumerate_from (Z.of_nat (length dl)) l) (dl, m, idx)
      = (dl ++ map dist l, m', idx')
    /\ first_minimum (dl ++ map dist l) m' idx'.
Proof.
  induction l as [|w l IH]; intros dl m idx Inv; simpl.
  - rewrite app_nil_r. eauto.
  - rewrite step_eq.
    pose proof (first_minimum_step dl m idx w Inv) as Inv'.
    specialize (IH _ _ _ Inv').
    rewrite length_app in IH; simpl in IH.
    replace (Z.of_nat (length dl + 1)) with (Z.of_nat (length dl) + 1)%Z
      in IH by lia.
    destruct IH as (m' & idx' & E & Inv'').
    rewrite <- app_assoc in E, Inv''. simpl in E, Inv''. eauto.
Qed.

(** The outcome of the whole scan. *)
Lemma scan_result (l : list W) :
  exists m idx,
    fold_left step (py_enumerate l) ([], PosInf, (-1)%Z)
      = (map dist l, m, idx)
    /\ first_minimum (map dist l) m idx.
Proof.
  destruct (scan_fold l [] PosInf (-1)%Z) as (m & idx & E & Inv).
  - simpl. auto.
  - exists m, idx. auto.
Qed.

End Scan.

Section DistanceList.

Lemma scan_step_eq car dl m idx i w :
  Carthing.scan_step car (dl, m, idx) (i, w) =
    (dl ++ [Carthing.get_distance car (Carthing.xy w)],
     if lt_ext (Carthing.get_distance car (Carthing.xy w)) m
     then Fin (Carthing.get_distance car (Carthing.xy w)) else m,
     if lt_ext (Carthing.get_distance car (Carthing.xy w)) m
     then i else idx).
Proof. unfold Carthing.scan_step. now destruct (lt_ext _ m). Qed.

Lemma scan_step2_eq car dl m idx i w :
  Carthing2.scan_step car (dl, m, idx) (i, w) =
    (dl ++ [Carthing2.get_distance car (Carthing2.xy w)],
     if lt_ext (Carthing2.get_distance car (Carthing2.xy w)) m
     then Fin (Carthing2.get_distance car (Carthing2.xy w)) else m,
     if lt_ext (Carthing2.get_distance car (Carthing2.xy w)) m
     then i else idx).
Proof. unfold Carthing2.scan_step. now destruct (lt_ext _ m). Qed.

Lemma get_distance_list_eq car wps :
  exists m idx,
    Carthing.get_distance_list car wps =
      (map (fun w => Carthing.get_distance car (Carthing.xy w)) wps,
       m, idx, Z.of_nat (length wps))
    /\ first_minimum
         (map (fun w => Carthing.get_distance car (Carthing.xy w)) wps)
         m idx.
Proof.
  destruct (scan_result _ _ (scan_step_eq car) wps) as (m & idx & E & Inv).
  exists m, idx. unfold Carthing.get_distance_list. now rewrite E.
Qed.

Lemma get_distance_list2_eq car wps :
  exists m idx,
    Carthing2.get_distance_list car wps =
      (map (fun w => Carthing2.get_distance car (Carthing2.xy w)) wps,
       m, idx, Z.of_nat (length wps))
    /\ first_minimum
         (map (fun w => Carthing2.get_distance car (Carthing2.xy w)) wps)
         m idx.
Proof.
  destruct (scan_result _ _ (scan_step2_eq car) wps) as (m & idx & E & Inv).
  exists m, idx. unfold Carthing2.get_distance_list. now rewrite E.
Qed.

(** On a non-empty list the minimum is finite. *)
Lemma first_minimum_nonempty dl m idx :
  dl <> [] -> first_minimum dl m idx -> exists d, m = Fin d.
Proof.
  intros Hne Inv. destruct m as [d|]; [eauto|].
  destruct Inv as [-> _]. congruence.
Qed.

Lemma get_distance_nonneg car w : 0 <= Carthing.get_distance car w.
Proof. apply math_sqrt_nonneg. Qed.

Lemma get_distance2_nonneg car w : 0 <= Carthing2.get_distance car w.
Proof. apply math_sqrt_nonneg. Qed.

End DistanceList.

(* ===================================================================== *)
(** * The look-ahead scan of [draw_ray]                                    *)
(* ===================================================================== *)

Section Ray.
Context {S : Type}.
Variable loop : list R -> Z -> Z -> R -> list Z -> Z -> Py.M S Z.
Hypothesis loop_nil : forall dl mi len td t, loop dl mi len td [] t = ret t.
Hypothesis loop_cons : forall dl mi len td i rest t,
  loop dl mi len td (i :: rest) t =
    (index <- py_imod (mi + i) len;;
     d <- py_index dl index;;
     if Rge_dec d td then ret index else loop dl mi len td rest index).

Lemma ray_loop_stops dl mi len td (s : S) :
  (0 < len)%Z -> Z.of_nat (length dl) = len ->
  forall offsets t0,
    returns (loop dl mi len td offsets t0) s (fun t s' =>
      s' = s
      /\ (0 <= t0 < len -> 0 <= t < len)%Z
      /\ (offsets = [] -> t = t0)
      /\ (offsets <> [] -> stops_at dl mi len td offsets t)).
Proof.
  intros Hlen Hdl. induction offsets as [|i rest IH]; intros t0.
  - rewrite loop_nil. apply returns_ret.
    split; [reflexivity|]. split; [tauto|]. split; [reflexivity|congruence].
  - rewrite loop_cons.
    pose proof (Z.mod_pos_bound (mi + i) len Hlen) as Hidx.
    apply returns_bind.
    eapply returns_run; [apply py_imod_nonzero; lia|].
    assert (Hin : (0 <= (mi + i) mod len < Z.of_nat (length dl))%Z) by lia.
    destruct (py_index_in_range dl ((mi + i) mod len) s Hin)
      as (d & Hd & E).
    apply returns_bind. eapply returns_run; [exact E|].
    destruct (Rge_dec d td) as [G|G].
    + apply returns_ret.
      split; [reflexivity|]. split; [lia|]. split; [congruence|].
      intros _. exists 0%nat, i. simpl.
      split; [reflexivity|]. split; [reflexivity|]. split; [intros; lia|].
      right. eauto.
    + eapply returns_mono; [apply IH|]. simpl.
      intros t s' (-> & Hr & Hnil & Hcons).
      split; [reflexivity|]. split; [lia|]. split; [congruence|].
      intros _. destruct rest as [|i' rest'].
      * rewrite (Hnil eq_refl). exists 0%nat, i. simpl.
        split; [reflexivity|]. split; [reflexivity|]. split; [intros; lia|].
        now left.
      * destruct (Hcons ltac:(congruence)) as (n & k & Hk & Ht & Hb & Ha).
        exists (Datatypes.S n), k.
        split; [exact Hk|]. split; [exact Ht|]. split.
        -- intros [|n'] k' Hn' Hk'; simpl in Hk'.
           ++ inversion Hk'; subst. exists d. split; [exact Hd|lra].
           ++ apply (Hb n' k'); [lia|exact Hk'].
        -- destruct Ha as [Ha|Ha]; [left; simpl in *; lia|now right].
Qed.

(** The window [range(5, int(len * 0.1))] of [draw_ray]. *)
Lemma ray_loop_window dl mi td t0 (s : S) :
  returns
    (loop dl mi (Z.of_nat (length dl)) td
       (py_range 5 (py_int (IZR (Z.of_nat (length dl)) * 0.1))) t0) s
    (fun t s' =>
       s' = s
       /\ look_ahead dl mi (Z.of_nat (length dl)) td
            (Z.of_nat (length dl / 10)) t0 t
       /\ ((0 <= t0 < Z.of_nat (length dl))%Z ->
           (0 <= t < Z.of_nat (length dl))%Z)).
Proof.
  rewrite py_int_tenth. set (n := length dl). set (hi := Z.of_nat (n / 10)).
  destruct (Z_le_gt_dec hi 5) as [Hhi|Hhi].
  - rewrite py_range_empty by exact Hhi. rewrite loop_nil.
    apply returns_ret. split; [reflexivity|]. split; [|tauto].
    split; [reflexivity|]. intros K; lia.
  - assert (Hn : (0 < Z.of_nat n)%Z).
    { destruct n; [|lia]. subst hi. simpl in Hhi. lia. }
    eapply returns_mono;
      [apply (ray_loop_stops dl mi (Z.of_nat n) td s Hn eq_refl)|].
    simpl. intros t s' (-> & Hr & _ & Hst).
    split; [reflexivity|]. split; [|exact Hr].
    split; [intros K; lia|]. intros _.
    destruct Hst as (m & k & Hk & Ht & Hb & Ha).
    { intros E. apply (f_equal (@length Z)) in E.
      rewrite py_range_length in E. simpl in E. lia. }
    apply py_range_lookup in Hk as [-> Hm].
    exists (5 + Z.of_nat m)%Z.
    split; [lia|]. split; [exact Ht|]. split.
    + intros j Hj.
      apply (Hb (Z.to_nat (j - 5)) j); [lia|].
      apply py_range_lookup. lia.
    + destruct Ha as [Ha|Ha]; [left|now right].
      rewrite py_range_length in Ha. lia.
Qed.

End Ray.

Section DrawRay.

Lemma first_minimum_in_range dl m idx :
  dl <> [] -> first_minimum dl m idx ->
  (0 <= idx < Z.of_nat (length dl))%Z.
Proof.
  intros Hne Inv. destruct m as [d|]; simpl in Inv.
  - tauto.
  - destruct Inv as [-> _]. congruence.
Qed.

Lemma draw_ray_returns p wps sight (g : Carthing.globals) :
  is_Some (p !! "x") -> is_Some (p !! "y") ->
  is_Some (p !! "track_width") ->
  let dl := distances (tele p "x", tele p "y") wps in
  let n := Z.of_nat (length wps) in
  exists m idx,
    Carthing.get_distance_list (tele p "x", tele p "y") wps = (dl, m, idx, n)
    /\ first_minimum dl m idx
    /\ returns (Carthing.draw_ray p wps sight) g (fun ti g' =>
         g' = g /\ snd ti = idx
         /\ look_ahead dl idx n (tele p "track_width" * sight)
              (Z.of_nat (length wps / 10)) idx (fst ti)
         /\ (wps <> [] -> (0 <= fst ti < n)%Z /\ (0 <= idx < n)%Z)).
Proof.
  intros Hx Hy Hw dl n.
  destruct (get_distance_list_eq (tele p "x", tele p "y") wps)
    as (m & idx & E & Inv).
  exists m, idx. split; [exact E|]. split; [exact Inv|].
  unfold Carthing.draw_ray.
  apply returns_bind, returns_py_num; [exact Hx|].
  apply returns_bind, returns_py_num; [exact Hy|].
  apply returns_bind, returns_py_num; [exact Hw|].
  rewrite E. fold dl.
  assert (Hlen : length wps = length dl)
    by (unfold dl, distances; now rewrite length_map).
  subst n. rewrite Hlen.
  apply returns_bind. eapply returns_mono.
  { apply (ray_loop_window Carthing.ray_loop); reflexivity. }
  simpl. intros t g' (-> & Hla & Hr). apply returns_ret. simpl.
  split; [reflexivity|]. split; [reflexivity|]. split; [exact Hla|].
  intros Hne.
  assert (Hidx : (0 <= idx < Z.of_nat (length dl))%Z).
  { apply (first_minimum_in_range dl m idx); [|exact Inv].
    intros K. apply Hne. destruct wps; [reflexivity|discriminate]. }
  split; [apply Hr|]; exact Hidx.
Qed.

Lemma draw_ray2_returns p wps sight (g : Carthing2.globals) :
  is_Some (p !! "x") -> is_Some (p !! "y") ->
  is_Some (p !! "track_width") ->
  let dl := distances2 (tele p "x", tele p "y") wps in
  let n := Z.of_nat (length wps) in
  exists m idx,
    Carthing2.get_distance_list (tele p "x", tele p "y") wps
      = (dl, m, idx, n)
    /\ first_minimum dl m idx
    /\ returns (Carthing2.draw_ray p wps sight) g (fun ti g' =>
         g' = g /\ snd ti = idx
         /\ look_ahead dl idx n (tele p "track_width" * sight)
              (Z.of_nat (length wps / 10)) idx (fst ti)
         /\ (wps <> [] -> (0 <= fst ti < n)%Z /\ (0 <= idx < n)%Z)).
Proof.
  intros Hx Hy Hw dl n.
  destruct (get_distance_list2_eq (tele p "x", tele p "y") wps)
    as (m & idx & E & Inv).
  exists m, idx. split; [exact E|]. split; [exact Inv|].
  unfold Carthing2.draw_ray.
  apply returns_bind, returns_py_num; [exact Hx|].
  apply returns_bind, returns_py_num; [exact Hy|].
  apply returns_bind, returns_py_num; [exact Hw|].
  rewrite E. fold dl.
  assert (Hlen : length wps = length dl)
    by (unfold dl, distances2; now rewrite length_map).
  subst n. rewrite Hlen.
  apply returns_bind. eapply returns_mono.
  { apply (ray_loop_window Carthing2.ray_loop); reflexivity. }
  simpl. intros t g' (-> & Hla & Hr). apply returns_ret. simpl.
  split; [reflexivity|]. split; [reflexivity|]. split; [exact Hla|].
  intros Hne.
  assert (Hidx : (0 <= idx < Z.of_nat (length dl))%Z).
  { apply (first_minimum_in_range dl m idx); [|exact Inv].
    intros K. apply Hne. destruct wps; [reflexivity|discriminate]. }
  split; [apply Hr|]; exact Hidx.
Qed.

End DrawRay.

(* ===================================================================== *)
(** * The sub-scores of carthing.py                                        *)
(* ===================================================================== *)

(** One step of symbolic execution of a computation that cannot fail. *)
Ltac mstep :=
  lazymatch goal with
  | |- returns (bind _ _) _ _ => apply returns_bind
  | |- returns (py_num _ _) _ _ => apply returns_py_num; [assumption|]
  | |- returns (gets _) _ _ => apply returns_gets
  | |- returns (modify _) _ _ => apply returns_modify
  | |- returns (ret _) _ _ => apply returns_ret
  | |- returns (py_div _ _) _ _ => apply returns_py_div; [lra|]
  end.

Section Scores.
Variable p : gmap string value.

Lemma score_steering_value g t :
  is_Some (p !! "x") -> is_Some (p !! "y") ->
  is_Some (p !! "heading") -> is_Some (p !! "steering_angle") ->
  let d := steering_error p (Carthing.wp_x t) (Carthing.wp_y t) in
  Carthing.score_steering p t g =
    (Ok (py_max
           (py_min (if Rgt_dec d 30 then 0.001 else 1.001 - d / 30)
                   (Carthing.reward_max g))
           (Carthing.reward_min g)), g).
Proof.
  intros Hx Hy Hh Hs d. apply returns_value.
  unfold Carthing.score_steering. do 4 (mstep; mstep).
  mstep. eapply returns_run; [apply get_difference_degrees_eq|].
  cbn [fst snd].
  fold (ideal_steering (tele p "x") (tele p "y") (tele p "heading")
          (Carthing.wp_x t) (Carthing.wp_y t)).
  fold (steering_error p (Carthing.wp_x t) (Carthing.wp_y t)). fold d.
  mstep. destruct (Rgt_dec d 30); repeat mstep; auto.
Qed.

Lemma score_speed_value g t :
  is_Some (p !! "speed") ->
  Carthing.score_speed p t g =
    (Ok (py_max
           (py_min (1.001 - Rabs (tele p "speed" - Carthing.wp_speed t) / 3)
                   (Carthing.reward_max g))
           (Carthing.reward_min g)), g).
Proof.
  intros Hs. apply returns_value.
  unfold Carthing.score_speed. repeat mstep. auto.
Qed.

Lemma score_speed_steering_value g :
  is_Some (p !! "speed") -> is_Some (p !! "steering_angle") ->
  Carthing.score_speed_steering p g =
    (Ok (py_max (Carthing.reward_min g)
           (py_min (interaction (tele p "speed") (tele p "steering_angle"))
                   (Carthing.reward_max g))), g).
Proof.
  intros Hs Ha. apply returns_value.
  unfold Carthing.score_speed_steering, interaction.
  do 5 mstep. do 4 mstep.
  destruct (Rge_dec _ 2.5); [|destruct (Rle_dec _ 1.5)]; repeat mstep; auto.
Qed.

Lemma score_center_value g t :
  is_Some (p !! "track_width") -> is_Some (p !! "x") ->
  is_Some (p !! "y") -> tele p "track_width" <> 0 ->
  let dist :=
    Carthing.get_distance (tele p "x", tele p "y") (Carthing.xy t) in
  Carthing.score_center p t g =
    (Ok (py_max
           (py_min (1.001 - Rabs (tele p "track_width" - dist)
                             / tele p "track_width")
                   (Carthing.reward_max g))
           (Carthing.reward_min g)), g).
Proof.
  intros Hw Hx Hy Hnz dist. apply returns_value.
  unfold Carthing.score_center. do 6 mstep.
  mstep. apply returns_py_div; [exact Hnz|]. repeat mstep. auto.
Qed.

(** With a zero track width the division in [score_center] raises. *)
Lemma score_center_zero_width g t :
  is_Some (p !! "track_width") -> is_Some (p !! "x") ->
  is_Some (p !! "y") -> tele p "track_width" = 0 ->
  Carthing.score_center p t g = (Raise ZeroDivisionError, g).
Proof.
  intros Hw Hx Hy Hz. unfold Carthing.score_center.
  rewrite (bind_Ok _ _ _ _ _ (py_num_tele _ _ _ Hw)).
  rewrite (bind_Ok _ _ _ _ _ (py_num_tele _ _ _ Hx)).
  rewrite (bind_Ok _ _ _ _ _ (py_num_tele _ _ _ Hy)).
  rewrite Hz. apply bind_Raise, py_div_zero.
Qed.

Lemma score_progress_value g :
  is_Some (p !! "progress") ->
  Carthing.score_progress p g =
    (Ok (py_max ((tele p "progress" - Carthing.last_progress g)
                 * Carthing.reward_max g)
                (Carthing.reward_min g)),
     Carthing.set_last_progress (tele p "progress") g).
Proof.
  intros Hp. apply returns_value.
  unfold Carthing.score_progress. repeat mstep. auto.
Qed.

Lemma racing_track_length : length Carthing.get_racing_track = 120%nat.
Proof. reflexivity. Qed.

(** On valid telemetry with a non-zero track width [reward_function]
    returns the sum of the five sub-scores, taken at a target and a nearest
    waypoint of the table, and stores the progress. *)
Lemma reward_function_value g :
  has_required p -> tele p "track_width" <> 0 ->
  exists target nearest,
    In target Carthing.get_racing_track
    /\ In nearest Carthing.get_racing_track
    /\ returns (Carthing.reward_function p) g (fun r g' =>
         g' = Carthing.set_last_progress (tele p "progress") g
         /\ exists s1 s2 s3 s4 s5,
              Carthing.score_steering p target g = (Ok s1, g)
              /\ Carthing.score_speed p nearest g = (Ok s2, g)
              /\ Carthing.score_center p nearest g = (Ok s3, g)
              /\ Carthing.score_progress p g = (Ok s4, g')
              /\ Carthing.score_speed_steering p g' = (Ok s5, g')
              /\ r = 0.0 + s1 + s2 + s3 + s4 + s5).
Proof.
  intros Hreq Hnz.
  assert (Hx : is_Some (p !! "x")) by (apply Hreq; simpl; tauto).
  assert (Hy : is_Some (p !! "y")) by (apply Hreq; simpl; tauto).
  assert (Hh : is_Some (p !! "heading")) by (apply Hreq; simpl; tauto).
  assert (Ha : is_Some (p !! "steering_angle")) by (apply Hreq; simpl; tauto).
  assert (Hs : is_Some (p !! "speed")) by (apply Hreq; simpl; tauto).
  assert (Hw : is_Some (p !! "track_width")) by (apply Hreq; simpl; tauto).
  assert (Hp : is_Some (p !! "progress")) by (apply Hreq; simpl; tauto).
  set (sight := if Rlt_dec (tele p "y")
                     ((6 - -7) / (-6 - 7) * tele p "x" + -7
                      - (6 - -7) / (-6 - 7) * 7)
                then 0.25 else 0.5).
  destruct (draw_ray_returns p Carthing.get_racing_track sight g Hx Hy Hw)
    as (m & idx & _ & _ & Hray).
  apply returns_eq in Hray as ([t mi] & g0 & Eray & -> & Hmi & _ & Hrange).
  simpl in Hmi. subst mi.
  destruct Hrange as [Ht Hidx]; [discriminate|]. simpl in Ht.
  destruct (py_index_in_range Carthing.get_racing_track t g Ht)
    as (target & Htl & Et).
  destruct (py_index_in_range Carthing.get_racing_track idx g Hidx)
    as (nearest & Hnl & En).
  exists target, nearest.
  split; [apply list_elem_of_In, list_elem_of_lookup; eauto|].
  split; [apply list_elem_of_In, list_elem_of_lookup; eauto|].
  unfold Carthing.reward_function. cbv zeta. cbn [fst snd].
  mstep. mstep. mstep. mstep. mstep. mstep.
  mstep. eapply returns_run; [exact Eray|]. cbv beta iota.
  mstep. eapply returns_run; [exact Et|].
  mstep. eapply returns_run; [now apply score_steering_value|].
  mstep. eapply returns_run; [exact En|].
  mstep. eapply returns_run; [now apply score_speed_value|].
  mstep. eapply returns_run; [exact En|].
  mstep. eapply returns_run; [now apply score_center_value|].
  mstep. eapply returns_run; [now apply score_progress_value|].
  mstep. eapply returns_run; [now apply score_speed_steering_value|].
  mstep. split; [reflexivity|].
  do 5 eexists.
  split; [now apply score_steering_value|].
  split; [now apply score_speed_value|].
  split; [now apply score_center_value|].
  split; [now apply score_progress_value|].
  split; [now apply score_speed_steering_value|].
  reflexivity.
Qed.

End Scores.

(* ===================================================================== *)
(** * The sub-scores of carthing2.py                                       *)
(* ===================================================================== *)

Section Scores2.
Variable p : gmap string value.

Lemma score_steering2_value g t :
  is_Some (p !! "x") -> is_Some (p !! "y") ->
  is_Some (p !! "heading") -> is_Some (p !! "steering_angle") ->
  let d := steering_error p (Carthing2.wp_x t) (Carthing2.wp_y t) in
  Carthing2.score_steering p t g =
    (Ok (py_max
           (py_min ((1.1 - d / 30.0) * Carthing2.reward_max g)
                   (Carthing2.reward_max g))
           (Carthing2.reward_min g)), g).
Proof.
  intros Hx Hy Hh Hs d. apply returns_value.
  unfold Carthing2.score_steering. do 4 (mstep; mstep).
  mstep. eapply returns_run; [apply get_difference_degrees2_eq|].
  cbn [fst snd].
  fold (ideal_steering (tele p "x") (tele p "y") (tele p "heading")
          (Carthing2.wp_x t) (Carthing2.wp_y t)).
  fold (steering_error p (Carthing2.wp_x t) (Carthing2.wp_y t)). fold d.
  repeat mstep. auto.
Qed.

Lemma score_speed2_value g :
  is_Some (p !! "speed") ->
  Carthing2.score_speed p g =
    (Ok (py_max
           (py_min ((0.1 + (tele p "speed" - 1.0) / 3.0)
                    * Carthing2.reward_max g)
                   (Carthing2.reward_max g))
           (Carthing2.reward_min g)), g).
Proof.
  intros Hs. apply returns_value.
  unfold Carthing2.score_speed. repeat mstep. auto.
Qed.

Lemma score_center2_value g t :
  is_Some (p !! "x") -> is_Some (p !! "y") ->
  Carthing2.score_center p t g =
    (Ok (py_max
           (py_min (Carthing2.reward_max g
                    - Carthing2.get_distance (tele p "x", tele p "y")
                        (Carthing2.xy t))
                   (Carthing2.reward_max g))
           (Carthing2.reward_min g)), g).
Proof.
  intros Hx Hy. apply returns_value.
  unfold Carthing2.score_center. repeat mstep. auto.
Qed.

Lemma score_progress2_value g :
  is_Some (p !! "progress") ->
  Carthing2.score_progress p g =
    (Ok (py_max
           (py_min (tele p "progress" / 100.0 * Carthing2.reward_max g)
                   (Carthing2.reward_max g))
           (Carthing2.reward_min g)), g).
Proof.
  intros Hp. apply returns_value.
  unfold Carthing2.score_progress. repeat mstep. auto.
Qed.

Lemma racing_track2_length : length Carthing2.get_racing_track = 121%nat.
Proof. reflexivity. Qed.

(** The off-track gate. *)
Lemma reward_function2_offtrack g v :
  p !! "is_offtrack" = Some v -> truthy v = true ->
  Carthing2.reward_function p g = (Ok 1e-3, g).
Proof.
  intros Hv Ht. unfold Carthing2.reward_function.
  rewrite (bind_Ok _ _ _ _ _ (py_item_Some _ _ _ _ Hv)).
  now rewrite Ht.
Qed.

Lemma reward_function2_no_flag g :
  p !! "is_offtrack" = None ->
  Carthing2.reward_function p g = (Raise (KeyError "is_offtrack"), g).
Proof.
  intros Hv. unfold Carthing2.reward_function.
  now rewrite (bind_Raise _ _ _ _ _ (py_item_None _ _ _ Hv)).
Qed.

Lemma reward_function2_value g v :
  p !! "is_offtrack" = Some v -> truthy v = false ->
  has_required p ->
  exists target closest,
    In target Carthing2.get_racing_track
    /\ In closest Carthing2.get_racing_track
    /\ returns (Carthing2.reward_function p) g (fun r g' =>
         g' = g
         /\ exists s1 s2 s3 s4,
              Carthing2.score_steering p target g = (Ok s1, g)
              /\ Carthing2.score_speed p g = (Ok s2, g)
              /\ Carthing2.score_center p closest g = (Ok s3, g)
              /\ Carthing2.score_progress p g = (Ok s4, g)
              /\ r = py_max
                      (py_min (0.1 * s1 + 0.5 * s2 + 0.3 * s3 + 0.1 * s4)
                              (Carthing2.reward_max g))
                      (Carthing2.reward_min g)).
Proof.
  intros Hv Hf Hreq.
  assert (Hx : is_Some (p !! "x")) by (apply Hreq; simpl; tauto).
  assert (Hy : is_Some (p !! "y")) by (apply Hreq; simpl; tauto).
  assert (Hh : is_Some (p !! "heading")) by (apply Hreq; simpl; tauto).
  assert (Ha : is_Some (p !! "steering_angle")) by (apply Hreq; simpl; tauto).
  assert (Hs : is_Some (p !! "speed")) by (apply Hreq; simpl; tauto).
  assert (Hw : is_Some (p !! "track_width")) by (apply Hreq; simpl; tauto).
  assert (Hp : is_Some (p !! "progress")) by (apply Hreq; simpl; tauto).
  set (sight := if Rlt_dec (tele p "y")
                     ((6 - -7) / (-6 - 7) * tele p "x" + -7
                      - (6 - -7) / (-6 - 7) * 7)
                then 0.5 else 1).
  destruct (draw_ray2_returns p Carthing2.get_racing_track sight g Hx Hy Hw)
    as (m & idx & _ & _ & Hray).
  apply returns_eq in Hray as ([t mi] & g0 & Eray & -> & Hmi & _ & Hrange).
  simpl in Hmi. subst mi.
  destruct Hrange as [Ht Hidx]; [discriminate|]. simpl in Ht.
  destruct (py_index_in_range Carthing2.get_racing_track t g Ht)
    as (target & Htl & Et).
  destruct (py_index_in_range Carthing2.get_racing_track idx g Hidx)
    as (closest & Hnl & En).
  exists target, closest.
  split; [apply list_elem_of_In, list_elem_of_lookup; eauto|].
  split; [apply list_elem_of_In, list_elem_of_lookup; eauto|].
  unfold Carthing2.reward_function.
  mstep. eapply returns_run; [apply py_item_Some, Hv|]. rewrite Hf.
  cbv zeta. cbn [fst snd].
  mstep. mstep. mstep. mstep. mstep. mstep.
  mstep. eapply returns_run; [exact Eray|]. cbv beta iota.
  mstep. eapply returns_run; [exact Et|].
  mstep. eapply returns_run; [now apply score_steering2_value|].
  mstep. eapply returns_run; [now apply score_speed2_value|].
  mstep. eapply returns_run; [exact En|].
  mstep. eapply returns_run; [now apply score_center2_value|].
  mstep. eapply returns_run; [now apply score_progress2_value|].
  repeat mstep. split; [reflexivity|].
  do 4 eexists.
  split; [now apply score_steering2_value|].
  split; [now apply score_speed2_value|].
  split; [now apply score_center2_value|].
  split; [now apply score_progress2_value|].
  reflexivity.
Qed.

End Scores2.

(* ===================================================================== *)
(** * Bounds of the reward                                                 *)
(* ===================================================================== *)

Section Bounds.

Lemma on_waypoint_0_flagged_required b pr :
  has_required (on_waypoint_0_flagged b pr).
Proof.
  intros k Hk. simpl in Hk.
  repeat (destruct Hk as [<-|Hk]; [eexists; reflexivity|]).
  contradiction.
Qed.

Lemma on_waypoint_0_required pr : has_required (on_waypoint_0 pr).
Proof.
  intros k Hk. simpl in Hk.
  repeat (destruct Hk as [<-|Hk]; [eexists; reflexivity|]).
  contradiction.
Qed.

Lemma on_waypoint_0_progress pr : tele (on_waypoint_0 pr) "progress" = pr.
Proof. reflexivity. Qed.

Lemma on_waypoint_0_width pr : tele (on_waypoint_0 pr) "track_width" = 0.8.
Proof. reflexivity. Qed.

Lemma configured_loaded : configured Carthing.loaded.
Proof. split; reflexivity. Qed.

Lemma configured_set_last_progress v g :
  configured g -> configured (Carthing.set_last_progress v g).
Proof. intros [H1 H2]. split; assumption. Qed.

(** What [reward_function] of carthing.py returns on valid telemetry:
    the sum of four clamped sub-scores and the floored progress score. *)
Lemma additive_reward_sum p g :
  configured g -> has_required p -> tele p "track_width" <> 0 ->
  returns (Carthing.reward_function p) g (fun r g' =>
    g' = Carthing.set_last_progress (tele p "progress") g
    /\ exists s1 s2 s3 s5,
         0.001 <= s1 <= 5.0 /\ 0.001 <= s2 <= 5.0
         /\ 0.001 <= s3 <= 5.0 /\ 0.001 <= s5 <= 5.0
         /\ r = 0.0 + s1 + s2 + s3
                + py_max ((tele p "progress" - Carthing.last_progress g)
                          * 5.0) 0.001
                + s5).
Proof.
  intros [Hmax Hmin] Hreq Hnz.
  assert (Hx : is_Some (p !! "x")) by (apply Hreq; simpl; tauto).
  assert (Hy : is_Some (p !! "y")) by (apply Hreq; simpl; tauto).
  assert (Hh : is_Some (p !! "heading")) by (apply Hreq; simpl; tauto).
  assert (Ha : is_Some (p !! "steering_angle")) by (apply Hreq; simpl; tauto).
  assert (Hs : is_Some (p !! "speed")) by (apply Hreq; simpl; tauto).
  assert (Hw : is_Some (p !! "track_width")) by (apply Hreq; simpl; tauto).
  assert (Hp : is_Some (p !! "progress")) by (apply Hreq; simpl; tauto).
  destruct (reward_function_value p g Hreq Hnz)
    as (target & nearest & _ & _ & Hret).
  eapply returns_mono; [exact Hret|]. simpl.
  intros r g' (-> & s1 & s2 & s3 & s4 & s5 & E1 & E2 & E3 & E4 & E5 & ->).
  split; [reflexivity|].
  rewrite score_steering_value in E1 by assumption.
  rewrite score_speed_value in E2 by assumption.
  rewrite score_center_value in E3 by assumption.
  rewrite score_progress_value in E4 by assumption.
  rewrite score_speed_steering_value in E5 by assumption.
  simpl in E5. rewrite Hmax, Hmin in *.
  inversion E1 as [V1]; inversion E2 as [V2]; inversion E3 as [V3];
    inversion E4 as [V4]; inversion E5 as [V5].
  exists s1, s2, s3, s5. rewrite <- V1, <- V2, <- V3, <- V5.
  split; [apply clamp_bounds; lra|].
  split; [apply clamp_bounds; lra|].
  split; [apply clamp_bounds; lra|].
  split; [apply clamp_bounds'; lra|].
  reflexivity.
Qed.

(** What [reward_function] of carthing2.py returns when the car is on
    track: a value clamped to the configured range. *)
Lemma weighted_reward_clamped p v :
  p !! "is_offtrack" = Some v -> has_required p ->
  returns (Carthing2.reward_function p) Carthing2.loaded (fun r g' =>
    g' = Carthing2.loaded /\ 0.001 <= r <= 10.0).
Proof.
  intros Hv Hreq. destruct (truthy v) eqn:Ht.
  - eapply returns_run; [now apply (reward_function2_offtrack p _ v)|].
    split; [reflexivity|lra].
  - destruct (reward_function2_value p Carthing2.loaded v Hv Ht Hreq)
      as (target & closest & _ & _ & Hret).
    eapply returns_mono; [exact Hret|]. simpl.
    intros r g' (-> & s1 & s2 & s3 & s4 & _ & _ & _ & _ & ->).
    split; [reflexivity|]. apply clamp_bounds. lra.
Qed.

End Bounds.

(* ===================================================================== *)
(** * How the reward is put together                                       *)
(* ===================================================================== *)

Section Composition.

(** On valid telemetry with a non-zero track width [reward_function] of
    carthing.py runs [draw_ray] once, with the sight it picked, and adds the
    five sub-scores taken at the two waypoints that [draw_ray] returned. *)
Lemma additive_composition p g :
  has_required p -> tele p "track_width" <> 0 ->
  exists t idx target nearest s1 s2 s3 s4 s5,
    Carthing.draw_ray p Carthing.get_racing_track
      (if Rlt_dec (tele p "y")
            ((6 - -7) / (-6 - 7) * tele p "x" + -7
             - (6 - -7) / (-6 - 7) * 7)
       then 0.25 else 0.5) g
      = (Ok (t, idx), g)
    /\ Carthing.get_racing_track !! Z.to_nat t = Some target
    /\ Carthing.get_racing_track !! Z.to_nat idx = Some nearest
    /\ Carthing.score_steering p target g = (Ok s1, g)
    /\ Carthing.score_speed p nearest g = (Ok s2, g)
    /\ Carthing.score_center p nearest g = (Ok s3, g)
    /\ Carthing.score_progress p g
       = (Ok s4, Carthing.set_last_progress (tele p "progress") g)
    /\ Carthing.score_speed_steering p
         (Carthing.set_last_progress (tele p "progress") g)
       = (Ok s5, Carthing.set_last_progress (tele p "progress") g)
    /\ Carthing.reward_function p g
       = (Ok (0.0 + s1 + s2 + s3 + s4 + s5),
          Carthing.set_last_progress (tele p "progress") g).
Proof.
  intros Hreq Hnz.
  assert (Hx : is_Some (p !! "x")) by (apply Hreq; simpl; tauto).
  assert (Hy : is_Some (p !! "y")) by (apply Hreq; simpl; tauto).
  assert (Hh : is_Some (p !! "heading")) by (apply Hreq; simpl; tauto).
  assert (Ha : is_Some (p !! "steering_angle")) by (apply Hreq; simpl; tauto).
  assert (Hs : is_Some (p !! "speed")) by (apply Hreq; simpl; tauto).
  assert (Hw : is_Some (p !! "track_width")) by (apply Hreq; simpl; tauto).
  assert (Hp : is_Some (p !! "progress")) by (apply Hreq; simpl; tauto).
  set (sight := if Rlt_dec (tele p "y")
                     ((6 - -7) / (-6 - 7) * tele p "x" + -7
                      - (6 - -7) / (-6 - 7) * 7)
                then 0.25 else 0.5).
  destruct (draw_ray_returns p Carthing.get_racing_track sight g Hx Hy Hw)
    as (m & idx & _ & _ & Hray).
  apply returns_eq in Hray as ([t mi] & g0 & Eray & -> & Hmi & _ & Hrange).
  simpl in Hmi. subst mi.
  destruct Hrange as [Ht Hidx]; [discriminate|].
  destruct (py_index_in_range Carthing.get_racing_track t g Ht)
    as (target & Htl & Et).
  destruct (py_index_in_range Carthing.get_racing_track idx g Hidx)
    as (nearest & Hnl & En).
  exists t, idx, target, nearest. do 5 eexists.
  split; [exact Eray|]. split; [exact Htl|]. split; [exact Hnl|].
  split; [now apply score_steering_value|].
  split; [now apply score_speed_value|].
  split; [now apply score_center_value|].
  split; [now apply score_progress_value|].
  split; [now apply score_speed_steering_value|].
  apply returns_value.
  unfold Carthing.reward_function. cbv zeta. cbn [fst snd].
  mstep. mstep. mstep. mstep. mstep. mstep.
  fold sight.
  mstep. eapply returns_run; [exact Eray|]. cbv beta iota.
  mstep. eapply returns_run; [exact Et|].
  mstep. eapply returns_run; [now apply score_steering_value|].
  mstep. eapply returns_run; [exact En|].
  mstep. eapply returns_run; [now apply score_speed_value|].
  mstep. eapply returns_run; [exact En|].
  mstep. eapply returns_run; [now apply score_center_value|].
  mstep. eapply returns_run; [now apply score_progress_value|].
  mstep. eapply returns_run; [now apply score_speed_steering_value|].
  mstep. split; reflexivity.
Qed.

(** The same for carthing2.py when the car is on track: one call of
    [draw_ray], four sub-scores, their weighted sum clamped. *)
Lemma weighted_composition p g v :
  p !! "is_offtrack" = Some v -> truthy v = false -> has_required p ->
  exists t idx target closest s1 s2 s3 s4,
    Carthing2.draw_ray p Carthing2.get_racing_track
      (if Rlt_dec (tele p "y")
            ((6 - -7) / (-6 - 7) * tele p "x" + -7
             - (6 - -7) / (-6 - 7) * 7)
       then 0.5 else 1) g
      = (Ok (t, idx), g)
    /\ Carthing2.get_racing_track !! Z.to_nat t = Some target
    /\ Carthing2.get_racing_track !! Z.to_nat idx = Some closest
    /\ Carthing2.score_steering p target g = (Ok s1, g)
    /\ Carthing2.score_speed p g = (Ok s2, g)
    /\ Carthing2.score_center p closest g = (Ok s3, g)
    /\ Carthing2.score_progress p g = (Ok s4, g)
    /\ Carthing2.reward_function p g
       = (Ok (py_max
                (py_min (0.1 * s1 + 0.5 * s2 + 0.3 * s3 + 0.1 * s4)
                        (Carthing2.reward_max g))
                (Carthing2.reward_min g)), g).
Proof.
  intros Hv Hf Hreq.
  assert (Hx : is_Some (p !! "x")) by (apply Hreq; simpl; tauto).
  assert (Hy : is_Some (p !! "y")) by (apply Hreq; simpl; tauto).
  assert (Hh : is_Some (p !! "heading")) by (apply Hreq; simpl; tauto).
  assert (Ha : is_Some (p !! "steering_angle")) by (apply Hreq; simpl; tauto).
  assert (Hs : is_Some (p !! "speed")) by (apply Hreq; simpl; tauto).
  assert (Hw : is_Some (p !! "track_width")) by (apply Hreq; simpl; tauto).
  assert (Hp : is_Some (p !! "progress")) by (apply Hreq; simpl; tauto).
  set (sight := if Rlt_dec (tele p "y")
                     ((6 - -7) / (-6 - 7) * tele p "x" + -7
                      - (6 - -7) / (-6 - 7) * 7)
                then 0.5 else 1).
  destruct (draw_ray2_returns p Carthing2.get_racing_track sight g Hx Hy Hw)
    as (m & idx & _ & _ & Hray).
  apply returns_eq in Hray as ([t mi] & g0 & Eray & -> & Hmi & _ & Hrange).
  simpl in Hmi. subst mi.
  destruct Hrange as [Ht Hidx]; [discriminate|].
  destruct (py_index_in_range Carthing2.get_racing_track t g Ht)
    as (target & Htl & Et).
  destruct (py_index_in_range Carthing2.get_racing_track idx g Hidx)
    as (closest & Hnl & En).
  exists t, idx, target, closest. do 4 eexists.
  split; [exact Eray|]. split; [exact Htl|]. split; [exact Hnl|].
  split; [now apply score_steering2_value|].
  split; [now apply score_speed2_value|].
  split; [now apply score_center2_value|].
  split; [now apply score_progress2_value|].
  apply returns_value.
  unfold Carthing2.reward_function.
  mstep. eapply returns_run; [apply py_item_Some, Hv|]. rewrite Hf.
  cbv zeta. cbn [fst snd].
  mstep. mstep. mstep. mstep. mstep. mstep.
  fold sight.
  mstep. eapply returns_run; [exact Eray|]. cbv beta iota.
  mstep. eapply returns_run; [exact Et|].
  mstep. eapply returns_run; [now apply score_steering2_value|].
  mstep. eapply returns_run; [now apply score_speed2_value|].
  mstep. eapply returns_run; [exact En|].
  mstep. eapply returns_run; [now apply score_center2_value|].
  mstep. eapply returns_run; [now apply score_progress2_value|].
  repeat mstep. split; reflexivity.
Qed.

End Composition.

(** C1 (amended).  Valid telemetry holds the seven required keys.  The
    weighted variant carthing2.py reads the key [is_offtrack] as well, before
    anything else: on valid telemetry without that key the call raises
    [KeyError('is_offtrack')]; on valid telemetry with it the call returns a
    reward within the configured bounds, [reward_min = 0.001] and
    [reward_max = 10.0].  The additive variant carthing.py, on valid
    telemetry with a non-zero track width, returns exactly the unclamped sum
    of its five sub-scores: the steering score at the target waypoint that
    [draw_ray] finds (with sight 0.25 or 0.5), the speed and centre scores
    at the nearest waypoint, the progress score and, after it, the
    speed-steering score.  The steering, speed, centre and speed-steering
    scores each lie within [[reward_min, reward_max]]; the progress score is
    [max((progress - last_progress) * reward_max, reward_min)] and has no
    upper clamp.  So the reward is positive and at least
    [reward_min = 0.001], but it is bounded above only by four times
    [reward_max = 5.0] plus the progress score; the configured bounds
    themselves are left unchanged. *)
Theorem reward_bounds :
  (forall p,
     has_required p ->
     (p !! "is_offtrack" = None ->
      Carthing2.reward_function p Carthing2.loaded
      = (Raise (KeyError "is_offtrack"), Carthing2.loaded))
     /\ (forall v,
           p !! "is_offtrack" = Some v ->
           returns (Carthing2.reward_function p) Carthing2.loaded
             (fun r _ =>
                Carthing2.reward_min Carthing2.loaded <= r
                  <= Carthing2.reward_max Carthing2.loaded)))
  /\ (forall p g,
        configured g -> has_required p -> tele p "track_width" <> 0 ->
        exists sight t idx target nearest s1 s2 s3 s4 s5,
          (sight = 0.25 \/ sight = 0.5)
          /\ Carthing.draw_ray p Carthing.get_racing_track sight g
             = (Ok (t, idx), g)
          /\ Carthing.get_racing_track !! Z.to_nat t = Some target
          /\ Carthing.get_racing_track !! Z.to_nat idx = Some nearest
          /\ Carthing.score_steering p target g = (Ok s1, g)
          /\ Carthing.score_speed p nearest g = (Ok s2, g)
          /\ Carthing.score_center p nearest g = (Ok s3, g)
          /\ Carthing.score_progress p g
             = (Ok s4, Carthing.set_last_progress (tele p "progress") g)
          /\ Carthing.score_speed_steering p
               (Carthing.set_last_progress (tele p "progress") g)
             = (Ok s5, Carthing.set_last_progress (tele p "progress") g)
          /\ Carthing.reward_function p g
             = (Ok (s1 + s2 + s3 + s4 + s5),
                Carthing.set_last_progress (tele p "progress") g)
          /\ configured (Carthing.set_last_progress (tele p "progress") g)
          /\ Carthing.reward_min g <= s1 <= Carthing.reward_max g
          /\ Carthing.reward_min g <= s2 <= Carthing.reward_max g
          /\ Carthing.reward_min g <= s3 <= Carthing.reward_max g
          /\ Carthing.reward_min g <= s5 <= Carthing.reward_max g
          /\ s4 = Rmax ((tele p "progress" - Carthing.last_progress g)
                        * Carthing.reward_max g)
                       (Carthing.reward_min g)
          /\ 0 < s1 + s2 + s3 + s4 + s5
          /\ Carthing.reward_min g <= s1 + s2 + s3 + s4 + s5
               <= 4 * Carthing.reward_max g + s4).
Proof.
  split.
  - intros p Hreq. split.
    + intros Hn. now apply reward_function2_no_flag.
    + intros v Hv.
      eapply returns_mono; [exact (weighted_reward_clamped p v Hv Hreq)|].
      simpl. intros r g' [_ H]. lra.
  - intros p g Hc Hreq Hnz.
    assert (Hx : is_Some (p !! "x")) by (apply Hreq; simpl; tauto).
    assert (Hy : is_Some (p !! "y")) by (apply Hreq; simpl; tauto).
    assert (Hh : is_Some (p !! "heading")) by (apply Hreq; simpl; tauto).
    assert (Ha : is_Some (p !! "steering_angle"))
      by (apply Hreq; simpl; tauto).
    assert (Hs : is_Some (p !! "speed")) by (apply Hreq; simpl; tauto).
    assert (Hw : is_Some (p !! "track_width")) by (apply Hreq; simpl; tauto).
    assert (Hp : is_Some (p !! "progress")) by (apply Hreq; simpl; tauto).
    destruct (additive_composition p g Hreq Hnz)
      as (t & idx & target & nearest & s1 & s2 & s3 & s4 & s5
          & D & T & N & E1 & E2 & E3 & E4 & E5 & E).
    eexists _, t, idx, target, nearest, s1, s2, s3, s4, s5.
    split; [|split; [exact D|]].
    { destruct (Rlt_dec (tele p "y") _); [now left|now right]. }
    split; [exact T|]. split; [exact N|]. split; [exact E1|].
    split; [exact E2|]. split; [exact E3|]. split; [exact E4|].
    split; [exact E5|].
    split; [rewrite E; f_equal; f_equal; lra|].
    split; [now apply configured_set_last_progress|].
    destruct Hc as [Hmax Hmin].
    rewrite score_steering_value in E1 by assumption.
    rewrite score_speed_value in E2 by assumption.
    rewrite score_center_value in E3 by assumption.
    rewrite score_progress_value in E4 by assumption.
    rewrite score_speed_steering_value in E5 by assumption.
    simpl in E5. rewrite Hmax, Hmin in *.
    rewrite py_max_Rmax in E4.
    injection E1 as <-. injection E2 as <-. injection E3 as <-.
    injection E4 as <-. injection E5 as <-.
    set (s1 := py_max (py_min _ 5.0) 0.001).
    set (s2 := py_max (py_min (1.001 - Rabs (tele p "speed" - _) / 3) 5.0)
                 0.001).
    set (s3 := py_max (py_min (1.001 - Rabs (tele p "track_width" - _) / _)
                         5.0) 0.001).
    set (s5 := py_max 0.001 _).
    set (s4 := Rmax _ 0.001).
    assert (B1 : 0.001 <= s1 <= 5.0) by (apply clamp_bounds; lra).
    assert (B2 : 0.001 <= s2 <= 5.0) by (apply clamp_bounds; lra).
    assert (B3 : 0.001 <= s3 <= 5.0) by (apply clamp_bounds; lra).
    assert (B5 : 0.001 <= s5 <= 5.0) by (apply clamp_bounds'; lra).
    assert (B4 : 0.001 <= s4) by apply Rmax_r.
    split; [exact B1|]. split; [exact B2|]. split; [exact B3|].
    split; [exact B5|]. split; [reflexivity|]. lra.
Qed.

Lemma reward_bounds_witness :
  Carthing2.reward_function (on_waypoint_0 0) Carthing2.loaded
  = (Raise (KeyError "is_offtrack"), Carthing2.loaded)
  /\ returns (Carthing2.reward_function (on_waypoint_0_flagged false 0))
       Carthing2.loaded (fun r _ =>
         Carthing2.reward_min Carthing2.loaded <= r
           <= Carthing2.reward_max Carthing2.loaded)
  /\ exists r,
       Carthing.reward_function (on_waypoint_0 0) Carthing.loaded
       = (Ok r, Carthing.set_last_progress
                  (tele (on_waypoint_0 0) "progress") Carthing.loaded)
       /\ 0 < r
       /\ Carthing.reward_min Carthing.loaded <= r
            <= 4 * Carthing.reward_max Carthing.loaded
               + Rmax ((tele (on_waypoint_0 0) "progress"
                        - Carthing.last_progress Carthing.loaded)
                       * Carthing.reward_max Carthing.loaded)
                      (Carthing.reward_min Carthing.loaded).
Proof.
  split; [|split].
  - apply (proj1 (proj1 reward_bounds (on_waypoint_0 0)
                    (on_waypoint_0_required 0))).
    reflexivity.
  - apply (proj2 (proj1 reward_bounds (on_waypoint_0_flagged false 0)
                    (on_waypoint_0_flagged_required false 0))
             (VBool false)).
    reflexivity.
  - destruct (proj2 reward_bounds (on_waypoint_0 0) Carthing.loaded)
      as (sight & t & idx & target & nearest & s1 & s2 & s3 & s4 & s5
          & _ & _ & _ & _ & _ & _ & _ & _ & _ & E & _ & _ & _ & _ & _
          & E4 & Hpos & Hb).
    + apply configured_loaded.
    + apply on_waypoint_0_required.
    + rewrite on_waypoint_0_width. lra.
    + exists (s1 + s2 + s3 + s4 + s5).
      split; [exact E|]. split; [exact Hpos|]. now rewrite <- E4.
Defined.

(** C1, as stated, fails for the additive variant: on waypoint 0 with the
    progress going from 0 to 2 percent the progress score alone is 10, so
    the reward exceeds [reward_max = 5.0]. *)
Lemma additive_reward_above_reward_max :
  ~ returns (Carthing.reward_function (on_waypoint_0 2)) Carthing.loaded
      (fun r _ =>
         Carthing.reward_min Carthing.loaded <= r
           <= Carthing.reward_max Carthing.loaded).
Proof.
  intros H.
  pose proof (additive_reward_sum (on_waypoint_0 2) Carthing.loaded
                configured_loaded (on_waypoint_0_required 2)) as Hsum.
  rewrite on_waypoint_0_width, on_waypoint_0_progress in Hsum.
  specialize (Hsum ltac:(lra)).
  unfold returns in *.
  destruct (Carthing.reward_function (on_waypoint_0 2) Carthing.loaded)
    as [[r|e] g']; [|contradiction].
  destruct Hsum as (_ & s1 & s2 & s3 & s5 & B1 & B2 & B3 & B5 & ->).
  simpl in H. unfold py_max in H.
  destruct (Rlt_dec _ 0.001); lra.
Qed.

(* ===================================================================== *)
(** * The progress score of carthing.py                                    *)
(* ===================================================================== *)

(** C2.  The delta-based progress scorer returns
    [(progress - last_progress) * reward_max] floored at [reward_min] and
    leaves [last_progress] set to the current progress.  Hence from the same
    globals a larger delta gives a strictly larger score, or an equal one
    when both sit on the floor; and whatever the first call was, a second
    call whose progress is 1.0 higher scores [1.0 * reward_max]. *)
Theorem progress_score_delta :
  forall p g,
    is_Some (p !! "progress") -> configured g ->
    let score (q : gmap string value) (h : Carthing.globals) :=
      Rmax ((tele q "progress" - Carthing.last_progress h)
            * Carthing.reward_max h) (Carthing.reward_min h) in
    Carthing.score_progress p g =
      (Ok (score p g), Carthing.set_last_progress (tele p "progress") g)
    /\ Carthing.last_progress
         (Carthing.set_last_progress (tele p "progress") g) = tele p "progress"
    /\ (forall p',
          is_Some (p' !! "progress") ->
          tele p "progress" - Carthing.last_progress g
            < tele p' "progress" - Carthing.last_progress g ->
          score p g < score p' g
          \/ (score p g = Carthing.reward_min g
              /\ score p' g = Carthing.reward_min g))
    /\ (forall p',
          is_Some (p' !! "progress") ->
          tele p' "progress" = tele p "progress" + 1.0 ->
          Carthing.score_progress p'
            (Carthing.set_last_progress (tele p "progress") g) =
            (Ok (1.0 * Carthing.reward_max g),
             Carthing.set_last_progress (tele p' "progress") g)).
Proof.
  intros p g Hp [Hmax Hmin] score. subst score. cbv beta.
  split; [|split; [|split]].
  - rewrite score_progress_value by exact Hp. now rewrite py_max_Rmax.
  - reflexivity.
  - intros p' _ Hlt. rewrite Hmax, Hmin. unfold Rmax.
    destruct (Rle_dec _ 0.001), (Rle_dec _ 0.001); lra.
  - intros p' Hp' E. rewrite score_progress_value by exact Hp'.
    simpl. rewrite E, Hmax, Hmin. f_equal. f_equal.
    unfold py_max. destruct (Rlt_dec _ 0.001); lra.
Qed.

Lemma progress_score_delta_witness :
  Carthing.score_progress (on_waypoint_0 0) Carthing.loaded =
    (Ok (Rmax ((tele (on_waypoint_0 0) "progress"
                - Carthing.last_progress Carthing.loaded)
               * Carthing.reward_max Carthing.loaded)
              (Carthing.reward_min Carthing.loaded)),
     Carthing.set_last_progress (tele (on_waypoint_0 0) "progress")
       Carthing.loaded)
  /\ Carthing.score_progress (on_waypoint_0 1.0)
       (Carthing.set_last_progress (tele (on_waypoint_0 0) "progress")
          Carthing.loaded) =
       (Ok (1.0 * Carthing.reward_max Carthing.loaded),
        Carthing.set_last_progress (tele (on_waypoint_0 1.0) "progress")
          Carthing.loaded).
Proof.
  assert (Hp : is_Some (on_waypoint_0 0 !! "progress"))
    by (eexists; reflexivity).
  destruct (progress_score_delta (on_waypoint_0 0) Carthing.loaded Hp
              configured_loaded) as (H1 & _ & _ & H4).
  split; [exact H1|].
  apply H4.
  - eexists; reflexivity.
  - rewrite !on_waypoint_0_progress. lra.
Defined.

(* ===================================================================== *)
(** * The angle difference                                                 *)
(* ===================================================================== *)

(** C3 (amended).  In both variants [get_difference_degrees a1 a2] returns,
    without touching the globals, the difference [a1 - a2] converted to
    degrees, up to a whole number of turns, normalised into the half-open
    interval [[-180, 180)]: the reduction modulo [2 * pi] gives a value in
    [[0, 2 * pi)], and a value of [pi] or more is lowered by [2 * pi], so
    -180 is reached and 180 is not. *)
Theorem difference_degrees_normalised :
  forall a1 a2 g g2,
    returns (Carthing.get_difference_degrees a1 a2) g (fun r g' =>
      g' = g /\ -180 <= r < 180
      /\ exists k : Z, r = math_degrees (a1 - a2) - 360 * IZR k)
    /\ returns (Carthing2.get_difference_degrees a1 a2) g2 (fun r g' =>
         g' = g2 /\ -180 <= r < 180
         /\ exists k : Z, r = math_degrees (a1 - a2) - 360 * IZR k).
Proof.
  intros a1 a2 g g2. split.
  - eapply returns_run; [apply get_difference_degrees_eq|].
    split; [reflexivity|].
    split; [apply angle_difference_range|apply angle_difference_turns].
  - eapply returns_run; [apply get_difference_degrees2_eq|].
    split; [reflexivity|].
    split; [apply angle_difference_range|apply angle_difference_turns].
Qed.

(** C3, as stated, fails at [a1 = pi], [a2 = 0]: both variants return
    exactly -180, which is outside [(-180, 180]]. *)
Lemma difference_degrees_half_turn :
  Carthing.get_difference_degrees PI 0 Carthing.loaded
    = (Ok (-180), Carthing.loaded)
  /\ Carthing2.get_difference_degrees PI 0 Carthing2.loaded
     = (Ok (-180), Carthing2.loaded)
  /\ ~ returns (Carthing.get_difference_degrees PI 0) Carthing.loaded
         (fun r _ => -180 < r <= 180)
  /\ ~ returns (Carthing2.get_difference_degrees PI 0) Carthing2.loaded
         (fun r _ => -180 < r <= 180).
Proof.
  assert (E1 := get_difference_degrees_eq PI 0 Carthing.loaded).
  assert (E2 := get_difference_degrees2_eq PI 0 Carthing2.loaded).
  rewrite angle_difference_half_turn in E1, E2.
  split; [exact E1|]. split; [exact E2|].
  unfold returns. rewrite E1, E2. split; lra.
Qed.

(* ===================================================================== *)
(** * The nearest waypoint                                                 *)
(* ===================================================================== *)

Lemma first_minimum_nearest_of dl m idx :
  dl <> [] -> first_minimum dl m idx ->
  nearest_of dl (dl, m, idx, Z.of_nat (length dl)).
Proof.
  intros Hne Inv.
  destruct (first_minimum_nonempty dl m idx Hne Inv) as [d ->].
  destruct Inv as (Hr & Hd & Hle & Hlt).
  exists d, idx. split; [reflexivity|]. split; [exact Hr|].
  split; [exact Hd|]. split; [exact Hle|].
  intros j Hj. destruct (le_lt_dec (Z.to_nat idx) j) as [L|L]; [exact L|].
  specialize (Hlt j d L Hj). lra.
Qed.

(** C4.  For every car position and every non-empty waypoint list, both
    variants of [get_distance_list] return the list of the Euclidean
    distances from the car to each waypoint in table order, the least of
    these distances, the index where it occurs and the number of waypoints;
    among equidistant nearest waypoints the lowest index is the one
    returned. *)
Theorem nearest_waypoint :
  forall car,
    (forall wps, wps <> [] ->
       nearest_of (distances car wps) (Carthing.get_distance_list car wps)
       /\ length (distances car wps) = length wps
       /\ forall j w, wps !! j = Some w ->
            distances car wps !! j
            = Some (sqrt ((fst car - Carthing.wp_x w) ^ 2
                          + (snd car - Carthing.wp_y w) ^ 2)))
    /\ (forall wps, wps <> [] ->
          nearest_of (distances2 car wps)
            (Carthing2.get_distance_list car wps)
          /\ length (distances2 car wps) = length wps
          /\ forall j w, wps !! j = Some w ->
               distances2 car wps !! j
               = Some (sqrt ((fst car - Carthing2.wp_x w) ^ 2
                             + (snd car - Carthing2.wp_y w) ^ 2))).
Proof.
  intros car. split; intros wps Hne.
  - destruct (get_distance_list_eq car wps) as (m & idx & E & Inv).
    assert (Hl : length (distances car wps) = length wps)
      by (unfold distances; apply length_map).
    split; [|split; [exact Hl|]].
    + rewrite E, <- Hl. apply first_minimum_nearest_of; [|exact Inv].
      intros K. apply Hne. destruct wps; [reflexivity|discriminate].
    + intros j w Hw. unfold distances. rewrite list_lookup_fmap, Hw. simpl.
      unfold Carthing.get_distance, math_sqrt. simpl.
      do 2 f_equal. ring.
  - destruct (get_distance_list2_eq car wps) as (m & idx & E & Inv).
    assert (Hl : length (distances2 car wps) = length wps)
      by (unfold distances2; apply length_map).
    split; [|split; [exact Hl|]].
    + rewrite E, <- Hl. apply first_minimum_nearest_of; [|exact Inv].
      intros K. apply Hne. destruct wps; [reflexivity|discriminate].
    + intros j w Hw. unfold distances2. rewrite list_lookup_fmap, Hw. simpl.
      reflexivity.
Qed.

Lemma nearest_waypoint_witness :
  nearest_of (distances (0, 0) Carthing.get_racing_track)
    (Carthing.get_distance_list (0, 0) Carthing.get_racing_track)
  /\ nearest_of (distances2 (0, 0) Carthing2.get_racing_track)
       (Carthing2.get_distance_list (0, 0) Carthing2.get_racing_track).
Proof.
  split.
  - apply (proj1 (nearest_waypoint (0, 0)) Carthing.get_racing_track).
    discriminate.
  - apply (proj2 (nearest_waypoint (0, 0)) Carthing2.get_racing_track).
    discriminate.
Defined.

(* ===================================================================== *)
(** * The target locator                                                   *)
(* ===================================================================== *)

(** C5.  In both variants, for telemetry with a position and a track width
    and a waypoint table of length [N], [draw_ray] returns
    [(target_idx, min_idx)] where [min_idx] is the nearest-waypoint index of
    [get_distance_list] and [target_idx] is the outcome of the look-ahead
    over offsets [5 .. floor(0.1 * N) - 1] from [min_idx], indices modulo
    [N]: the index visited last, the scan stopping at the first waypoint
    whose distance to the car reaches [track_width * sight]; when
    [floor(0.1 * N) <= 5] the window is empty and [target_idx = min_idx]. *)
Theorem draw_ray_look_ahead :
  forall p sight,
    is_Some (p !! "x") -> is_Some (p !! "y") ->
    is_Some (p !! "track_width") ->
    let car := (tele p "x", tele p "y") in
    let target_dist := tele p "track_width" * sight in
    (forall wps g,
       let N := Z.of_nat (length wps) in
       exists min_dist min_idx,
         Carthing.get_distance_list car wps
           = (distances car wps, min_dist, min_idx, N)
         /\ returns (Carthing.draw_ray p wps sight) g (fun ti g' =>
              g' = g /\ snd ti = min_idx
              /\ look_ahead (distances car wps) min_idx N target_dist
                   (py_int (IZR N * 0.1)) min_idx (fst ti)))
    /\ (forall wps g,
          let N := Z.of_nat (length wps) in
          exists min_dist min_idx,
            Carthing2.get_distance_list car wps
              = (distances2 car wps, min_dist, min_idx, N)
            /\ returns (Carthing2.draw_ray p wps sight) g (fun ti g' =>
                 g' = g /\ snd ti = min_idx
                 /\ look_ahead (distances2 car wps) min_idx N target_dist
                      (py_int (IZR N * 0.1)) min_idx (fst ti))).
Proof.
  intros p sight Hx Hy Hw car target_dist. split; intros wps g N.
  - destruct (draw_ray_returns p wps sight g Hx Hy Hw)
      as (m & idx & E & _ & Hret).
    exists m, idx. split; [exact E|].
    eapply returns_mono; [exact Hret|]. simpl.
    intros ti g' (-> & Hs & Hla & _).
    subst N. rewrite py_int_tenth. auto.
  - destruct (draw_ray2_returns p wps sight g Hx Hy Hw)
      as (m & idx & E & _ & Hret).
    exists m, idx. split; [exact E|].
    eapply returns_mono; [exact Hret|]. simpl.
    intros ti g' (-> & Hs & Hla & _).
    subst N. rewrite py_int_tenth. auto.
Qed.

Lemma draw_ray_look_ahead_witness :
  exists min_dist min_idx,
    Carthing.get_distance_list
      (tele (on_waypoint_0 0) "x", tele (on_waypoint_0 0) "y")
      Carthing.get_racing_track
      = (distances (tele (on_waypoint_0 0) "x", tele (on_waypoint_0 0) "y")
           Carthing.get_racing_track,
         min_dist, min_idx, Z.of_nat (length Carthing.get_racing_track))
    /\ returns
         (Carthing.draw_ray (on_waypoint_0 0) Carthing.get_racing_track 0.5)
         Carthing.loaded (fun ti g' =>
           g' = Carthing.loaded /\ snd ti = min_idx
           /\ look_ahead
                (distances
                   (tele (on_waypoint_0 0) "x", tele (on_waypoint_0 0) "y")
                   Carthing.get_racing_track)
                min_idx (Z.of_nat (length Carthing.get_racing_track))
                (tele (on_waypoint_0 0) "track_width" * 0.5)
                (py_int (IZR (Z.of_nat (length Carthing.get_racing_track))
                         * 0.1))
                min_idx (fst ti)).
Proof.
  refine (proj1 (draw_ray_look_ahead (on_waypoint_0 0) 0.5 _ _ _)
            Carthing.get_racing_track Carthing.loaded);
    eexists; reflexivity.
Defined.

(* ===================================================================== *)
(** * The steering score                                                   *)
(* ===================================================================== *)

Section Steering.

Lemma steering_error_nonneg p tx ty : 0 <= steering_error p tx ty.
Proof. apply Rabs_pos. Qed.

Lemma steering_error_zero p tx ty :
  steering_error p tx ty = 0 <->
  tele p "steering_angle"
  = ideal_steering (tele p "x") (tele p "y") (tele p "heading") tx ty.
Proof.
  unfold steering_error. split; intros H.
  - destruct (Req_dec (tele p "steering_angle" - ideal_steering
                (tele p "x") (tele p "y") (tele p "heading") tx ty) 0)
      as [E|E]; [lra|]. apply Rabs_no_R0 in E. contradiction.
  - rewrite H, Rminus_diag. apply Rabs_R0.
Qed.

(** The additive variant: the score as a function of the steering error. *)
Lemma additive_steering_score p t g :
  configured g -> has_steering_inputs p ->
  let d := steering_error p (Carthing.wp_x t) (Carthing.wp_y t) in
  Carthing.score_steering p t g
  = (Ok (if Rgt_dec d 30 then 0.001 else 1.001 - d / 30), g).
Proof.
  intros [Hmax Hmin] (Hx & Hy & Hh & Ha) d.
  rewrite score_steering_value by assumption. fold d.
  rewrite Hmax, Hmin. f_equal. f_equal.
  pose proof (steering_error_nonneg p (Carthing.wp_x t) (Carthing.wp_y t)).
  fold d in H. apply clamp_inside.
  destruct (Rgt_dec d 30); lra.
Qed.

(** The weighted variant: the score is [(1.1 - d / 30) * 10] clamped. *)
Lemma weighted_steering_score p t :
  has_steering_inputs p ->
  let d := steering_error p (Carthing2.wp_x t) (Carthing2.wp_y t) in
  Carthing2.score_steering p t Carthing2.loaded
  = (Ok (py_max (py_min ((1.1 - d / 30.0) * 10.0) 10.0) 0.001),
     Carthing2.loaded).
Proof.
  intros (Hx & Hy & Hh & Ha) d.
  now rewrite score_steering2_value by assumption.
Qed.

(** A target straight ahead asks for no steering. *)
Lemma ideal_steering_ahead : ideal_steering 0 0 0 1 0 = 0.
Proof.
  unfold ideal_steering, math_radians.
  replace (0 - 0) with 0 by lra. replace (1 - 0) with 1 by lra.
  replace (0 * (math_pi / 180)) with 0 by lra.
  assert (A : math_atan2 0 1 = 0).
  { unfold math_atan2. destruct (Rlt_dec 0 1); [|lra].
    replace (0 / 1) with 0 by lra. apply atan_0. }
  rewrite A. unfold angle_difference.
  replace (0 - 0) with 0 by lra.
  assert (Q : Int_part (0 / (2.0 * PI)) = 0%Z).
  { apply Int_part_unique. replace (0 / (2.0 * PI)) with 0; [lra|].
    unfold Rdiv. lra. }
  rewrite Q. pose proof PI_RGT_0.
  destruct (Rge_dec _ PI); [lra|].
  replace (0 - 0 * (2.0 * PI)) with 0 by lra.
  unfold math_degrees. rewrite Rmult_0_l.
  unfold py_max, py_min.
  destruct (Rlt_dec 0 30); [|lra]. destruct (Rlt_dec (-30) 0); lra.
Qed.

Lemma steering_at_inputs a : has_steering_inputs (steering_at a).
Proof. repeat split; eexists; reflexivity. Qed.

Lemma steering_at_error a : steering_error (steering_at a) 1 0 = Rabs a.
Proof.
  unfold steering_error.
  change (tele (steering_at a) "steering_angle") with a.
  change (tele (steering_at a) "x") with 0.
  change (tele (steering_at a) "y") with 0.
  change (tele (steering_at a) "heading") with 0.
  rewrite ideal_steering_ahead. f_equal. lra.
Qed.

End Steering.

(** C6 (amended).  The steering score depends on the telemetry only through
    the absolute difference [d] between the actual steering angle and the
    ideal steering (the bearing of the target relative to the heading,
    clipped to [[-30, 30]]).  In the additive variant carthing.py the score
    is at most 1.001, equals 1.001 exactly when the steering is the ideal
    one, strictly decreases as [d] grows up to 30, and is the floor
    [reward_min] once [d] exceeds 30.  In the weighted variant carthing2.py
    the raw score [(1.1 - d / 30) * reward_max] is clamped, so the score is
    the maximum [reward_max = 10.0] exactly when [d <= 3], strictly
    decreases as [d] grows from 3 to 32.997, is the floor [reward_min]
    exactly when [d >= 32.997], and never increases with [d]. *)
Theorem steering_score_shape :
  (forall p t g,
     configured g -> has_steering_inputs p ->
     let d := steering_error p (Carthing.wp_x t) (Carthing.wp_y t) in
     exists r,
       Carthing.score_steering p t g = (Ok r, g)
       /\ r <= 1.001
       /\ (r = 1.001 <->
           tele p "steering_angle"
           = ideal_steering (tele p "x") (tele p "y") (tele p "heading")
               (Carthing.wp_x t) (Carthing.wp_y t))
       /\ (30 < d -> r = Carthing.reward_min g)
       /\ forall p' t',
            has_steering_inputs p' ->
            let d' := steering_error p' (Carthing.wp_x t') (Carthing.wp_y t') in
            exists r',
              Carthing.score_steering p' t' g = (Ok r', g)
              /\ (d < d' -> d' <= 30 -> r' < r)
              /\ (d <= d' -> r' <= r))
  /\ (forall p t,
        has_steering_inputs p ->
        let d := steering_error p (Carthing2.wp_x t) (Carthing2.wp_y t) in
        exists r,
          Carthing2.score_steering p t Carthing2.loaded
            = (Ok r, Carthing2.loaded)
          /\ r <= Carthing2.reward_max Carthing2.loaded
          /\ (r = Carthing2.reward_max Carthing2.loaded <-> d <= 3)
          /\ (r = Carthing2.reward_min Carthing2.loaded <-> 32.997 <= d)
          /\ forall p' t',
               has_steering_inputs p' ->
               let d' :=
                 steering_error p' (Carthing2.wp_x t') (Carthing2.wp_y t') in
               exists r',
                 Carthing2.score_steering p' t' Carthing2.loaded
                   = (Ok r', Carthing2.loaded)
                 /\ (3 <= d -> d < d' -> d' <= 32.997 -> r' < r)
                 /\ (d <= d' -> r' <= r)).
Proof.
  split.
  - intros p t g Hc Hin d.
    pose proof (steering_error_nonneg p (Carthing.wp_x t) (Carthing.wp_y t))
      as Hd. fold d in Hd.
    eexists. split; [exact (additive_steering_score p t g Hc Hin)|]. fold d.
    split; [destruct (Rgt_dec d 30); lra|].
    split; [|split].
    + rewrite <- steering_error_zero. fold d. destruct (Rgt_dec d 30); lra.
    + intros Hlt. destruct Hc as [_ ->]. destruct (Rgt_dec d 30); lra.
    + intros p' t' Hin' d'.
      pose proof (steering_error_nonneg p' (Carthing.wp_x t')
                    (Carthing.wp_y t')) as Hd'. fold d' in Hd'.
      eexists. split; [exact (additive_steering_score p' t' g Hc Hin')|].
      fold d'. destruct (Rgt_dec d 30), (Rgt_dec d' 30); split; lra.
  - intros p t Hin d.
    pose proof (steering_error_nonneg p (Carthing2.wp_x t) (Carthing2.wp_y t))
      as Hd. fold d in Hd.
    eexists. split; [exact (weighted_steering_score p t Hin)|]. fold d.
    simpl Carthing2.reward_max. simpl Carthing2.reward_min.
    split; [|split; [|split]].
    + unfold py_max, py_min.
      destruct (Rlt_dec 10.0 _), (Rlt_dec _ 0.001); lra.
    + unfold py_max, py_min.
      destruct (Rlt_dec 10.0 _), (Rlt_dec _ 0.001); split; lra.
    + unfold py_max, py_min.
      destruct (Rlt_dec 10.0 _), (Rlt_dec _ 0.001); split; lra.
    + intros p' t' Hin' d'.
      eexists. split; [exact (weighted_steering_score p' t' Hin')|].
      fold d'. split.
      * intros H3 Hlt H33. rewrite !clamp_inside; lra.
      * intros Hle. apply clamp_monotone. lra.
Qed.

Lemma steering_score_shape_witness :
  (exists r,
     Carthing.score_steering (steering_at 10) (Carthing.WP 1 0 4)
       Carthing.loaded = (Ok r, Carthing.loaded)
     /\ r <= 1.001)
  /\ (exists r,
        Carthing2.score_steering (steering_at 10) (Carthing2.WP 1 0)
          Carthing2.loaded = (Ok r, Carthing2.loaded)
        /\ r <= Carthing2.reward_max Carthing2.loaded).
Proof.
  split.
  - destruct (proj1 steering_score_shape (steering_at 10) (Carthing.WP 1 0 4)
                Carthing.loaded configured_loaded (steering_at_inputs 10))
      as (r & E & H & _).
    exists r. split; [exact E|exact H].
  - destruct (proj2 steering_score_shape (steering_at 10) (Carthing2.WP 1 0)
                (steering_at_inputs 10)) as (r & E & H & _).
    exists r. split; [exact E|exact H].
Defined.

(** C6, as stated, fails for the weighted variant.  With the target straight
    ahead the ideal steering is 0; steering 3 degrees off still scores the
    maximum 10.0, the same as steering exactly 0, and steering 31 degrees
    off scores 2/3, well above the floor 0.001. *)
Lemma weighted_steering_plateau :
  ideal_steering 0 0 0 1 0 = 0
  /\ Carthing2.score_steering (steering_at 0) (Carthing2.WP 1 0)
       Carthing2.loaded = (Ok 10.0, Carthing2.loaded)
  /\ Carthing2.score_steering (steering_at 3) (Carthing2.WP 1 0)
       Carthing2.loaded = (Ok 10.0, Carthing2.loaded)
  /\ steering_error (steering_at 3) 1 0 = 3
  /\ Carthing2.score_steering (steering_at 31) (Carthing2.WP 1 0)
       Carthing2.loaded = (Ok (2 / 3), Carthing2.loaded)
  /\ steering_error (steering_at 31) 1 0 = 31
  /\ 2 / 3 <> Carthing2.reward_min Carthing2.loaded.
Proof.
  assert (E0 : steering_error (steering_at 0) 1 0 = 0)
    by (rewrite steering_at_error; apply Rabs_R0).
  assert (E3 : steering_error (steering_at 3) 1 0 = 3)
    by (rewrite steering_at_error; apply Rabs_pos_eq; lra).
  assert (E31 : steering_error (steering_at 31) 1 0 = 31)
    by (rewrite steering_at_error; apply Rabs_pos_eq; lra).
  split; [apply ideal_steering_ahead|].
  split; [|split; [|split; [exact E3|split; [|split; [exact E31|]]]]].
  - rewrite (weighted_steering_score _ (Carthing2.WP 1 0)
               (steering_at_inputs 0)).
    simpl Carthing2.wp_x. simpl Carthing2.wp_y. rewrite E0.
    f_equal. f_equal. apply clamp_above; lra.
  - rewrite (weighted_steering_score _ (Carthing2.WP 1 0)
               (steering_at_inputs 3)).
    simpl Carthing2.wp_x. simpl Carthing2.wp_y. rewrite E3.
    f_equal. f_equal. apply clamp_above; lra.
  - rewrite (weighted_steering_score _ (Carthing2.WP 1 0)
               (steering_at_inputs 31)).
    simpl Carthing2.wp_x. simpl Carthing2.wp_y. rewrite E31.
    f_equal. f_equal. rewrite clamp_inside; lra.
  - simpl. lra.
Qed.

(* ===================================================================== *)
(** * The off-track gate                                                   *)
(* ===================================================================== *)

(** C7.  In carthing2.py, whenever the telemetry flags the car off track,
    [reward_function] returns exactly the minimum reward 0.001 and leaves
    the globals alone, whatever the other fields are and even when they are
    absent: nothing else is read or computed. *)
Theorem offtrack_short_circuit :
  forall p g v,
    p !! "is_offtrack" = Some v -> truthy v = true ->
    Carthing2.reward_function p g = (Ok 0.001, g)
    /\ 0.001 = Carthing2.reward_min Carthing2.loaded.
Proof.
  intros p g v Hv Ht. split; [|reflexivity].
  exact (reward_function2_offtrack p g v Hv Ht).
Qed.

Lemma offtrack_short_circuit_witness :
  Carthing2.reward_function {[ "is_offtrack" := VBool true ]}
    Carthing2.loaded = (Ok 0.001, Carthing2.loaded)
  /\ 0.001 = Carthing2.reward_min Carthing2.loaded.
Proof.
  apply (offtrack_short_circuit {[ "is_offtrack" := VBool true ]}
           Carthing2.loaded (VBool true)); reflexivity.
Defined.

(* ===================================================================== *)
(** * Every outcome of the two reward functions                            *)
(* ===================================================================== *)

Section Outcomes.

Lemma first_missing_Some p keys k :
  first_missing p keys = Some k -> In k keys /\ p !! k = None.
Proof.
  induction keys as [|k0 ks IH]; simpl; [discriminate|].
  destruct (p !! k0) eqn:E.
  - intros H. destruct (IH H). auto.
  - intros H. inversion H; subst. auto.
Qed.

Lemma first_missing_None p keys :
  first_missing p keys = None <-> forall k, In k keys -> is_Some (p !! k).
Proof.
  induction keys as [|k0 ks IH]; simpl.
  - split; [intros _ k []|reflexivity].
  - destruct (p !! k0) eqn:E.
    + rewrite IH. split.
      * intros H k [<-|Hk]; [rewrite E; eauto|auto].
      * intros H k Hk. auto.
    + split; [discriminate|]. intros H.
      destruct (H k0 (or_introl eq_refl)) as [v Hv]. congruence.
Qed.

Lemma py_num_present {S} p k v (s : S) :
  p !! k = Some v -> py_num p k s = (Ok (tele p k), s).
Proof. intros H. apply py_num_tele. rewrite H. eauto. Qed.

(** Once the position and the track width are there, the locator and the
    two table look-ups of [reward_function] go through. *)
Lemma locate_on_track p sight g :
  is_Some (p !! "x") -> is_Some (p !! "y") ->
  is_Some (p !! "track_width") ->
  exists t idx target nearest,
    Carthing.draw_ray p Carthing.get_racing_track sight g = (Ok (t, idx), g)
    /\ py_index Carthing.get_racing_track t g = (Ok target, g)
    /\ py_index Carthing.get_racing_track idx g = (Ok nearest, g).
Proof.
  intros Hx Hy Hw.
  destruct (draw_ray_returns p Carthing.get_racing_track sight g Hx Hy Hw)
    as (m & idx & _ & _ & Hray).
  apply returns_eq in Hray as ([t mi] & g0 & Eray & -> & Hmi & _ & Hrange).
  simpl in Hmi. subst mi.
  destruct Hrange as [Ht Hidx]; [discriminate|].
  destruct (py_index_in_range Carthing.get_racing_track t g Ht)
    as (target & _ & Et).
  destruct (py_index_in_range Carthing.get_racing_track idx g Hidx)
    as (nearest & _ & En).
  exists t, idx, target, nearest. auto.
Qed.

Lemma locate_on_track2 p sight g :
  is_Some (p !! "x") -> is_Some (p !! "y") ->
  is_Some (p !! "track_width") ->
  exists t idx target closest,
    Carthing2.draw_ray p Carthing2.get_racing_track sight g
      = (Ok (t, idx), g)
    /\ py_index Carthing2.get_racing_track t g = (Ok target, g)
    /\ py_index Carthing2.get_racing_track idx g = (Ok closest, g).
Proof.
  intros Hx Hy Hw.
  destruct (draw_ray2_returns p Carthing2.get_racing_track sight g Hx Hy Hw)
    as (m & idx & _ & _ & Hray).
  apply returns_eq in Hray as ([t mi] & g0 & Eray & -> & Hmi & _ & Hrange).
  simpl in Hmi. subst mi.
  destruct Hrange as [Ht Hidx]; [discriminate|].
  destruct (py_index_in_range Carthing2.get_racing_track t g Ht)
    as (target & _ & Et).
  destruct (py_index_in_range Carthing2.get_racing_track idx g Hidx)
    as (closest & _ & En).
  exists t, idx, target, closest. auto.
Qed.

End Outcomes.

(** Run the computation at the head of the goal: a read of a key known to
    be present, a read of a key known to be absent, a division by a
    non-zero constant. *)
Ltac run_read :=
  first
    [ erewrite bind_Ok by (eapply py_num_present; eassumption)
    | erewrite bind_Raise by (apply py_num_None; eassumption)
    | erewrite bind_Ok by (apply py_div_nonzero; lra) ].

(** Run [reward_function] of carthing.py up to the look-up of the target
    waypoint, given the position and the track width. *)
Ltac run_to_target :=
  unfold Carthing.reward_function; cbv zeta; cbn [fst snd];
  repeat run_read;
  lazymatch goal with
  | |- context [Carthing.draw_ray ?p _ ?sight] =>
      lazymatch goal with
      | |- _ ?g = _ =>
          let t := fresh "t" in
          let idx := fresh "idx" in
          let target := fresh "target" in
          let nearest := fresh "nearest" in
          let Eray := fresh "Eray" in
          let Et := fresh "Et" in
          let En := fresh "En" in
          destruct (locate_on_track p sight g) as
            (t & idx & target & nearest & Eray & Et & En);
          [eauto|eauto|eauto|];
          rewrite (bind_Ok _ _ _ _ _ Eray); cbv beta iota;
          rewrite (bind_Ok _ _ _ _ _ Et)
      end
  end.

Section Outcomes1.

Lemma has_required_lookups p vx vy vh va vs vw vp :
  p !! "x" = Some vx -> p !! "y" = Some vy -> p !! "heading" = Some vh ->
  p !! "steering_angle" = Some va -> p !! "speed" = Some vs ->
  p !! "track_width" = Some vw -> p !! "progress" = Some vp ->
  has_required p.
Proof.
  intros Hx Hy Hh Ha Hs Hw Hp k Hk. simpl in Hk.
  repeat (destruct Hk as [<-|Hk]; [eauto|]). contradiction.
Qed.

(** The outcome of [reward_function] of carthing.py on any telemetry. *)
Lemma additive_outcome p g :
  match first_missing p
          ["x"; "y"; "track_width"; "heading"; "steering_angle"; "speed"] with
  | Some k => Carthing.reward_function p g = (Raise (KeyError k), g)
  | None =>
      if Req_dec_T (tele p "track_width") 0 then
        Carthing.reward_function p g = (Raise ZeroDivisionError, g)
      else
        match p !! "progress" with
        | None =>
            Carthing.reward_function p g = (Raise (KeyError "progress"), g)
        | Some _ => has_required p
        end
  end.
Proof.
  unfold first_missing.
  destruct (p !! "x") as [vx|] eqn:Ex.
  2:{ unfold Carthing.reward_function. cbv zeta. cbn [fst snd].
      now repeat run_read. }
  destruct (p !! "y") as [vy|] eqn:Ey.
  2:{ unfold Carthing.reward_function. cbv zeta. cbn [fst snd].
      now repeat run_read. }
  destruct (p !! "track_width") as [vw|] eqn:Ew.
  2:{ unfold Carthing.reward_function. cbv zeta. cbn [fst snd].
      repeat run_read. unfold Carthing.draw_ray.
      erewrite bind_Raise; [reflexivity|]. now repeat run_read. }
  destruct (p !! "heading") as [vh|] eqn:Eh.
  2:{ run_to_target. unfold Carthing.score_steering.
      erewrite bind_Raise; [reflexivity|]. now repeat run_read. }
  destruct (p !! "steering_angle") as [va|] eqn:Ea.
  2:{ run_to_target. unfold Carthing.score_steering.
      erewrite bind_Raise; [reflexivity|]. now repeat run_read. }
  assert (Hx : is_Some (p !! "x")) by eauto.
  assert (Hy : is_Some (p !! "y")) by eauto.
  assert (Hw : is_Some (p !! "track_width")) by eauto.
  assert (Hh : is_Some (p !! "heading")) by eauto.
  assert (Ha : is_Some (p !! "steering_angle")) by eauto.
  destruct (p !! "speed") as [vs|] eqn:Es.
  2:{ run_to_target.
      rewrite (bind_Ok _ _ _ _ _ (score_steering_value p g target Hx Hy Hh Ha)).
      rewrite (bind_Ok _ _ _ _ _ En). unfold Carthing.score_speed.
      erewrite bind_Raise; [reflexivity|]. now repeat run_read. }
  assert (Hs : is_Some (p !! "speed")) by eauto.
  destruct (Req_dec_T (tele p "track_width") 0) as [Hz|Hnz].
  { run_to_target.
    rewrite (bind_Ok _ _ _ _ _ (score_steering_value p g target Hx Hy Hh Ha)).
    rewrite (bind_Ok _ _ _ _ _ En).
    rewrite (bind_Ok _ _ _ _ _ (score_speed_value p g nearest Hs)).
    rewrite (bind_Ok _ _ _ _ _ En).
    now rewrite (bind_Raise _ _ _ _ _
                   (score_center_zero_width p g nearest Hw Hx Hy Hz)). }
  destruct (p !! "progress") as [vp|] eqn:Ep.
  - eapply has_required_lookups; eassumption.
  - run_to_target.
    rewrite (bind_Ok _ _ _ _ _ (score_steering_value p g target Hx Hy Hh Ha)).
    rewrite (bind_Ok _ _ _ _ _ En).
    rewrite (bind_Ok _ _ _ _ _ (score_speed_value p g nearest Hs)).
    rewrite (bind_Ok _ _ _ _ _ En).
    rewrite (bind_Ok _ _ _ _ _ (score_center_value p g nearest Hw Hx Hy Hnz)).
    unfold Carthing.score_progress.
    erewrite bind_Raise; [reflexivity|]. now repeat run_read.
Qed.

End Outcomes1.

(** The same for carthing2.py, past the off-track gate. *)
Ltac run_to_target2 :=
  cbv zeta; cbn [fst snd];
  repeat run_read;
  lazymatch goal with
  | |- context [Carthing2.draw_ray ?p _ ?sight] =>
      lazymatch goal with
      | |- _ ?g = _ =>
          let t := fresh "t" in
          let idx := fresh "idx" in
          let target := fresh "target" in
          let closest := fresh "closest" in
          let Eray := fresh "Eray" in
          let Et := fresh "Et" in
          let En := fresh "En" in
          destruct (locate_on_track2 p sight g) as
            (t & idx & target & closest & Eray & Et & En);
          [eauto|eauto|eauto|];
          rewrite (bind_Ok _ _ _ _ _ Eray); cbv beta iota;
          rewrite (bind_Ok _ _ _ _ _ Et)
      end
  end.

Section Outcomes2.

(** The outcome of [reward_function] of carthing2.py on any telemetry. *)
Lemma weighted_outcome p g :
  match p !! "is_offtrack" with
  | None =>
      Carthing2.reward_function p g = (Raise (KeyError "is_offtrack"), g)
  | Some v =>
      if truthy v then Carthing2.reward_function p g = (Ok 1e-3, g)
      else
        match first_missing p
                ["x"; "y"; "track_width"; "heading"; "steering_angle";
                 "speed"; "progress"] with
        | Some k => Carthing2.reward_function p g = (Raise (KeyError k), g)
        | None => has_required p
        end
  end.
Proof.
  destruct (p !! "is_offtrack") as [v|] eqn:Ev;
    [|now apply reward_function2_no_flag].
  destruct (truthy v) eqn:Ht; [now apply (reward_function2_offtrack p g v)|].
  unfold first_missing.
  assert (Hgate : forall c : Carthing2.M R,
            (offtrack <- py_item p "is_offtrack";;
             if truthy offtrack then ret 1e-3 else c) g = c g).
  { intros c. rewrite (bind_Ok _ _ _ _ _ (py_item_Some _ _ _ g Ev)).
    now rewrite Ht. }
  destruct (p !! "x") as [vx|] eqn:Ex.
  2:{ unfold Carthing2.reward_function. rewrite Hgate.
      cbv zeta. cbn [fst snd]. now repeat run_read. }
  destruct (p !! "y") as [vy|] eqn:Ey.
  2:{ unfold Carthing2.reward_function. rewrite Hgate.
      cbv zeta. cbn [fst snd]. now repeat run_read. }
  destruct (p !! "track_width") as [vw|] eqn:Ew.
  2:{ unfold Carthing2.reward_function. rewrite Hgate.
      cbv zeta. cbn [fst snd].
      repeat run_read. unfold Carthing2.draw_ray.
      erewrite bind_Raise; [reflexivity|]. now repeat run_read. }
  destruct (p !! "heading") as [vh|] eqn:Eh.
  2:{ unfold Carthing2.reward_function. rewrite Hgate. run_to_target2.
      unfold Carthing2.score_steering.
      erewrite bind_Raise; [reflexivity|]. now repeat run_read. }
  destruct (p !! "steering_angle") as [va|] eqn:Ea.
  2:{ unfold Carthing2.reward_function. rewrite Hgate. run_to_target2.
      unfold Carthing2.score_steering.
      erewrite bind_Raise; [reflexivity|]. now repeat run_read. }
  assert (Hx : is_Some (p !! "x")) by eauto.
  assert (Hy : is_Some (p !! "y")) by eauto.
  assert (Hw : is_Some (p !! "track_width")) by eauto.
  assert (Hh : is_Some (p !! "heading")) by eauto.
  assert (Ha : is_Some (p !! "steering_angle")) by eauto.
  destruct (p !! "speed") as [vs|] eqn:Es.
  2:{ unfold Carthing2.reward_function. rewrite Hgate. run_to_target2.
      rewrite (bind_Ok _ _ _ _ _
                 (score_steering2_value p g target Hx Hy Hh Ha)).
      unfold Carthing2.score_speed.
      erewrite bind_Raise; [reflexivity|]. now repeat run_read. }
  assert (Hs : is_Some (p !! "speed")) by eauto.
  destruct (p !! "progress") as [vp|] eqn:Ep.
  - eapply has_required_lookups; eassumption.
  - unfold Carthing2.reward_function. rewrite Hgate. run_to_target2.
    rewrite (bind_Ok _ _ _ _ _
               (score_steering2_value p g target Hx Hy Hh Ha)).
    rewrite (bind_Ok _ _ _ _ _ (score_speed2_value p g Hs)).
    rewrite (bind_Ok _ _ _ _ _ En).
    rewrite (bind_Ok _ _ _ _ _ (score_center2_value p g closest Hx Hy)).
    unfold Carthing2.score_progress.
    erewrite bind_Raise; [reflexivity|]. now repeat run_read.
Qed.

End Outcomes2.

(* ===================================================================== *)
(** * Zero track width                                                     *)
(* ===================================================================== *)

Section ZeroWidth.

Lemma distances_nonneg car wps i d : distances car wps !! i = Some d -> 0 <= d.
Proof.
  unfold distances. rewrite list_lookup_fmap.
  destruct (wps !! i); simpl; [|discriminate].
  intros H; inversion H. apply get_distance_nonneg.
Qed.

Lemma distances2_nonneg car wps i d :
  distances2 car wps !! i = Some d -> 0 <= d.
Proof.
  unfold distances2. rewrite list_lookup_fmap.
  destruct (wps !! i); simpl; [|discriminate].
  intros H; inversion H. apply get_distance2_nonneg.
Qed.

(** With a zero target distance the look-ahead stops at its first offset. *)
Lemma look_ahead_zero dl idx n hi t :
  (forall i d, dl !! i = Some d -> 0 <= d) ->
  look_ahead dl idx n 0 hi idx t -> (5 < hi)%Z ->
  t = ((idx + 5) mod n)%Z.
Proof.
  intros Hpos [_ Hla] Hhi.
  destruct (Hla Hhi) as (k & Hk & -> & Hbefore & _).
  destruct (Z.eq_dec k 5%Z) as [->|Hne]; [reflexivity|].
  destruct (Hbefore 5%Z ltac:(lia)) as (d & Hd & Hlt).
  specialize (Hpos _ _ Hd). lra.
Qed.

Lemma weighted_never_divides_by_zero p g :
  ~ raises (Carthing2.reward_function p) g ZeroDivisionError.
Proof.
  unfold raises. pose proof (weighted_outcome p g) as H.
  destruct (p !! "is_offtrack") as [v|] eqn:Ev.
  - destruct (truthy v) eqn:Ht.
    + rewrite H. discriminate.
    + destruct (first_missing p _) as [k|] eqn:Ek.
      * rewrite H. discriminate.
      * destruct (reward_function2_value p g v Ev Ht H)
          as (target & closest & _ & _ & Hret).
        apply returns_eq in Hret as (r & g' & E & _).
        rewrite E. discriminate.
  - rewrite H. discriminate.
Qed.

Lemma additive_zero_width_raises p g :
  has_required p -> tele p "track_width" = 0 ->
  Carthing.reward_function p g = (Raise ZeroDivisionError, g).
Proof.
  intros Hreq Hz. pose proof (additive_outcome p g) as H.
  assert (Hm : first_missing p
            ["x"; "y"; "track_width"; "heading"; "steering_angle"; "speed"]
          = None).
  { apply first_missing_None. intros k Hk. apply Hreq. simpl in *. tauto. }
  rewrite Hm in H. destruct (Req_dec_T _ 0); [exact H|contradiction].
Qed.

Lemma zero_width_required : has_required (zero_width false).
Proof.
  intros k Hk. simpl in Hk.
  repeat (destruct Hk as [<-|Hk]; [eexists; reflexivity|]).
  contradiction.
Qed.

(** The zero-width telemetry without the off-track flag is still valid. *)
Lemma zero_width_unflagged_required :
  has_required (delete "is_offtrack" (zero_width false)).
Proof.
  intros k Hk. simpl in Hk.
  repeat (destruct Hk as [<-|Hk]; [eexists; reflexivity|]).
  contradiction.
Qed.

End ZeroWidth.

(** C8 (amended).  A zero track width gives a zero target distance, and in
    both variants the sight scan of [draw_ray] is then satisfied at once:
    with a non-empty window the target is the waypoint five places after the
    nearest one.  The weighted variant carthing2.py divides only by non-zero
    constants: it never raises a division-by-zero error, on any input.  On
    valid telemetry with zero track width it raises
    [KeyError('is_offtrack')] when the key [is_offtrack], which it reads
    before anything else, is absent, and returns a reward within
    [[reward_min, reward_max]] when that key is present.  The additive
    variant carthing.py divides by
    [track_width] in [score_center] without a guard: on otherwise valid
    telemetry it raises [ZeroDivisionError] when the track width is zero,
    and returns normally when it is not. *)
Theorem zero_track_width :
  (forall p sight wps g,
     is_Some (p !! "x") -> is_Some (p !! "y") ->
     is_Some (p !! "track_width") -> tele p "track_width" = 0 ->
     (5 < py_int (IZR (Z.of_nat (length wps)) * 0.1))%Z ->
     returns (Carthing.draw_ray p wps sight) g (fun ti _ =>
       fst ti = ((snd ti + 5) mod Z.of_nat (length wps))%Z))
  /\ (forall p sight wps g,
        is_Some (p !! "x") -> is_Some (p !! "y") ->
        is_Some (p !! "track_width") -> tele p "track_width" = 0 ->
        (5 < py_int (IZR (Z.of_nat (length wps)) * 0.1))%Z ->
        returns (Carthing2.draw_ray p wps sight) g (fun ti _ =>
          fst ti = ((snd ti + 5) mod Z.of_nat (length wps))%Z))
  /\ (forall p g, ~ raises (Carthing2.reward_function p) g ZeroDivisionError)
  /\ (forall p,
        has_required p -> tele p "track_width" = 0 ->
        (p !! "is_offtrack" = None ->
         Carthing2.reward_function p Carthing2.loaded
         = (Raise (KeyError "is_offtrack"), Carthing2.loaded))
        /\ (forall v,
              p !! "is_offtrack" = Some v ->
              returns (Carthing2.reward_function p) Carthing2.loaded
                (fun r _ =>
                   Carthing2.reward_min Carthing2.loaded <= r
                     <= Carthing2.reward_max Carthing2.loaded)))
  /\ (forall p g,
        has_required p ->
        (tele p "track_width" = 0 ->
         Carthing.reward_function p g = (Raise ZeroDivisionError, g))
        /\ (tele p "track_width" <> 0 ->
            returns (Carthing.reward_function p) g (fun _ _ => True))).
Proof.
  split; [|split; [|split; [|split]]].
  - intros p sight wps g Hx Hy Hw Hz Hhi.
    destruct (draw_ray_returns p wps sight g Hx Hy Hw)
      as (m & idx & _ & _ & Hret).
    eapply returns_mono; [exact Hret|]. simpl.
    intros [t mi] g' (_ & Hmi & Hla & _). simpl in *. subst mi.
    rewrite Hz, Rmult_0_l in Hla. rewrite py_int_tenth in Hhi.
    eapply look_ahead_zero; [|exact Hla|exact Hhi].
    apply distances_nonneg.
  - intros p sight wps g Hx Hy Hw Hz Hhi.
    destruct (draw_ray2_returns p wps sight g Hx Hy Hw)
      as (m & idx & _ & _ & Hret).
    eapply returns_mono; [exact Hret|]. simpl.
    intros [t mi] g' (_ & Hmi & Hla & _). simpl in *. subst mi.
    rewrite Hz, Rmult_0_l in Hla. rewrite py_int_tenth in Hhi.
    eapply look_ahead_zero; [|exact Hla|exact Hhi].
    apply distances2_nonneg.
  - apply weighted_never_divides_by_zero.
  - intros p Hreq _. split.
    + intros Hn. now apply reward_function2_no_flag.
    + intros v Hv.
      eapply returns_mono; [exact (weighted_reward_clamped p v Hv Hreq)|].
      simpl. intros r g' [_ H]. lra.
  - intros p g Hreq.
    pose proof (additive_outcome p g) as H.
    assert (Hm : first_missing p
              ["x"; "y"; "track_width"; "heading"; "steering_angle"; "speed"]
            = None).
    { apply first_missing_None. intros k Hk. apply Hreq. simpl in *. tauto. }
    rewrite Hm in H. split.
    + intros Hz. now apply additive_zero_width_raises.
    + intros Hnz.
      destruct (reward_function_value p g Hreq Hnz)
        as (target & nearest & _ & _ & Hret).
      eapply returns_mono; [exact Hret|]. auto.
Qed.

Lemma zero_track_width_witness :
  returns (Carthing.draw_ray (zero_width false) Carthing.get_racing_track 0.5)
    Carthing.loaded (fun ti _ =>
      fst ti = ((snd ti + 5)
                mod Z.of_nat (length Carthing.get_racing_track))%Z)
  /\ Carthing2.reward_function (delete "is_offtrack" (zero_width false))
       Carthing2.loaded
     = (Raise (KeyError "is_offtrack"), Carthing2.loaded)
  /\ returns (Carthing2.reward_function (zero_width false)) Carthing2.loaded
       (fun r _ =>
          Carthing2.reward_min Carthing2.loaded <= r
            <= Carthing2.reward_max Carthing2.loaded)
  /\ Carthing.reward_function (zero_width false) Carthing.loaded
     = (Raise ZeroDivisionError, Carthing.loaded)
  /\ returns (Carthing.reward_function (on_waypoint_0 0)) Carthing.loaded
       (fun _ _ => True).
Proof.
  destruct zero_track_width as (H1 & _ & _ & H4 & H5).
  split; [|split; [|split; [|split]]].
  - apply H1.
    + eexists; reflexivity.
    + eexists; reflexivity.
    + eexists; reflexivity.
    + reflexivity.
    + rewrite py_int_tenth, racing_track_length. simpl. lia.
  - apply (proj1 (H4 (delete "is_offtrack" (zero_width false))
                    zero_width_unflagged_required eq_refl)).
    reflexivity.
  - apply (proj2 (H4 (zero_width false) zero_width_required eq_refl)
             (VBool false)).
    reflexivity.
  - apply (proj1 (H5 (zero_width false) Carthing.loaded zero_width_required)).
    reflexivity.
  - apply (proj2 (H5 (on_waypoint_0 0) Carthing.loaded
                    (on_waypoint_0_required 0))).
    rewrite on_waypoint_0_width. lra.
Defined.

(** C8, as stated, fails for the additive variant: on the example telemetry
    with [track_width = 0] the call raises [ZeroDivisionError]. *)
Lemma additive_zero_width_divides_by_zero :
  tele (zero_width false) "track_width" = 0
  /\ has_required (zero_width false)
  /\ raises (Carthing.reward_function (zero_width false)) Carthing.loaded
       ZeroDivisionError.
Proof.
  split; [reflexivity|]. split; [apply zero_width_required|].
  unfold raises.
  now rewrite (additive_zero_width_raises _ Carthing.loaded
                 zero_width_required eq_refl).
Qed.

(* ===================================================================== *)
(** * Missing and extra keys                                               *)
(* ===================================================================== *)

Section Keys.

Lemma py_item_ext {S} (p p' : gmap string value) k :
  p !! k = p' !! k -> @py_item S p k = @py_item S p' k.
Proof. intros H. unfold py_item. now rewrite H. Qed.

Lemma py_num_ext {S} (p p' : gmap string value) k :
  p !! k = p' !! k -> @py_num S p k = @py_num S p' k.
Proof. intros H. unfold py_num. now rewrite (py_item_ext p p' k H). Qed.

(** [reward_function] of carthing.py looks at the required keys only. *)
Lemma additive_reads_required p p' :
  (forall k, In k required_keys -> p !! k = p' !! k) ->
  Carthing.reward_function p = Carthing.reward_function p'.
Proof.
  intros H.
  assert (E : forall k, In k required_keys ->
                @py_num Carthing.globals p k = @py_num Carthing.globals p' k)
    by (intros k Hk; apply py_num_ext, H, Hk).
  unfold Carthing.reward_function, Carthing.draw_ray, Carthing.score_steering,
    Carthing.score_speed, Carthing.score_center, Carthing.score_progress,
    Carthing.score_speed_steering.
  rewrite (E "x"), (E "y"), (E "heading"), (E "steering_angle"),
    (E "speed"), (E "track_width"), (E "progress") by (simpl; tauto).
  reflexivity.
Qed.

(** [reward_function] of carthing2.py looks at the off-track flag and the
    required keys only. *)
Lemma weighted_reads_required p p' :
  p !! "is_offtrack" = p' !! "is_offtrack" ->
  (forall k, In k required_keys -> p !! k = p' !! k) ->
  Carthing2.reward_function p = Carthing2.reward_function p'.
Proof.
  intros Hf H.
  assert (E : forall k, In k required_keys ->
                @py_num Carthing2.globals p k = @py_num Carthing2.globals p' k)
    by (intros k Hk; apply py_num_ext, H, Hk).
  unfold Carthing2.reward_function, Carthing2.draw_ray,
    Carthing2.score_steering, Carthing2.score_speed, Carthing2.score_center,
    Carthing2.score_progress.
  rewrite (py_item_ext p p' _ Hf).
  rewrite (E "x"), (E "y"), (E "heading"), (E "steering_angle"),
    (E "speed"), (E "track_width"), (E "progress") by (simpl; tauto).
  reflexivity.
Qed.

(** A required key is missing: the first missing key in reading order is
    one of the required keys. *)
Lemma first_missing_required p keys k :
  (forall k', In k' keys -> In k' required_keys) ->
  In k keys -> p !! k = None ->
  exists k', first_missing p keys = Some k'
             /\ In k' required_keys /\ p !! k' = None.
Proof.
  intros Hsub Hk Hnone.
  destruct (first_missing p keys) as [k'|] eqn:E.
  - destruct (first_missing_Some _ _ _ E). eauto.
  - rewrite first_missing_None in E. destruct (E k Hk) as [v Hv]. congruence.
Qed.

End Keys.

(** C9 (amended).  Neither variant substitutes a default for a missing
    required key, and neither looks at keys it does not know.  In the
    additive variant carthing.py a mapping that lacks a required key always
    makes [reward_function] raise, leaving the globals untouched: Python's
    [KeyError] naming a required key that is absent, unless the track width
    is zero, in which case the [ZeroDivisionError] of [score_center] can come
    first.  In the weighted variant carthing2.py the flag ["is_offtrack"] is
    read first: its absence raises [KeyError]; when it is false a missing
    required key raises [KeyError] naming a required key that is absent.
    In both variants two mappings that agree on the keys read give the same
    computation. *)
Theorem missing_key_raises :
  (forall p g k,
     In k required_keys -> p !! k = None ->
     exists e,
       Carthing.reward_function p g = (Raise e, g)
       /\ ((exists k', e = KeyError k' /\ In k' required_keys
                       /\ p !! k' = None)
           \/ (e = ZeroDivisionError /\ tele p "track_width" = 0)))
  /\ (forall p g k v,
        p !! "is_offtrack" = Some v -> truthy v = false ->
        In k required_keys -> p !! k = None ->
        exists k',
          Carthing2.reward_function p g = (Raise (KeyError k'), g)
          /\ In k' required_keys /\ p !! k' = None)
  /\ (forall p g,
        p !! "is_offtrack" = None ->
        Carthing2.reward_function p g = (Raise (KeyError "is_offtrack"), g))
  /\ (forall p p',
        (forall k, In k required_keys -> p !! k = p' !! k) ->
        Carthing.reward_function p = Carthing.reward_function p')
  /\ (forall p p',
        p !! "is_offtrack" = p' !! "is_offtrack" ->
        (forall k, In k required_keys -> p !! k = p' !! k) ->
        Carthing2.reward_function p = Carthing2.reward_function p').
Proof.
  split; [|split; [|split; [|split]]].
  - intros p g k Hk Hnone.
    pose proof (additive_outcome p g) as H.
    destruct (first_missing p _) as [k'|] eqn:E.
    + exists (KeyError k'). split; [exact H|]. left. exists k'.
      destruct (first_missing_Some _ _ _ E) as [Hin Hn].
      split; [reflexivity|]. split; [simpl in *; tauto|exact Hn].
    + destruct (Req_dec_T (tele p "track_width") 0) as [Hz|Hnz].
      * exists ZeroDivisionError. split; [exact H|]. now right.
      * rewrite first_missing_None in E.
        assert (Hp : p !! "progress" = None).
        { simpl in Hk.
          repeat (destruct Hk as [<-|Hk];
                  [first [exact Hnone
                         |match type of Hnone with
                          | _ !! ?k0 = None =>
                              destruct (E k0) as [w Hw];
                              [simpl; tauto|congruence]
                          end]|]).
          contradiction. }
        rewrite Hp in H. exists (KeyError "progress").
        split; [exact H|]. left. exists "progress".
        split; [reflexivity|]. split; [simpl; tauto|exact Hp].
  - intros p g k v Hv Ht Hk Hnone.
    pose proof (weighted_outcome p g) as H. rewrite Hv, Ht in H.
    destruct (first_missing_required p
                ["x"; "y"; "track_width"; "heading"; "steering_angle";
                 "speed"; "progress"] k) as (k' & E & Hin & Hn).
    + intros k0 H0. simpl in *. tauto.
    + simpl in *. tauto.
    + exact Hnone.
    + rewrite E in H. exists k'. auto.
  - intros p g Hnone. now apply reward_function2_no_flag.
  - apply additive_reads_required.
  - apply weighted_reads_required.
Qed.

Lemma missing_key_raises_witness :
  (exists e,
     Carthing.reward_function (delete "speed" (on_waypoint_0 0))
       Carthing.loaded = (Raise e, Carthing.loaded))
  /\ (exists k',
        Carthing2.reward_function
          (delete "speed" (on_waypoint_0_flagged false 0)) Carthing2.loaded
        = (Raise (KeyError k'), Carthing2.loaded))
  /\ Carthing2.reward_function (on_waypoint_0 0) Carthing2.loaded
     = (Raise (KeyError "is_offtrack"), Carthing2.loaded)
  /\ Carthing.reward_function (on_waypoint_0_flagged false 0)
     = Carthing.reward_function (on_waypoint_0 0).
Proof.
  destruct missing_key_raises as (H1 & H2 & H3 & H4 & _).
  split; [|split; [|split]].
  - destruct (H1 (delete "speed" (on_waypoint_0 0)) Carthing.loaded "speed")
      as (e & E & _).
    + simpl; tauto.
    + reflexivity.
    + exists e. exact E.
  - destruct (H2 (delete "speed" (on_waypoint_0_flagged false 0))
                Carthing2.loaded "speed" (VBool false))
      as (k' & E & _).
    + reflexivity.
    + reflexivity.
    + simpl; tauto.
    + reflexivity.
    + exists k'. exact E.
  - apply H3. reflexivity.
  - apply H4. intros k Hk. simpl in Hk.
    repeat (destruct Hk as [<-|Hk]; [reflexivity|]). contradiction.
Defined.

(** C9, as stated, fails for the weighted variant: a mapping that holds
    nothing but a true off-track flag lacks every required key, and the call
    still returns the minimum reward instead of failing. *)
Lemma offtrack_hides_missing_keys :
  In "x" required_keys
  /\ ({[ "is_offtrack" := VBool true ]} : gmap string value) !! "x" = None
  /\ Carthing2.reward_function {[ "is_offtrack" := VBool true ]}
       Carthing2.loaded = (Ok 0.001, Carthing2.loaded)
  /\ ~ fails (Carthing2.reward_function {[ "is_offtrack" := VBool true ]})
         Carthing2.loaded.
Proof.
  assert (E : Carthing2.reward_function {[ "is_offtrack" := VBool true ]}
                Carthing2.loaded = (Ok 0.001, Carthing2.loaded)).
  { apply (reward_function2_offtrack _ _ (VBool true)); reflexivity. }
  split; [simpl; tauto|]. split; [reflexivity|]. split; [exact E|].
  intros [e He]. unfold raises in He. rewrite E in He. discriminate.
Qed.

(* ===================================================================== *)
(** * Carried state                                                        *)
(* ===================================================================== *)

Section CarriedState.

(** No call of the weighted reward function changes a module global. *)
Lemma weighted_keeps_globals p g :
  snd (Carthing2.reward_function p g) = g.
Proof.
  pose proof (weighted_outcome p g) as H.
  destruct (p !! "is_offtrack") as [v|] eqn:Ev; [|now rewrite H].
  destruct (truthy v) eqn:Ht; [now rewrite H|].
  destruct (first_missing p _) as [k|] eqn:Ek; [now rewrite H|].
  destruct (reward_function2_value p g v Ev Ht H)
    as (target & closest & _ & _ & Hret).
  apply returns_eq in Hret as (r & g' & E & -> & _). now rewrite E.
Qed.

(** A sequence of calls of a function that keeps the globals is a map. *)
Lemma run_keeps {S} (f : gmap string value -> Py.M S R) :
  (forall p s, snd (f p s) = s) ->
  forall calls s, run f calls s = map (fun p => fst (f p s)) calls.
Proof.
  intros Hf. induction calls as [|p rest IH]; intros s; simpl; [reflexivity|].
  specialize (Hf p s). destruct (f p s) as [r s']. simpl in *. subst s'.
  now rewrite IH.
Qed.

(** Two calls of the additive reward function on the same telemetry, the
    progress being 100 percent: the first reward counts the progress made
    since [last_progress = 0], the second counts none. *)
Lemma additive_repeated_call :
  exists r1 r2,
    run Carthing.reward_function [on_waypoint_0 100; on_waypoint_0 100]
      Carthing.loaded = [Ok r1; Ok r2]
    /\ 500 < r1 /\ r2 < 21.
Proof.
  pose proof (additive_reward_sum (on_waypoint_0 100) Carthing.loaded
                configured_loaded (on_waypoint_0_required 100)) as H1.
  rewrite on_waypoint_0_width, on_waypoint_0_progress in H1.
  specialize (H1 ltac:(lra)).
  apply returns_eq in H1
    as (r1 & g1 & E1 & -> & s1 & s2 & s3 & s5 & B1 & B2 & B3 & B5 & ->).
  pose proof (additive_reward_sum (on_waypoint_0 100)
                (Carthing.set_last_progress 100 Carthing.loaded)
                (configured_set_last_progress _ _ configured_loaded)
                (on_waypoint_0_required 100)) as H2.
  rewrite on_waypoint_0_width, on_waypoint_0_progress in H2.
  specialize (H2 ltac:(lra)).
  apply returns_eq in H2
    as (r2 & g2 & E2 & -> & t1 & t2 & t3 & t5 & C1 & C2 & C3 & C5 & ->).
  eexists _, _. split.
  - simpl. rewrite E1, E2. reflexivity.
  - simpl Carthing.last_progress. unfold py_max.
    destruct (Rlt_dec _ 0.001), (Rlt_dec _ 0.001); split; lra.
Qed.

End CarriedState.

(** C10.  The weighted variant's [reward_function] is stateless: a call
    leaves every module global as it found it, so in any sequence of calls,
    from any globals, two calls with equal telemetry have equal outcomes.
    The additive variant is not: two successive calls on the same telemetry
    give different rewards, because the first call changes
    [last_progress]. *)
Theorem weighted_is_stateless :
  (forall p g, snd (Carthing2.reward_function p g) = g)
  /\ (forall calls g i j p,
        calls !! i = Some p -> calls !! j = Some p ->
        run Carthing2.reward_function calls g !! i
        = Some (fst (Carthing2.reward_function p g))
        /\ run Carthing2.reward_function calls g !! j
           = run Carthing2.reward_function calls g !! i)
  /\ (exists p r1 r2,
        run Carthing.reward_function [p; p] Carthing.loaded = [Ok r1; Ok r2]
        /\ r1 <> r2).
Proof.
  split; [exact weighted_keeps_globals|]. split.
  - intros calls g i j p Hi Hj.
    rewrite (run_keeps _ weighted_keeps_globals).
    rewrite !list_lookup_fmap, Hi, Hj. split; reflexivity.
  - destruct additive_repeated_call as (r1 & r2 & E & H1 & H2).
    exists (on_waypoint_0 100), r1, r2. split; [exact E|lra].
Qed.

Lemma weighted_is_stateless_witness :
  run Carthing2.reward_function
    [on_waypoint_0_flagged false 0; on_waypoint_0_flagged true 0;
     on_waypoint_0_flagged false 0] Carthing2.loaded !! 2%nat
  = run Carthing2.reward_function
      [on_waypoint_0_flagged false 0; on_waypoint_0_flagged true 0;
       on_waypoint_0_flagged false 0] Carthing2.loaded !! 0%nat.
Proof.
  apply (proj1 (proj2 weighted_is_stateless)
           [on_waypoint_0_flagged false 0; on_waypoint_0_flagged true 0;
            on_waypoint_0_flagged false 0]
           Carthing2.loaded 0%nat 2%nat (on_waypoint_0_flagged false 0));
    reflexivity.
Defined.


(* ===================================================================== *)
(** * Further properties: distances                                        *)
(* ===================================================================== *)

Section Distance.

Lemma sqrt_sum_squares_zero a b : sqrt (a * a + b * b) = 0 -> a = 0 /\ b = 0.
Proof.
  intros H. apply sqrt_eq_0 in H; [|nra].
  split; nra.
Qed.

(** The triangle inequality for the Euclidean norm of the plane. *)
Lemma norm_triangle u1 u2 v1 v2 :
  sqrt ((u1 + v1) * (u1 + v1) + (u2 + v2) * (u2 + v2))
  <= sqrt (u1 * u1 + u2 * u2) + sqrt (v1 * v1 + v2 * v2).
Proof.
  set (U := sqrt (u1 * u1 + u2 * u2)).
  set (V := sqrt (v1 * v1 + v2 * v2)).
  assert (HU : 0 <= U) by apply sqrt_pos.
  assert (HV : 0 <= V) by apply sqrt_pos.
  assert (EU : U * U = u1 * u1 + u2 * u2) by (apply sqrt_sqrt; nra).
  assert (EV : V * V = v1 * v1 + v2 * v2) by (apply sqrt_sqrt; nra).
  assert (CS : (u1 * v1 + u2 * v2) * (u1 * v1 + u2 * v2) <= (U * V) * (U * V)).
  { replace (U * V * (U * V)) with ((U * U) * (V * V)) by ring.
    rewrite EU, EV.
    pose proof (Rle_0_sqr (u1 * v2 - u2 * v1)) as Hsq. unfold Rsqr in Hsq.
    replace ((u1 * u1 + u2 * u2) * (v1 * v1 + v2 * v2))
      with ((u1 * v1 + u2 * v2) * (u1 * v1 + u2 * v2)
            + (u1 * v2 - u2 * v1) * (u1 * v2 - u2 * v1)) by ring.
    lra. }
  assert (D : u1 * v1 + u2 * v2 <= U * V).
  { assert (0 <= U * V) by nra.
    destruct (Rle_dec (u1 * v1 + u2 * v2) (U * V)) as [L|L]; [exact L|].
    exfalso. nra. }
  rewrite <- (sqrt_square (U + V)) by lra.
  apply sqrt_le_1_alt. nra.
Qed.

Lemma get_distance2_same a b :
  Carthing2.get_distance a b = Carthing.get_distance a b.
Proof.
  unfold Carthing.get_distance, Carthing2.get_distance. f_equal. ring.
Qed.

Lemma get_distance_zero (a b : point) :
  Carthing.get_distance a b = 0 <-> a = b.
Proof.
  destruct a as [a1 a2], b as [b1 b2].
  unfold Carthing.get_distance, math_sqrt. simpl. split.
  - intros H. apply sqrt_sum_squares_zero in H as [H1 H2]. f_equal; lra.
  - intros H. inversion H; subst.
    replace ((b1 - b1) * (b1 - b1) + (b2 - b2) * (b2 - b2)) with 0 by ring.
    apply sqrt_0.
Qed.

End Distance.

(** X1.  [get_distance] is the Euclidean distance of the plane, and the two
    files compute the same function ([d * d] in carthing.py, [d ** 2] in
    carthing2.py): it is never negative, symmetric, zero exactly when the
    two points coincide, and satisfies the triangle inequality. *)
Theorem get_distance_metric :
  forall a b c : point,
    Carthing2.get_distance a b = Carthing.get_distance a b
    /\ 0 <= Carthing.get_distance a b
    /\ Carthing.get_distance a b = Carthing.get_distance b a
    /\ (Carthing.get_distance a b = 0 <-> a = b)
    /\ Carthing.get_distance a c
       <= Carthing.get_distance a b + Carthing.get_distance b c.
Proof.
  intros a b c.
  split; [apply get_distance2_same|]. split; [apply get_distance_nonneg|].
  split; [|split; [apply get_distance_zero|]];
    destruct a as [a1 a2], b as [b1 b2], c as [c1 c2];
    unfold Carthing.get_distance, math_sqrt; simpl.
  - f_equal. ring.
  - replace (a1 - c1) with ((a1 - b1) + (b1 - c1)) by ring.
    replace (a2 - c2) with ((a2 - b2) + (b2 - c2)) by ring.
    apply norm_triangle.
Qed.

(* ===================================================================== *)
(** * Further properties: the speed and centre scores                      *)
(* ===================================================================== *)

Section SpeedCentre.

Lemma score_speed_missing p t g :
  p !! "speed" = None ->
  Carthing.score_speed p t g = (Raise (KeyError "speed"), g).
Proof.
  intros H. unfold Carthing.score_speed.
  apply bind_Raise, py_num_None, H.
Qed.

Lemma score_speed2_missing p g :
  p !! "speed" = None ->
  Carthing2.score_speed p g = (Raise (KeyError "speed"), g).
Proof.
  intros H. unfold Carthing2.score_speed.
  apply bind_Raise, py_num_None, H.
Qed.

Lemma clamp_floor x lo hi :
  lo <= hi -> x <= lo -> py_max (py_min x hi) lo = lo.
Proof.
  intros H1 H2. unfold py_max, py_min.
  destruct (Rlt_dec hi x), (Rlt_dec _ lo); lra.
Qed.

(** A quotient by a positive width, compared with 0 and 1. *)
Lemma quotient_by_width a w :
  0 < w -> 0 <= a ->
  0 <= a / w /\ (a / w = 0 <-> a = 0) /\ (a / w <= 1 <-> a <= w)
  /\ (1 <= a / w <-> w <= a).
Proof.
  intros Hw Ha.
  assert (HI : 0 < / w) by now apply Rinv_0_lt_compat.
  assert (E : a / w * w = a) by (field; lra).
  split; [unfold Rdiv; nra|]. repeat split; intros H; nra.
Qed.

Lemma quotient_by_negative_width a w : w < 0 -> 0 <= a -> a / w <= 0.
Proof.
  intros Hw Ha.
  assert (HI : / w < 0) by now apply Rinv_lt_0_compat.
  unfold Rdiv. nra.
Qed.

Lemma score_center_missing p t g k :
  first_missing p ["track_width"; "x"; "y"] = Some k ->
  Carthing.score_center p t g = (Raise (KeyError k), g).
Proof.
  unfold first_missing, Carthing.score_center.
  destruct (p !! "track_width") eqn:Ew;
    [|intros H; inversion H; now repeat run_read].
  destruct (p !! "x") eqn:Ex; [|intros H; inversion H; now repeat run_read].
  destruct (p !! "y") eqn:Ey; [|intros H; inversion H; now repeat run_read].
  discriminate.
Qed.

Lemma score_center2_missing p t g k :
  first_missing p ["x"; "y"] = Some k ->
  Carthing2.score_center p t g = (Raise (KeyError k), g).
Proof.
  unfold first_missing, Carthing2.score_center.
  destruct (p !! "x") eqn:Ex; [|intros H; inversion H; now repeat run_read].
  destruct (p !! "y") eqn:Ey; [|intros H; inversion H; now repeat run_read].
  discriminate.
Qed.

End SpeedCentre.

(** X3.  The speed score of carthing.py compares the speed with the target
    speed stored in the waypoint.  Without the key ["speed"] it raises
    [KeyError].  Otherwise, with [d] the absolute deviation, the score is
    [1.001 - d / 3] while [d <= 3] and the floor [reward_min] from [d = 3]
    on; it is the full credit 1.001 exactly when the speed equals the target
    speed.  The globals are not touched. *)
Theorem speed_score_of_target :
  forall p t g,
    configured g ->
    (p !! "speed" = None ->
     Carthing.score_speed p t g = (Raise (KeyError "speed"), g))
    /\ (is_Some (p !! "speed") ->
        let d := Rabs (tele p "speed" - Carthing.wp_speed t) in
        exists r,
          Carthing.score_speed p t g = (Ok r, g)
          /\ (d <= 3 -> r = 1.001 - d / 3)
          /\ (3 <= d -> r = Carthing.reward_min g)
          /\ (r = 1.001 <-> tele p "speed" = Carthing.wp_speed t)).
Proof.
  intros p t g [Hmax Hmin]. split; [apply score_speed_missing|].
  intros Hs d. eexists. split; [apply score_speed_value, Hs|].
  fold d. rewrite Hmax, Hmin.
  assert (Hd : 0 <= d) by apply Rabs_pos.
  assert (Hz : d = 0 <-> tele p "speed" = Carthing.wp_speed t).
  { unfold d. split; intros H.
    - destruct (Req_dec (tele p "speed" - Carthing.wp_speed t) 0) as [E|E];
        [lra|]. apply Rabs_no_R0 in E. contradiction.
    - rewrite H, Rminus_diag. apply Rabs_R0. }
  rewrite <- Hz. unfold py_max, py_min.
  destruct (Rlt_dec 5.0 _), (Rlt_dec _ 0.001);
    (split; [|split; [|split]]); intros; lra.
Qed.

Lemma speed_score_of_target_witness :
  exists r,
    Carthing.score_speed (on_waypoint_0 0) (Carthing.WP 0 0 4) Carthing.loaded
      = (Ok r, Carthing.loaded)
    /\ (r = 1.001 <->
        tele (on_waypoint_0 0) "speed" = Carthing.wp_speed (Carthing.WP 0 0 4)).
Proof.
  destruct (proj2 (speed_score_of_target (on_waypoint_0 0) (Carthing.WP 0 0 4)
                     Carthing.loaded configured_loaded))
    as (r & E & _ & _ & H).
  - eexists; reflexivity.
  - exists r. split; [exact E|exact H].
Defined.

(** X4.  The speed score of carthing2.py looks at the speed alone, no
    waypoint: [(0.1 + (speed - 1) / 3) * reward_max] clamped.  Without the
    key ["speed"] it raises [KeyError].  Otherwise it is the floor 0.001 up
    to speed 0.7003, the linear value between 0.7003 and 3.7, the maximum
    10.0 from speed 3.7 on, and it never decreases when the speed grows.
    The globals are not touched. *)
Theorem speed_score_absolute :
  forall p,
    (p !! "speed" = None ->
     Carthing2.score_speed p Carthing2.loaded
       = (Raise (KeyError "speed"), Carthing2.loaded))
    /\ (is_Some (p !! "speed") ->
        let s := tele p "speed" in
        exists r,
          Carthing2.score_speed p Carthing2.loaded = (Ok r, Carthing2.loaded)
          /\ (s <= 0.7003 -> r = 0.001)
          /\ (0.7003 <= s <= 3.7 -> r = (0.1 + (s - 1) / 3) * 10)
          /\ (3.7 <= s -> r = 10)
          /\ forall p',
               is_Some (p' !! "speed") -> s <= tele p' "speed" ->
               exists r',
                 Carthing2.score_speed p' Carthing2.loaded
                   = (Ok r', Carthing2.loaded)
                 /\ r <= r').
Proof.
  intros p. split; [apply score_speed2_missing|].
  intros Hs s. eexists. split; [apply score_speed2_value, Hs|].
  fold s. simpl Carthing2.reward_max. simpl Carthing2.reward_min.
  split; [|split; [|split]].
  - intros H. apply clamp_floor; lra.
  - intros H. rewrite clamp_inside; lra.
  - intros H. rewrite clamp_above; lra.
  - intros p' Hs' Hle. eexists. split; [apply score_speed2_value, Hs'|].
    simpl Carthing2.reward_max. simpl Carthing2.reward_min.
    apply clamp_monotone. lra.
Qed.

Lemma speed_score_absolute_witness :
  exists r,
    Carthing2.score_speed (on_waypoint_0 0) Carthing2.loaded
      = (Ok r, Carthing2.loaded)
    /\ (3.7 <= tele (on_waypoint_0 0) "speed" -> r = 10).
Proof.
  destruct (proj2 (speed_score_absolute (on_waypoint_0 0)))
    as (r & E & _ & _ & H & _).
  - eexists; reflexivity.
  - exists r. split; [exact E|exact H].
Defined.

(** X5.  The centre score of carthing2.py rewards proximity to the closest
    waypoint and never reads the track width: it is [reward_max - dist]
    clamped.  It raises [KeyError] for the first of ["x"], ["y"] that is
    absent.  Otherwise it is [10 - dist] up to distance 9.999 and the floor
    0.001 beyond, and it is the maximum 10.0 exactly when the car sits on
    the waypoint. *)
Theorem centre_score_proximity :
  forall p t,
    (forall k,
       first_missing p ["x"; "y"] = Some k ->
       Carthing2.score_center p t Carthing2.loaded
         = (Raise (KeyError k), Carthing2.loaded))
    /\ (is_Some (p !! "x") -> is_Some (p !! "y") ->
        let dist :=
          Carthing2.get_distance (tele p "x", tele p "y") (Carthing2.xy t) in
        exists r,
          Carthing2.score_center p t Carthing2.loaded
            = (Ok r, Carthing2.loaded)
          /\ (dist <= 9.999 -> r = 10 - dist)
          /\ (9.999 <= dist -> r = 0.001)
          /\ (r = 10 <-> (tele p "x", tele p "y") = Carthing2.xy t)).
Proof.
  intros p t. split; [intros k; apply score_center2_missing|].
  intros Hx Hy dist. eexists. split; [now apply score_center2_value|].
  fold dist. simpl Carthing2.reward_max. simpl Carthing2.reward_min.
  assert (Hd : 0 <= dist) by apply get_distance2_nonneg.
  rewrite <- get_distance_zero, <- get_distance2_same. fold dist.
  unfold py_max, py_min.
  destruct (Rlt_dec 10.0 _), (Rlt_dec _ 0.001);
    (split; [|split; [|split]]); intros; lra.
Qed.

Lemma centre_score_proximity_witness :
  exists r,
    Carthing2.score_center (on_waypoint_0 0) (Carthing2.WP 1.17885 (-0.02819))
      Carthing2.loaded = (Ok r, Carthing2.loaded)
    /\ (r = 10 <->
        (tele (on_waypoint_0 0) "x", tele (on_waypoint_0 0) "y")
        = Carthing2.xy (Carthing2.WP 1.17885 (-0.02819))).
Proof.
  destruct (proj2 (centre_score_proximity (on_waypoint_0 0)
                     (Carthing2.WP 1.17885 (-0.02819))))
    as (r & E & _ & _ & H).
  - eexists; reflexivity.
  - eexists; reflexivity.
  - exists r. split; [exact E|exact H].
Defined.

(** X6.  The centre score of carthing.py is [1.001 - |w - dist| / w], with
    [w] the track width and [dist] the distance to the nearest waypoint,
    clamped.  It raises [KeyError] for the first of ["track_width"], ["x"],
    ["y"] that is absent and [ZeroDivisionError] when [w = 0].  For [w > 0]
    the score is the full credit 1.001 exactly at distance [w] from the
    waypoint, the linear value while [dist <= 2 * w], and the floor
    [reward_min] both from [dist = 2 * w] on and when the car sits on the
    waypoint itself.  For [w < 0] the score is at least 1.001. *)
Theorem centre_score_track_width :
  forall p t g,
    configured g ->
    (forall k,
       first_missing p ["track_width"; "x"; "y"] = Some k ->
       Carthing.score_center p t g = (Raise (KeyError k), g))
    /\ (is_Some (p !! "track_width") -> is_Some (p !! "x") ->
        is_Some (p !! "y") ->
        let w := tele p "track_width" in
        let dist :=
          Carthing.get_distance (tele p "x", tele p "y") (Carthing.xy t) in
        (w = 0 -> Carthing.score_center p t g = (Raise ZeroDivisionError, g))
        /\ (0 < w ->
            exists r,
              Carthing.score_center p t g = (Ok r, g)
              /\ (dist <= 2 * w -> r = 1.001 - Rabs (w - dist) / w)
              /\ (2 * w <= dist -> r = Carthing.reward_min g)
              /\ (r = 1.001 <-> dist = w)
              /\ ((tele p "x", tele p "y") = Carthing.xy t ->
                  r = Carthing.reward_min g))
        /\ (w < 0 ->
            exists r,
              Carthing.score_center p t g = (Ok r, g)
              /\ 1.001 <= r <= Carthing.reward_max g)).
Proof.
  intros p t g [Hmax Hmin]. split; [intros k; apply score_center_missing|].
  intros Hw Hx Hy w dist.
  assert (Hd : 0 <= dist) by apply get_distance_nonneg.
  split; [now apply score_center_zero_width|]. split.
  - intros Hpos. eexists.
    split; [apply score_center_value; auto; fold w; lra|].
    fold w dist. rewrite Hmax, Hmin.
    destruct (quotient_by_width (Rabs (w - dist)) w Hpos (Rabs_pos _))
      as (Q0 & Qz & Q1 & Q2).
    assert (A1 : Rabs (w - dist) <= w <-> dist <= 2 * w)
      by (unfold Rabs; destruct (Rcase_abs _); split; lra).
    assert (A2 : w <= Rabs (w - dist) <-> 2 * w <= dist \/ dist = 0)
      by (unfold Rabs; destruct (Rcase_abs _); split; lra).
    assert (A3 : Rabs (w - dist) = 0 <-> dist = w)
      by (unfold Rabs; destruct (Rcase_abs _); split; lra).
    assert (A4 : (tele p "x", tele p "y") = Carthing.xy t -> dist = 0)
      by (intros E; now apply get_distance_zero).
    set (q := Rabs (w - dist) / w) in *.
    split; [|split; [|split]].
    + intros H. apply clamp_inside. apply A1, Q1 in H. lra.
    + intros H. apply clamp_floor; [lra|].
      assert (1 <= q) by (apply Q2, A2; now left). lra.
    + rewrite <- A3, <- Qz. unfold py_max, py_min.
      destruct (Rlt_dec 5.0 _), (Rlt_dec _ 0.001); split; lra.
    + intros E. apply clamp_floor; [lra|].
      assert (1 <= q) by (apply Q2, A2; right; now apply A4). lra.
  - intros Hneg. eexists.
    split; [apply score_center_value; auto; fold w; lra|].
    fold w dist. rewrite Hmax, Hmin.
    pose proof (quotient_by_negative_width (Rabs (w - dist)) w Hneg
                  (Rabs_pos _)) as Q.
    unfold py_max, py_min.
    destruct (Rlt_dec 5.0 _), (Rlt_dec _ 0.001); lra.
Qed.

Lemma centre_score_track_width_witness :
  exists r,
    Carthing.score_center (on_waypoint_0 0) (Carthing.WP 1.17885 (-0.02819) 4)
      Carthing.loaded = (Ok r, Carthing.loaded)
    /\ r = Carthing.reward_min Carthing.loaded.
Proof.
  destruct (proj2 (centre_score_track_width (on_waypoint_0 0)
                     (Carthing.WP 1.17885 (-0.02819) 4) Carthing.loaded
                     configured_loaded))
    as (_ & H & _).
  - eexists; reflexivity.
  - eexists; reflexivity.
  - eexists; reflexivity.
  - destruct H as (r & E & _ & _ & _ & H).
    + rewrite on_waypoint_0_width. lra.
    + exists r. split; [exact E|]. apply H. reflexivity.
Defined.

(* ===================================================================== *)
(** * Further properties: speed against steering                           *)
(* ===================================================================== *)

Section Interaction.

Lemma score_speed_steering_missing p g k :
  first_missing p ["speed"; "steering_angle"] = Some k ->
  Carthing.score_speed_steering p g = (Raise (KeyError k), g).
Proof.
  unfold first_missing, Carthing.score_speed_steering.
  destruct (p !! "speed") eqn:Es;
    [|intros H; inversion H; now repeat run_read].
  destruct (p !! "steering_angle") eqn:Ea;
    [|intros H; inversion H; now repeat run_read].
  discriminate.
Qed.

Lemma interaction_even speed steering :
  interaction speed (- steering) = interaction speed steering.
Proof. unfold interaction. now rewrite Rabs_Ropp. Qed.

Lemma clamp_id' x lo hi :
  lo <= x <= hi -> py_max lo (py_min x hi) = x.
Proof.
  intros H. unfold py_max, py_min.
  destruct (Rlt_dec hi x), (Rlt_dec lo _); lra.
Qed.

End Interaction.

(** X7.  The speed-against-steering score of carthing.py raises [KeyError]
    for the first of ["speed"], ["steering_angle"] that is absent, and
    otherwise returns a value within [[reward_min, reward_max]] that depends
    on the steering only through its absolute value.  Driving straight
    scores exactly 1 at every speed.  At speed 2.5 or more the score is
    [1 - |steering| / 30 * speed / 4] (at most 1); at speed 1.5 or less it
    is [1 + |steering| / 30 * (1 - speed / 4)] (at least 1); in between it
    is [1 - |steering| / 60]; each as long as the value is inside the
    clamping range.  The globals are not touched. *)
Theorem speed_steering_score :
  forall p g,
    configured g ->
    (forall k,
       first_missing p ["speed"; "steering_angle"] = Some k ->
       Carthing.score_speed_steering p g = (Raise (KeyError k), g))
    /\ (is_Some (p !! "speed") -> is_Some (p !! "steering_angle") ->
        let speed := tele p "speed" in
        let a := Rabs (tele p "steering_angle") in
        exists r,
          Carthing.score_speed_steering p g = (Ok r, g)
          /\ Carthing.reward_min g <= r <= Carthing.reward_max g
          /\ (a = 0 -> r = 1)
          /\ (2.5 <= speed -> r <= 1)
          /\ (2.5 <= speed -> 0.001 <= 1 - a / 30 * (speed / 4) ->
              r = 1 - a / 30 * (speed / 4))
          /\ (speed <= 1.5 -> 1 <= r)
          /\ (speed <= 1.5 -> 1 + a / 30 * (1 - speed / 4) <= 5 ->
              r = 1 + a / 30 * (1 - speed / 4))
          /\ (1.5 < speed < 2.5 -> r <= 1)
          /\ (1.5 < speed < 2.5 -> a <= 59.94 -> r = 1 - a / 60)
          /\ forall p',
               is_Some (p' !! "speed") -> is_Some (p' !! "steering_angle") ->
               tele p' "speed" = speed ->
               tele p' "steering_angle" = - tele p "steering_angle" ->
               Carthing.score_speed_steering p' g = (Ok r, g)).
Proof.
  intros p g [Hmax Hmin]. split; [intros k; apply score_speed_steering_missing|].
  intros Hs Ha speed a. eexists.
  split; [now apply score_speed_steering_value|].
  fold speed. rewrite Hmax, Hmin.
  assert (H0 : 0 <= a) by apply Rabs_pos.
  split; [apply clamp_bounds'; lra|].
  assert (Shape :
    forall v, interaction speed (tele p "steering_angle") = v ->
      (a = 0 -> v = 1)
      /\ (2.5 <= speed -> v = 1 - a / 30 * (speed / 4) /\ v <= 1)
      /\ (speed <= 1.5 -> v = 1 + a / 30 * (1 - speed / 4) /\ 1 <= v)
      /\ (1.5 < speed < 2.5 -> v = 1 - a / 60 /\ v <= 1)).
  { intros v <-. unfold interaction. fold a.
    destruct (Rge_dec speed 2.5); [|destruct (Rle_dec speed 1.5)];
      (split; [intros ->; lra|]);
      (split; [|split]); intros H; try lra; split; try lra; nra. }
  destruct (Shape _ eq_refl) as (S0 & S1 & S2 & S3).
  set (v := interaction speed (tele p "steering_angle")) in *.
  split; [intros H; rewrite clamp_id'; [now apply S0|rewrite (S0 H); lra]|].
  split; [intros H; destruct (S1 H); unfold py_max, py_min;
          destruct (Rlt_dec 5.0 v), (Rlt_dec 0.001 _); lra|].
  split; [intros H Hv; destruct (S1 H) as [E _]; rewrite <- E in *;
          apply clamp_id'; lra|].
  split; [intros H; destruct (S2 H); unfold py_max, py_min;
          destruct (Rlt_dec 5.0 v), (Rlt_dec 0.001 _); lra|].
  split; [intros H Hv; destruct (S2 H) as [E _]; rewrite <- E in *;
          apply clamp_id'; lra|].
  split; [intros H; destruct (S3 H); unfold py_max, py_min;
          destruct (Rlt_dec 5.0 v), (Rlt_dec 0.001 _); lra|].
  split; [intros H Hv; destruct (S3 H) as [E _]; rewrite <- E in *;
          apply clamp_id'; lra|].
  intros p' Hs' Ha' Es Ea.
  rewrite score_speed_steering_value by assumption.
  rewrite Es, Ea, interaction_even, Hmax, Hmin. reflexivity.
Qed.

Lemma speed_steering_score_witness :
  exists r,
    Carthing.score_speed_steering (on_waypoint_0 0) Carthing.loaded
      = (Ok r, Carthing.loaded)
    /\ r = 1.
Proof.
  destruct (proj2 (speed_steering_score (on_waypoint_0 0) Carthing.loaded
                     configured_loaded))
    as (r & E & _ & H & _).
  - eexists; reflexivity.
  - eexists; reflexivity.
  - exists r. split; [exact E|]. apply H.
    change (tele (on_waypoint_0 0) "steering_angle") with 0. apply Rabs_R0.
Defined.

(* ===================================================================== *)
(** * Further properties: the absolute progress score                      *)
(* ===================================================================== *)

Section AbsoluteProgress.

Lemma score_progress2_missing p g :
  p !! "progress" = None ->
  Carthing2.score_progress p g = (Raise (KeyError "progress"), g).
Proof.
  intros H. unfold Carthing2.score_progress.
  apply bind_Raise, py_num_None, H.
Qed.

Lemma score_progress_missing p g :
  p !! "progress" = None ->
  Carthing.score_progress p g = (Raise (KeyError "progress"), g).
Proof.
  intros H. unfold Carthing.score_progress.
  apply bind_Raise, py_num_None, H.
Qed.

End AbsoluteProgress.

(** X8.  The progress score of carthing2.py scales the progress percentage
    itself, [progress / 100 * reward_max] clamped, and keeps no state: a
    call never changes a global, so repeating it gives the same score.
    Without the key ["progress"] it raises [KeyError].  Otherwise the score
    is the floor 0.001 up to 0.01 percent, [progress / 10] between 0.01 and
    100 percent, and the maximum 10.0 from 100 percent on. *)
Theorem progress_score_absolute :
  forall p,
    (p !! "progress" = None ->
     Carthing2.score_progress p Carthing2.loaded
       = (Raise (KeyError "progress"), Carthing2.loaded))
    /\ (is_Some (p !! "progress") ->
        let pr := tele p "progress" in
        exists r,
          Carthing2.score_progress p Carthing2.loaded
            = (Ok r, Carthing2.loaded)
          /\ (pr <= 0.01 -> r = 0.001)
          /\ (0.01 <= pr <= 100 -> r = pr / 10)
          /\ (100 <= pr -> r = 10)).
Proof.
  intros p. split; [apply score_progress2_missing|].
  intros Hp pr. eexists. split; [apply score_progress2_value, Hp|].
  fold pr. simpl Carthing2.reward_max. simpl Carthing2.reward_min.
  split; [|split].
  - intros H. apply clamp_floor; lra.
  - intros H. rewrite clamp_inside; lra.
  - intros H. rewrite clamp_above; lra.
Qed.

Lemma progress_score_absolute_witness :
  exists r,
    Carthing2.score_progress (on_waypoint_0 50) Carthing2.loaded
      = (Ok r, Carthing2.loaded)
    /\ r = tele (on_waypoint_0 50) "progress" / 10.
Proof.
  destruct (proj2 (progress_score_absolute (on_waypoint_0 50)))
    as (r & E & _ & H & _).
  - eexists; reflexivity.
  - exists r. split; [exact E|]. apply H.
    rewrite on_waypoint_0_progress. lra.
Defined.

(* ===================================================================== *)
(** * Further properties: the indices of the target locator                *)
(* ===================================================================== *)

Section LocatorIndices.

Lemma draw_ray_missing p wps sight g k :
  first_missing p ["x"; "y"; "track_width"] = Some k ->
  Carthing.draw_ray p wps sight g = (Raise (KeyError k), g).
Proof.
  unfold first_missing, Carthing.draw_ray.
  destruct (p !! "x") eqn:Ex; [|intros H; inversion H; now repeat run_read].
  destruct (p !! "y") eqn:Ey; [|intros H; inversion H; now repeat run_read].
  destruct (p !! "track_width") eqn:Ew;
    [|intros H; inversion H; now repeat run_read].
  discriminate.
Qed.

Lemma draw_ray2_missing p wps sight g k :
  first_missing p ["x"; "y"; "track_width"] = Some k ->
  Carthing2.draw_ray p wps sight g = (Raise (KeyError k), g).
Proof.
  unfold first_missing, Carthing2.draw_ray.
  destruct (p !! "x") eqn:Ex; [|intros H; inversion H; now repeat run_read].
  destruct (p !! "y") eqn:Ey; [|intros H; inversion H; now repeat run_read].
  destruct (p !! "track_width") eqn:Ew;
    [|intros H; inversion H; now repeat run_read].
  discriminate.
Qed.

(** Stepping [k] places ahead on a loop of [n] places, with [0 < k < n],
    never lands on the starting place. *)
Lemma step_ahead_moves (idx k n : Z) :
  (0 <= idx < n)%Z -> (0 < k < n)%Z -> ((idx + k) mod n <> idx)%Z.
Proof.
  intros Hi Hk. destruct (Z_lt_dec (idx + k) n) as [L|L].
  - rewrite Z.mod_small; lia.
  - replace (idx + k)%Z with (idx + k - n + 1 * n)%Z by lia.
    rewrite Z.mod_add by lia. rewrite Z.mod_small; lia.
Qed.

(** What the look-ahead says about the two indices, by table size. *)
Lemma look_ahead_indices dl m idx td t :
  first_minimum dl m idx ->
  look_ahead dl idx (Z.of_nat (length dl)) td (Z.of_nat (length dl / 10))
    idx t ->
  (dl = [] -> t = (-1)%Z /\ idx = (-1)%Z)
  /\ ((length dl < 60)%nat -> t = idx)
  /\ ((60 <= length dl)%nat ->
      t <> idx
      /\ exists k : Z,
           (5 <= k < Z.of_nat (length dl / 10))%Z
           /\ t = ((idx + k) mod Z.of_nat (length dl))%Z).
Proof.
  intros Inv [Hsmall Hbig].
  assert (Hdiv : (length dl < 60)%nat -> (length dl / 10 <= 5)%nat).
  { intros H. apply Nat.lt_succ_r, Nat.Div0.div_lt_upper_bound. lia. }
  assert (Hdiv' : (60 <= length dl)%nat -> (6 <= length dl / 10)%nat).
  { intros H. change 6%nat with (60 / 10)%nat.
    now apply Nat.Div0.div_le_mono. }
  split; [|split].
  - intros ->. simpl in *. destruct m as [d|]; simpl in Inv.
    + lia.
    + destruct Inv as [_ ->]. split; [|reflexivity]. apply Hsmall. lia.
  - intros H. apply Hsmall. specialize (Hdiv H). lia.
  - intros H. specialize (Hdiv' H).
    destruct Hbig as (k & Hk & -> & _); [lia|].
    assert (Hne : dl <> []) by (intros ->; simpl in H; lia).
    pose proof (first_minimum_in_range dl m idx Hne Inv) as Hidx.
    assert (Hle : (length dl / 10 <= length dl)%nat)
      by (apply Nat.Div0.div_le_upper_bound; lia).
    split; [apply step_ahead_moves; lia|].
    exists k. split; [exact Hk|reflexivity].
Qed.

End LocatorIndices.

(** X9.  [draw_ray], in both files, raises [KeyError] for the first of
    ["x"], ["y"], ["track_width"] that is absent, and otherwise always
    returns, leaving the globals alone: no table makes it raise an index or
    division error.  On an empty table it returns [(-1, -1)]; on a non-empty
    table of [N] waypoints both indices are valid positions of the table.
    With fewer than 60 waypoints the target is the nearest waypoint itself;
    with 60 or more it is a different waypoint, [k] places ahead of the
    nearest one around the loop, [5 <= k < N div 10]. *)
Theorem draw_ray_indices :
  forall p sight,
    (forall wps g k,
       first_missing p ["x"; "y"; "track_width"] = Some k ->
       Carthing.draw_ray p wps sight g = (Raise (KeyError k), g)
       /\ forall wps2 g2,
            Carthing2.draw_ray p wps2 sight g2 = (Raise (KeyError k), g2))
    /\ (is_Some (p !! "x") -> is_Some (p !! "y") ->
        is_Some (p !! "track_width") ->
        let good (n : nat) (ti : Z * Z) :=
          (n = 0%nat -> ti = ((-1)%Z, (-1)%Z))
          /\ (n <> 0%nat ->
              (0 <= fst ti < Z.of_nat n)%Z /\ (0 <= snd ti < Z.of_nat n)%Z)
          /\ ((n < 60)%nat -> fst ti = snd ti)
          /\ ((60 <= n)%nat ->
              fst ti <> snd ti
              /\ exists k : Z,
                   (5 <= k < Z.of_nat (n / 10))%Z
                   /\ fst ti = ((snd ti + k) mod Z.of_nat n)%Z) in
        (forall wps g,
           returns (Carthing.draw_ray p wps sight) g (fun ti g' =>
             g' = g /\ good (length wps) ti))
        /\ (forall wps g,
              returns (Carthing2.draw_ray p wps sight) g (fun ti g' =>
                g' = g /\ good (length wps) ti))).
Proof.
  intros p sight. split.
  - intros wps g k Hk. split; [now apply draw_ray_missing|].
    intros wps2 g2. now apply draw_ray2_missing.
  - intros Hx Hy Hw good. split; intros wps g.
    + destruct (draw_ray_returns p wps sight g Hx Hy Hw)
        as (m & idx & _ & Inv & Hret).
      eapply returns_mono; [exact Hret|]. simpl.
      intros [t mi] g' (-> & Hmi & Hla & Hr). simpl in *. subst mi.
      split; [reflexivity|].
      assert (Hlen : length (distances (tele p "x", tele p "y") wps)
                     = length wps) by apply length_map.
      rewrite <- Hlen in Hla.
      destruct (look_ahead_indices _ _ _ _ _ Inv Hla) as (H0 & H1 & H2).
      rewrite Hlen in *. unfold good. simpl.
      split; [|split; [|split]].
      * intros Hn. destruct H0 as [-> ->]; [|reflexivity].
        destruct wps; [reflexivity|discriminate].
      * intros Hn. apply Hr. intros ->. now apply Hn.
      * exact H1.
      * exact H2.
    + destruct (draw_ray2_returns p wps sight g Hx Hy Hw)
        as (m & idx & _ & Inv & Hret).
      eapply returns_mono; [exact Hret|]. simpl.
      intros [t mi] g' (-> & Hmi & Hla & Hr). simpl in *. subst mi.
      split; [reflexivity|].
      assert (Hlen : length (distances2 (tele p "x", tele p "y") wps)
                     = length wps) by apply length_map.
      rewrite <- Hlen in Hla.
      destruct (look_ahead_indices _ _ _ _ _ Inv Hla) as (H0 & H1 & H2).
      rewrite Hlen in *. unfold good. simpl.
      split; [|split; [|split]].
      * intros Hn. destruct H0 as [-> ->]; [|reflexivity].
        destruct wps; [reflexivity|discriminate].
      * intros Hn. apply Hr. intros ->. now apply Hn.
      * exact H1.
      * exact H2.
Qed.

Lemma draw_ray_indices_witness :
  returns (Carthing.draw_ray (on_waypoint_0 0) Carthing.get_racing_track 0.5)
    Carthing.loaded (fun ti g' =>
      g' = Carthing.loaded
      /\ (0 <= fst ti < 120)%Z /\ (0 <= snd ti < 120)%Z
      /\ fst ti <> snd ti).
Proof.
  eapply returns_mono.
  - apply (proj2 (draw_ray_indices (on_waypoint_0 0) 0.5));
      eexists; reflexivity.
  - cbv beta zeta. intros ti g' (-> & _ & Hr & _ & Hbig).
    rewrite racing_track_length in Hr, Hbig.
    destruct Hr as [H1 H2]; [lia|].
    destruct Hbig as [Hne _]; [lia|].
    split; [reflexivity|]. split; [lia|]. split; [lia|exact Hne].
Defined.

(* ===================================================================== *)
(** * Further properties: a car that sits on a waypoint                    *)
(* ===================================================================== *)

Section OnWaypoint.

(** In a list of distances that holds a zero, the first minimum is the
    first zero. *)
Lemma first_minimum_zero dl m idx i :
  (forall j d, dl !! j = Some d -> 0 <= d) ->
  dl !! i = Some 0 -> first_minimum dl m idx ->
  m = Fin 0 /\ (0 <= idx <= Z.of_nat i)%Z /\ dl !! Z.to_nat idx = Some 0.
Proof.
  intros Hpos Hi Inv. destruct m as [d|]; simpl in Inv.
  - destruct Inv as (Hr & Hd & Hle & Hlt).
    assert (d = 0).
    { specialize (Hle _ _ Hi). specialize (Hpos _ _ Hd). lra. }
    subst d. split; [reflexivity|]. split; [|exact Hd].
    destruct (Z_le_gt_dec idx (Z.of_nat i)) as [L|G]; [lia|].
    specialize (Hlt i 0 ltac:(lia) Hi). lra.
  - destruct Inv as [-> _]. discriminate.
Qed.

End OnWaypoint.

(** X10.  [get_distance_list], in both files, returns
    [([], inf, -1, 0)] for an empty table.  When the car sits exactly on
    some waypoint of the table, the minimum distance is 0 and the index
    returned is that of the first waypoint at the car's position, which is
    at or before the given one. *)
Theorem nearest_when_on_waypoint :
  forall car : point,
    Carthing.get_distance_list car [] = ([], PosInf, (-1)%Z, 0%Z)
    /\ Carthing2.get_distance_list car [] = ([], PosInf, (-1)%Z, 0%Z)
    /\ (forall wps (i : nat) w,
          wps !! i = Some w -> Carthing.xy w = car ->
          exists idx w',
            Carthing.get_distance_list car wps
              = (distances car wps, Fin 0, idx, Z.of_nat (length wps))
            /\ (0 <= idx <= Z.of_nat i)%Z
            /\ wps !! Z.to_nat idx = Some w' /\ Carthing.xy w' = car
            /\ forall j w'', (j < Z.to_nat idx)%nat -> wps !! j = Some w'' ->
                 Carthing.xy w'' <> car)
    /\ (forall wps (i : nat) w,
          wps !! i = Some w -> Carthing2.xy w = car ->
          exists idx w',
            Carthing2.get_distance_list car wps
              = (distances2 car wps, Fin 0, idx, Z.of_nat (length wps))
            /\ (0 <= idx <= Z.of_nat i)%Z
            /\ wps !! Z.to_nat idx = Some w' /\ Carthing2.xy w' = car
            /\ forall j w'', (j < Z.to_nat idx)%nat -> wps !! j = Some w'' ->
                 Carthing2.xy w'' <> car).
Proof.
  intros car. split; [reflexivity|]. split; [reflexivity|]. split.
  - intros wps i w Hi Hw.
    destruct (get_distance_list_eq car wps) as (m & idx & E & Inv).
    fold (distances car wps) in E, Inv.
    assert (Hi0 : distances car wps !! i = Some 0).
    { unfold distances. rewrite list_lookup_fmap, Hi. simpl. f_equal.
      apply get_distance_zero. now symmetry. }
    destruct (first_minimum_zero _ _ _ _ (distances_nonneg car wps) Hi0 Inv)
      as (-> & Hr & Hz).
    unfold distances in Hz. rewrite list_lookup_fmap in Hz.
    destruct (wps !! Z.to_nat idx) as [w'|] eqn:Ew'; [|discriminate].
    simpl in Hz. injection Hz as Hz'.
    exists idx, w'. split; [exact E|]. split; [exact Hr|].
    split; [exact Ew'|]. split; [symmetry; now apply get_distance_zero|].
    intros j w'' Hj Hw'' Heq.
    destruct Inv as (_ & _ & _ & Hlt).
    assert (Hj0 : distances car wps !! j = Some 0).
    { unfold distances. rewrite list_lookup_fmap, Hw''. simpl. f_equal.
      apply get_distance_zero. now symmetry. }
    specialize (Hlt j 0 Hj Hj0). lra.
  - intros wps i w Hi Hw.
    destruct (get_distance_list2_eq car wps) as (m & idx & E & Inv).
    fold (distances2 car wps) in E, Inv.
    assert (Hi0 : distances2 car wps !! i = Some 0).
    { unfold distances2. rewrite list_lookup_fmap, Hi. simpl. f_equal.
      rewrite get_distance2_same. apply get_distance_zero. now symmetry. }
    destruct (first_minimum_zero _ _ _ _ (distances2_nonneg car wps) Hi0 Inv)
      as (-> & Hr & Hz).
    unfold distances2 in Hz. rewrite list_lookup_fmap in Hz.
    destruct (wps !! Z.to_nat idx) as [w'|] eqn:Ew'; [|discriminate].
    simpl in Hz. injection Hz as Hz'.
    exists idx, w'. split; [exact E|]. split; [exact Hr|].
    split; [exact Ew'|].
    split; [symmetry; apply get_distance_zero;
            now rewrite <- get_distance2_same|].
    intros j w'' Hj Hw'' Heq.
    destruct Inv as (_ & _ & _ & Hlt).
    assert (Hj0 : distances2 car wps !! j = Some 0).
    { unfold distances2. rewrite list_lookup_fmap, Hw''. simpl. f_equal.
      rewrite get_distance2_same. apply get_distance_zero. now symmetry. }
    specialize (Hlt j 0 Hj Hj0). lra.
Qed.

Lemma nearest_when_on_waypoint_witness :
  exists idx w',
    Carthing2.get_distance_list (1.17885, -0.02819) Carthing2.get_racing_track
      = (distances2 (1.17885, -0.02819) Carthing2.get_racing_track, Fin 0,
         idx, Z.of_nat (length Carthing2.get_racing_track))
    /\ (0 <= idx <= Z.of_nat 120)%Z
    /\ Carthing2.get_racing_track !! Z.to_nat idx = Some w'
    /\ Carthing2.xy w' = (1.17885, -0.02819).
Proof.
  destruct (proj2 (proj2 (proj2 (nearest_when_on_waypoint
                                   (1.17885, -0.02819))))
              Carthing2.get_racing_track 120%nat
              (Carthing2.WP 1.17885 (-0.02819)))
    as (idx & w' & E & Hr & Hw & Hxy & _).
  - reflexivity.
  - reflexivity.
  - exists idx, w'. auto.
Defined.

(* ===================================================================== *)
(** * Further properties: the progress score over an episode               *)
(* ===================================================================== *)

Section Episode.

Lemma last_cons_default (a d : R) (l : list R) :
  List.last (a :: l) d = List.last l a.
Proof.
  revert a d. induction l as [|b l IH]; intros a d; [reflexivity|].
  change (List.last (a :: b :: l) d) with (List.last (b :: l) d).
  rewrite IH. symmetry. apply IH.
Qed.

(** The progress scores of a sequence of calls: each is at least the floor,
    and together they are worth at least the net progress. *)
Lemma progress_scores_sum calls : forall g,
  configured g ->
  Forall (fun p : gmap string value => is_Some (p !! "progress")) calls ->
  exists scores,
    run Carthing.score_progress calls g = map Ok scores
    /\ length scores = length calls
    /\ Forall (fun s => 0.001 <= s) scores
    /\ 5.0 * (List.last (map (fun p => tele p "progress") calls)
                (Carthing.last_progress g)
              - Carthing.last_progress g)
       <= fold_right Rplus 0 scores.
Proof.
  induction calls as [|p rest IH]; intros g Hc Hall.
  - exists []. simpl. repeat split; [constructor|lra].
  - inversion Hall as [|? ? Hp Hrest]; subst.
    destruct (IH (Carthing.set_last_progress (tele p "progress") g)
                (configured_set_last_progress _ _ Hc) Hrest)
      as (scores & E & Hlen & Hfloor & Hsum).
    destruct Hc as [Hmax Hmin].
    set (s := py_max ((tele p "progress" - Carthing.last_progress g) * 5.0)
                0.001).
    exists (s :: scores).
    assert (Hs : 0.001 <= s
                 /\ (tele p "progress" - Carthing.last_progress g) * 5.0 <= s).
    { unfold s, py_max. destruct (Rlt_dec _ 0.001); lra. }
    split; [|split; [|split]].
    + simpl. rewrite (score_progress_value p g Hp), Hmax, Hmin. fold s.
      now rewrite E.
    + simpl. now rewrite Hlen.
    + constructor; [tauto|exact Hfloor].
    + simpl map. rewrite last_cons_default. simpl in Hsum. simpl fold_right.
      lra.
Qed.

End Episode.

(** X12.  The delta-based progress score of carthing.py over an episode.
    Without the key ["progress"] a call raises [KeyError] and leaves
    [last_progress] as it was.  A call whose progress is not above
    [last_progress] scores the floor [reward_min] and still moves
    [last_progress] to the new value.  Over any sequence of calls that carry
    the key, every score is at least [reward_min] and the scores add up to
    at least [reward_max] times the net progress made, from the initial
    [last_progress] to the progress of the last call. *)
Theorem progress_scores_over_episode :
  forall g,
    configured g ->
    (forall p,
       p !! "progress" = None ->
       Carthing.score_progress p g = (Raise (KeyError "progress"), g))
    /\ (forall p,
          is_Some (p !! "progress") ->
          tele p "progress" <= Carthing.last_progress g ->
          Carthing.score_progress p g
          = (Ok (Carthing.reward_min g),
             Carthing.set_last_progress (tele p "progress") g))
    /\ (forall calls,
          Forall (fun p : gmap string value => is_Some (p !! "progress"))
            calls ->
          exists scores,
            run Carthing.score_progress calls g = map Ok scores
            /\ length scores = length calls
            /\ Forall (fun s => Carthing.reward_min g <= s) scores
            /\ Carthing.reward_max g
               * (List.last (map (fun p => tele p "progress") calls)
                    (Carthing.last_progress g)
                  - Carthing.last_progress g)
               <= fold_right Rplus 0 scores).
Proof.
  intros g Hc. split; [intros p; apply score_progress_missing|]. split.
  - intros p Hp Hle. rewrite (score_progress_value p g Hp).
    destruct Hc as [Hmax Hmin]. rewrite Hmax, Hmin. f_equal. f_equal.
    unfold py_max. destruct (Rlt_dec _ 0.001); lra.
  - intros calls Hall.
    destruct (progress_scores_sum calls g Hc Hall)
      as (scores & E & Hlen & Hfloor & Hsum).
    destruct Hc as [Hmax Hmin]. rewrite Hmax, Hmin.
    exists scores. auto.
Qed.

Lemma progress_scores_over_episode_witness :
  exists scores,
    run Carthing.score_progress
      [on_waypoint_0 1; on_waypoint_0 3; on_waypoint_0 2] Carthing.loaded
    = map Ok scores
    /\ Carthing.reward_max Carthing.loaded
       * (List.last
            (map (fun p => tele p "progress")
               [on_waypoint_0 1; on_waypoint_0 3; on_waypoint_0 2])
            (Carthing.last_progress Carthing.loaded)
          - Carthing.last_progress Carthing.loaded)
       <= fold_right Rplus 0 scores.
Proof.
  destruct (proj2 (proj2 (progress_scores_over_episode Carthing.loaded
                            configured_loaded))
              [on_waypoint_0 1; on_waypoint_0 3; on_waypoint_0 2])
    as (scores & E & _ & _ & H).
  - repeat constructor; eexists; reflexivity.
  - exists scores. split; [exact E|exact H].
Defined.

(* ===================================================================== *)
(** * Further properties: what the carried state can change                *)
(* ===================================================================== *)

Section StateIndependence.

(** The look-ahead has one outcome. *)
Lemma look_ahead_unique dl idx n td hi t0 t t' :
  look_ahead dl idx n td hi t0 t -> look_ahead dl idx n td hi t0 t' -> t = t'.
Proof.
  intros [Hs Hb] [Hs' Hb'].
  destruct (Z_le_gt_dec hi 5) as [L|G].
  - rewrite (Hs L), (Hs' L). reflexivity.
  - destruct (Hb ltac:(lia)) as (k & Hk & -> & Hbefore & Hat).
    destruct (Hb' ltac:(lia)) as (k' & Hk' & -> & Hbefore' & Hat').
    assert (k = k'); [|now subst].
    destruct (Z.lt_trichotomy k k') as [Hlt|[Heq|Hgt]]; [|exact Heq|].
    + destruct Hat as [->|(d & Hd & Hge)]; [lia|].
      destruct (Hbefore' k ltac:(lia)) as (d' & Hd' & Hlt').
      rewrite Hd in Hd'. inversion Hd'. lra.
    + destruct Hat' as [->|(d & Hd & Hge)]; [lia|].
      destruct (Hbefore k' ltac:(lia)) as (d' & Hd' & Hlt').
      rewrite Hd in Hd'. inversion Hd'. lra.
Qed.

(** What [draw_ray] returns does not depend on the globals. *)
Lemma draw_ray_same_indices p wps sight (g g' : Carthing.globals) ti ti' :
  is_Some (p !! "x") -> is_Some (p !! "y") ->
  is_Some (p !! "track_width") ->
  Carthing.draw_ray p wps sight g = (Ok ti, g) ->
  Carthing.draw_ray p wps sight g' = (Ok ti', g') ->
  ti = ti'.
Proof.
  intros Hx Hy Hw E E'.
  destruct (draw_ray_returns p wps sight g Hx Hy Hw)
    as (m & idx & Eg & _ & Hret).
  destruct (draw_ray_returns p wps sight g' Hx Hy Hw)
    as (m' & idx' & Eg' & _ & Hret').
  rewrite Eg in Eg'. inversion Eg'. subst m' idx'.
  unfold returns in Hret, Hret'. rewrite E in Hret. rewrite E' in Hret'.
  destruct Hret as (_ & Hi & Hla & _), Hret' as (_ & Hi' & Hla' & _).
  destruct ti as [t i], ti' as [t' i']. simpl in *. subst i i'.
  f_equal. exact (look_ahead_unique _ _ _ _ _ _ _ _ Hla Hla').
Qed.

End StateIndependence.

(** X15.  In carthing.py, on valid telemetry with a non-zero track width,
    the carried [last_progress] reaches the reward through the progress
    score and nothing else: from two states of the globals with the
    configured bounds, the two rewards on the same telemetry differ exactly
    by the difference of the two progress scores.  In particular a call
    repeated at once with the same telemetry returns the first reward less
    the first progress score plus the floor [reward_min].  With a zero track
    width the carried state plays no part either: from both states the call
    raises [ZeroDivisionError] and leaves the state as it was. *)
Theorem last_progress_moves_progress_score_only :
  forall p g g',
    configured g -> configured g' -> has_required p ->
    (tele p "track_width" = 0 ->
     Carthing.reward_function p g = (Raise ZeroDivisionError, g)
     /\ Carthing.reward_function p g' = (Raise ZeroDivisionError, g'))
    /\ (tele p "track_width" <> 0 ->
        let pscore (h : Carthing.globals) :=
          Rmax ((tele p "progress" - Carthing.last_progress h) * 5.0) 0.001
        in
        exists r r',
          Carthing.reward_function p g
            = (Ok r, Carthing.set_last_progress (tele p "progress") g)
          /\ Carthing.reward_function p g'
             = (Ok r', Carthing.set_last_progress (tele p "progress") g')
          /\ r - r' = pscore g - pscore g'
          /\ exists r2,
               Carthing.reward_function p
                 (Carthing.set_last_progress (tele p "progress") g)
               = (Ok r2, Carthing.set_last_progress (tele p "progress") g)
               /\ r2 = r - pscore g + 0.001).
Proof.
  intros p g g' Hc Hc' Hreq. split.
  { intros Hz. split; now apply additive_zero_width_raises. }
  intros Hnz pscore.
  assert (Hx : is_Some (p !! "x")) by (apply Hreq; simpl; tauto).
  assert (Hy : is_Some (p !! "y")) by (apply Hreq; simpl; tauto).
  assert (Hh : is_Some (p !! "heading")) by (apply Hreq; simpl; tauto).
  assert (Ha : is_Some (p !! "steering_angle")) by (apply Hreq; simpl; tauto).
  assert (Hs : is_Some (p !! "speed")) by (apply Hreq; simpl; tauto).
  assert (Hw : is_Some (p !! "track_width")) by (apply Hreq; simpl; tauto).
  assert (Hp : is_Some (p !! "progress")) by (apply Hreq; simpl; tauto).
  assert (Gen : forall h h',
    configured h -> configured h' ->
    exists r r',
      Carthing.reward_function p h
        = (Ok r, Carthing.set_last_progress (tele p "progress") h)
      /\ Carthing.reward_function p h'
         = (Ok r', Carthing.set_last_progress (tele p "progress") h')
      /\ r - r' = pscore h - pscore h').
  { intros h h' [Hmax Hmin] [Hmax' Hmin'].
    destruct (additive_composition p h Hreq Hnz)
      as (t & idx & target & nearest & s1 & s2 & s3 & s4 & s5
          & D & T & N & E1 & E2 & E3 & E4 & E5 & E).
    destruct (additive_composition p h' Hreq Hnz)
      as (t' & idx' & target' & nearest' & s1' & s2' & s3' & s4' & s5'
          & D' & T' & N' & E1' & E2' & E3' & E4' & E5' & E').
    pose proof (draw_ray_same_indices _ _ _ _ _ _ _ Hx Hy Hw D D') as Eti.
    inversion Eti. subst t' idx'.
    rewrite T in T'. inversion T'. subst target'.
    rewrite N in N'. inversion N'. subst nearest'.
    rewrite score_steering_value in E1, E1' by assumption.
    rewrite score_speed_value in E2, E2' by assumption.
    rewrite score_center_value in E3, E3' by assumption.
    rewrite score_progress_value in E4, E4' by assumption.
    rewrite score_speed_steering_value in E5, E5' by assumption.
    simpl in E5, E5'.
    rewrite Hmax, Hmin in *. rewrite Hmax', Hmin' in *.
    rewrite py_max_Rmax in E4, E4'.
    exists (0.0 + s1 + s2 + s3 + s4 + s5), (0.0 + s1' + s2' + s3' + s4' + s5').
    split; [exact E|]. split; [exact E'|].
    inversion E1; inversion E1'; inversion E2; inversion E2';
      inversion E3; inversion E3'; inversion E4; inversion E4';
      inversion E5; inversion E5'.
    unfold pscore. lra. }
  destruct (Gen g g' Hc Hc') as (r & r' & E & E' & Hd).
  exists r, r'. split; [exact E|]. split; [exact E'|]. split; [exact Hd|].
  destruct (Gen g (Carthing.set_last_progress (tele p "progress") g) Hc
              (configured_set_last_progress _ _ Hc))
    as (r0 & r2 & E0 & E2 & Hd2).
  rewrite E in E0. inversion E0. subst r0.
  exists r2. split; [exact E2|].
  unfold pscore in *. simpl Carthing.last_progress in Hd2.
  assert (F : Rmax ((tele p "progress" - tele p "progress") * 5.0) 0.001
              = 0.001).
  { rewrite Rminus_diag, Rmult_0_l. unfold Rmax.
    destruct (Rle_dec 0 0.001); lra. }
  rewrite F in Hd2. lra.
Qed.

Lemma last_progress_moves_progress_score_only_witness :
  (Carthing.reward_function (zero_width false) Carthing.loaded
   = (Raise ZeroDivisionError, Carthing.loaded)
   /\ Carthing.reward_function (zero_width false)
        (Carthing.set_last_progress 8 Carthing.loaded)
      = (Raise ZeroDivisionError,
         Carthing.set_last_progress 8 Carthing.loaded))
  /\ exists r r',
       Carthing.reward_function (on_waypoint_0 10) Carthing.loaded
         = (Ok r, Carthing.set_last_progress
                    (tele (on_waypoint_0 10) "progress") Carthing.loaded)
       /\ Carthing.reward_function (on_waypoint_0 10)
            (Carthing.set_last_progress 8 Carthing.loaded)
          = (Ok r', Carthing.set_last_progress
                      (tele (on_waypoint_0 10) "progress")
                      (Carthing.set_last_progress 8 Carthing.loaded))
       /\ r - r'
          = Rmax ((tele (on_waypoint_0 10) "progress"
                   - Carthing.last_progress Carthing.loaded) * 5.0) 0.001
            - Rmax ((tele (on_waypoint_0 10) "progress"
                     - Carthing.last_progress
                         (Carthing.set_last_progress 8 Carthing.loaded))
                    * 5.0)
                0.001.
Proof.
  split.
  - apply (last_progress_moves_progress_score_only (zero_width false)
             Carthing.loaded (Carthing.set_last_progress 8 Carthing.loaded)).
    + apply configured_loaded.
    + apply configured_set_last_progress, configured_loaded.
    + apply zero_width_required.
    + reflexivity.
  - destruct (proj2 (last_progress_moves_progress_score_only
                       (on_waypoint_0 10) Carthing.loaded
                       (Carthing.set_last_progress 8 Carthing.loaded)
                       configured_loaded
                       (configured_set_last_progress _ _ configured_loaded)
                       (on_waypoint_0_required 10)))
      as (r & r' & E & E' & H & _).
    + rewrite on_waypoint_0_width. lra.
    + exists r, r'. auto.
Defined.

(* ===================================================================== *)
(** * Further properties: a car on the racing line                         *)
(* ===================================================================== *)

Section OnRacingLine.

(** For a car sitting on a waypoint of the table the scan of
    [get_distance_list] ends with the minimum 0, and the nearest waypoint
    that [draw_ray] reports is a waypoint at the car's position. *)
Lemma nearest_is_under_car p wps sight g t idx i w :
  is_Some (p !! "x") -> is_Some (p !! "y") ->
  is_Some (p !! "track_width") ->
  wps !! i = Some w -> Carthing.xy w = (tele p "x", tele p "y") ->
  Carthing.draw_ray p wps sight g = (Ok (t, idx), g) ->
  Carthing.get_distance_list (tele p "x", tele p "y") wps
  = (distances (tele p "x", tele p "y") wps, Fin 0, idx,
     Z.of_nat (length wps))
  /\ forall nearest,
       wps !! Z.to_nat idx = Some nearest ->
       Carthing.get_distance (tele p "x", tele p "y") (Carthing.xy nearest)
       = 0.
Proof.
  intros Hx Hy Hw Hi Hxy D.
  destruct (draw_ray_returns p wps sight g Hx Hy Hw)
    as (m & idx0 & E & Inv & Hret).
  unfold returns in Hret. rewrite D in Hret.
  destruct Hret as (_ & Hidx & _). simpl in Hidx. subst idx0.
  assert (Hi0 : distances (tele p "x", tele p "y") wps !! i = Some 0).
  { unfold distances. rewrite list_lookup_fmap, Hi. simpl. f_equal.
    apply get_distance_zero. now symmetry. }
  destruct (first_minimum_zero _ _ _ _ (distances_nonneg _ wps) Hi0 Inv)
    as (-> & _ & Hz).
  split; [exact E|]. intros nearest Hn.
  unfold distances in Hz. rewrite list_lookup_fmap, Hn in Hz.
  simpl in Hz. now injection Hz.
Qed.

Lemma closest_is_under_car p wps sight g t idx i w :
  is_Some (p !! "x") -> is_Some (p !! "y") ->
  is_Some (p !! "track_width") ->
  wps !! i = Some w -> Carthing2.xy w = (tele p "x", tele p "y") ->
  Carthing2.draw_ray p wps sight g = (Ok (t, idx), g) ->
  Carthing2.get_distance_list (tele p "x", tele p "y") wps
  = (distances2 (tele p "x", tele p "y") wps, Fin 0, idx,
     Z.of_nat (length wps))
  /\ forall closest,
       wps !! Z.to_nat idx = Some closest ->
       Carthing2.get_distance (tele p "x", tele p "y")
         (Carthing2.xy closest) = 0.
Proof.
  intros Hx Hy Hw Hi Hxy D.
  destruct (draw_ray2_returns p wps sight g Hx Hy Hw)
    as (m & idx0 & E & Inv & Hret).
  unfold returns in Hret. rewrite D in Hret.
  destruct Hret as (_ & Hidx & _). simpl in Hidx. subst idx0.
  assert (Hi0 : distances2 (tele p "x", tele p "y") wps !! i = Some 0).
  { unfold distances2. rewrite list_lookup_fmap, Hi. simpl. f_equal.
    rewrite get_distance2_same. apply get_distance_zero. now symmetry. }
  destruct (first_minimum_zero _ _ _ _ (distances2_nonneg _ wps) Hi0 Inv)
    as (-> & _ & Hz).
  split; [exact E|]. intros closest Hn.
  unfold distances2 in Hz. rewrite list_lookup_fmap, Hn in Hz.
  simpl in Hz. now injection Hz.
Qed.

End OnRacingLine.

(** X16.  A car that sits exactly on a waypoint of the racing line.  In both
    files [get_distance_list] then finds the minimum distance 0 at some
    index [min_idx], [draw_ray] (sight 0.25 or 0.5 in carthing.py, 0.5 or 1
    in carthing2.py) returns that index with a target index, and the
    waypoint [racing_track[min_idx]] is at the car's position.  In
    carthing.py (valid telemetry, positive track width) the centre score
    taken at [racing_track[min_idx]] is the floor [reward_min], and the
    reward is the steering score at the target waypoint, plus the speed
    score at [racing_track[min_idx]], plus [reward_min], plus the progress
    score, plus the speed-steering score.  In carthing2.py (valid telemetry,
    car on track, globals as loaded) the centre score taken at
    [racing_track[min_idx]] is the maximum [reward_max = 10.0], the reward
    is the clamp to [[reward_min, reward_max]] of 0.1 times the steering
    score at the target waypoint plus 0.5 times the speed score plus 0.3
    times [reward_max] plus 0.1 times the progress score, and it is at
    least 3. *)
Theorem reward_on_racing_line :
  (forall p g (i : nat) w,
     configured g -> has_required p -> 0 < tele p "track_width" ->
     Carthing.get_racing_track !! i = Some w ->
     Carthing.xy w = (tele p "x", tele p "y") ->
     exists sight t min_idx target nearest s1 s2 s4 s5,
       (sight = 0.25 \/ sight = 0.5)
       /\ Carthing.get_distance_list (tele p "x", tele p "y")
            Carthing.get_racing_track
          = (distances (tele p "x", tele p "y") Carthing.get_racing_track,
             Fin 0, min_idx,
             Z.of_nat (length Carthing.get_racing_track))
       /\ Carthing.draw_ray p Carthing.get_racing_track sight g
          = (Ok (t, min_idx), g)
       /\ Carthing.get_racing_track !! Z.to_nat t = Some target
       /\ Carthing.get_racing_track !! Z.to_nat min_idx = Some nearest
       /\ Carthing.xy nearest = (tele p "x", tele p "y")
       /\ Carthing.score_steering p target g = (Ok s1, g)
       /\ Carthing.score_speed p nearest g = (Ok s2, g)
       /\ Carthing.score_center p nearest g = (Ok (Carthing.reward_min g), g)
       /\ Carthing.score_progress p g
          = (Ok s4, Carthing.set_last_progress (tele p "progress") g)
       /\ Carthing.score_speed_steering p
            (Carthing.set_last_progress (tele p "progress") g)
          = (Ok s5, Carthing.set_last_progress (tele p "progress") g)
       /\ Carthing.reward_function p g
          = (Ok (s1 + s2 + Carthing.reward_min g + s4 + s5),
             Carthing.set_last_progress (tele p "progress") g))
  /\ (forall p v (i : nat) w,
        p !! "is_offtrack" = Some v -> truthy v = false -> has_required p ->
        Carthing2.get_racing_track !! i = Some w ->
        Carthing2.xy w = (tele p "x", tele p "y") ->
        exists sight t min_idx target closest s1 s2 s4 r,
          (sight = 0.5 \/ sight = 1)
          /\ Carthing2.get_distance_list (tele p "x", tele p "y")
               Carthing2.get_racing_track
             = (distances2 (tele p "x", tele p "y")
                  Carthing2.get_racing_track,
                Fin 0, min_idx,
                Z.of_nat (length Carthing2.get_racing_track))
          /\ Carthing2.draw_ray p Carthing2.get_racing_track sight
               Carthing2.loaded
             = (Ok (t, min_idx), Carthing2.loaded)
          /\ Carthing2.get_racing_track !! Z.to_nat t = Some target
          /\ Carthing2.get_racing_track !! Z.to_nat min_idx = Some closest
          /\ Carthing2.xy closest = (tele p "x", tele p "y")
          /\ Carthing2.score_steering p target Carthing2.loaded
             = (Ok s1, Carthing2.loaded)
          /\ Carthing2.score_speed p Carthing2.loaded
             = (Ok s2, Carthing2.loaded)
          /\ Carthing2.score_center p closest Carthing2.loaded
             = (Ok (Carthing2.reward_max Carthing2.loaded), Carthing2.loaded)
          /\ Carthing2.score_progress p Carthing2.loaded
             = (Ok s4, Carthing2.loaded)
          /\ r = py_max
                   (py_min (0.1 * s1 + 0.5 * s2
                            + 0.3 * Carthing2.reward_max Carthing2.loaded
                            + 0.1 * s4)
                           (Carthing2.reward_max Carthing2.loaded))
                   (Carthing2.reward_min Carthing2.loaded)
          /\ Carthing2.reward_function p Carthing2.loaded
             = (Ok r, Carthing2.loaded)
          /\ 3 <= r <= 10).
Proof.
  split.
  - intros p g i w [Hmax Hmin] Hreq Hpos Hi Hxy.
    assert (Hx : is_Some (p !! "x")) by (apply Hreq; simpl; tauto).
    assert (Hy : is_Some (p !! "y")) by (apply Hreq; simpl; tauto).
    assert (Hw : is_Some (p !! "track_width")) by (apply Hreq; simpl; tauto).
    destruct (additive_composition p g Hreq ltac:(lra))
      as (t & idx & target & nearest & s1 & s2 & s3 & s4 & s5
          & D & T & N & E1 & E2 & E3 & E4 & E5 & E).
    destruct (nearest_is_under_car _ _ _ _ _ _ _ _ Hx Hy Hw Hi Hxy D)
      as [L Hz0].
    pose proof (Hz0 nearest N) as Hz.
    assert (H3 : s3 = Carthing.reward_min g).
    { rewrite score_center_value in E3 by (auto; lra).
      rewrite Hz, Hmax, Hmin in E3. injection E3 as <-.
      rewrite Hmin. apply clamp_floor; [lra|].
      rewrite Rminus_0_r, Rabs_pos_eq by lra.
      replace (tele p "track_width" / tele p "track_width") with 1
        by (field; lra). lra. }
    subst s3.
    eexists _, t, idx, target, nearest, s1, s2, s4, s5.
    split; [|split; [exact L|split; [exact D|]]].
    { destruct (Rlt_dec (tele p "y") _); [now left|now right]. }
    split; [exact T|]. split; [exact N|].
    split; [symmetry; now apply get_distance_zero|].
    split; [exact E1|]. split; [exact E2|]. split; [exact E3|].
    split; [exact E4|]. split; [exact E5|].
    rewrite E. f_equal. f_equal. lra.
  - intros p v i w Hv Hf Hreq Hi Hxy.
    assert (Hx : is_Some (p !! "x")) by (apply Hreq; simpl; tauto).
    assert (Hy : is_Some (p !! "y")) by (apply Hreq; simpl; tauto).
    assert (Hh : is_Some (p !! "heading")) by (apply Hreq; simpl; tauto).
    assert (Ha : is_Some (p !! "steering_angle"))
      by (apply Hreq; simpl; tauto).
    assert (Hs : is_Some (p !! "speed")) by (apply Hreq; simpl; tauto).
    assert (Hw : is_Some (p !! "track_width")) by (apply Hreq; simpl; tauto).
    assert (Hp : is_Some (p !! "progress")) by (apply Hreq; simpl; tauto).
    destruct (weighted_composition p Carthing2.loaded v Hv Hf Hreq)
      as (t & idx & target & closest & s1 & s2 & s3 & s4
          & D & T & N & E1 & E2 & E3 & E4 & E).
    destruct (closest_is_under_car _ _ _ _ _ _ _ _ Hx Hy Hw Hi Hxy D)
      as [L Hz0].
    pose proof (Hz0 closest N) as Hz.
    assert (H3 : s3 = Carthing2.reward_max Carthing2.loaded).
    { rewrite score_center2_value in E3 by assumption.
      rewrite Hz in E3. simpl in E3. injection E3 as <-.
      simpl. apply clamp_above; lra. }
    subst s3.
    eexists _, t, idx, target, closest, s1, s2, s4, _.
    split; [|split; [exact L|split; [exact D|]]].
    { destruct (Rlt_dec (tele p "y") _); [now left|now right]. }
    split; [exact T|]. split; [exact N|].
    split; [symmetry; apply get_distance_zero;
            now rewrite <- get_distance2_same|].
    split; [exact E1|]. split; [exact E2|]. split; [exact E3|].
    split; [exact E4|]. split; [reflexivity|]. split; [exact E|].
    rewrite score_steering2_value in E1 by assumption.
    rewrite score_speed2_value in E2 by assumption.
    rewrite score_progress2_value in E4 by assumption.
    simpl in E1, E2, E4.
    simpl Carthing2.reward_max. simpl Carthing2.reward_min.
    assert (B1 : 0.001 <= s1 <= 10.0)
      by (injection E1 as <-; apply clamp_bounds; lra).
    assert (B2 : 0.001 <= s2 <= 10.0)
      by (injection E2 as <-; apply clamp_bounds; lra).
    assert (B4 : 0.001 <= s4 <= 10.0)
      by (injection E4 as <-; apply clamp_bounds; lra).
    unfold py_max, py_min.
    destruct (Rlt_dec 10.0 _), (Rlt_dec _ 0.001); lra.
Qed.

Lemma reward_on_racing_line_witness :
  (exists min_idx nearest s1 s2 s4 s5,
     Carthing.get_racing_track !! Z.to_nat min_idx = Some nearest
     /\ Carthing.score_center (on_waypoint_0 0) nearest Carthing.loaded
        = (Ok (Carthing.reward_min Carthing.loaded), Carthing.loaded)
     /\ Carthing.reward_function (on_waypoint_0 0) Carthing.loaded
        = (Ok (s1 + s2 + Carthing.reward_min Carthing.loaded + s4 + s5),
           Carthing.set_last_progress (tele (on_waypoint_0 0) "progress")
             Carthing.loaded))
  /\ (exists min_idx closest r,
        Carthing2.get_racing_track !! Z.to_nat min_idx = Some closest
        /\ Carthing2.score_center (on_waypoint_0_flagged false 0) closest
             Carthing2.loaded
           = (Ok (Carthing2.reward_max Carthing2.loaded), Carthing2.loaded)
        /\ Carthing2.reward_function (on_waypoint_0_flagged false 0)
             Carthing2.loaded = (Ok r, Carthing2.loaded)
        /\ 3 <= r <= 10).
Proof.
  split.
  - destruct (proj1 reward_on_racing_line (on_waypoint_0 0) Carthing.loaded
                0%nat (Carthing.WP 1.17885 (-0.02819) 4))
      as (sight & t & min_idx & target & nearest & s1 & s2 & s4 & s5
          & _ & _ & _ & _ & N & _ & _ & _ & E3 & _ & _ & E).
    + apply configured_loaded.
    + apply on_waypoint_0_required.
    + rewrite on_waypoint_0_width. lra.
    + reflexivity.
    + reflexivity.
    + exists min_idx, nearest, s1, s2, s4, s5. auto.
  - destruct (proj2 reward_on_racing_line (on_waypoint_0_flagged false 0)
                (VBool false) 0%nat (Carthing2.WP 1.17885 (-0.02819)))
      as (sight & t & min_idx & target & closest & s1 & s2 & s4 & r
          & _ & _ & _ & _ & N & _ & _ & _ & E3 & _ & _ & E & H).
    + reflexivity.
    + reflexivity.
    + apply on_waypoint_0_flagged_required.
    + reflexivity.
    + reflexivity.
    + exists min_idx, closest, r. auto.
Defined.
